(** * flexbar-LeagueOfLegends: the polling, render-throttle and state-store core

    A shallow embedding of [src/services/StateManager.js],
    [src/services/LoLDataService.js] and [src/services/KeyService.js].

    Conventions of the embedding:
    - a JS [Map] keyed by strings is a [gmap string _]; a JS [Set] whose
      iteration order decides the order of emitted events is a duplicate-free
      list in insertion order;
    - [Date.now()] is an explicit argument [now : Z] (milliseconds); one
      synchronous run of a method reads one value of the clock;
    - [setTimeout]/[setInterval] are entries of a timer table held in the
      state; firing a timer is an explicit step;
    - [emit] appends to the list of emitted events, oldest first;
    - the outcome of an outbound call (client discovery, HTTP poll) is an
      argument of the step that consumes it; the host's [draw] is a function
      of the time of the call, held by the service. *)

From Stdlib Require Import Ascii String.
From stdpp Require Import gmap strings list fin_maps pretty.

Set Warnings "-register-all".

Local Open Scope string_scope.
Local Open Scope list_scope.
Local Open Scope Z_scope.

(** ** JavaScript values *)

Module Js.

(** The values that flow through the services: JSON data plus [undefined]
    (the result of reading a missing property or [Map] key).  Numbers are the
    integers (timestamps, counters, widths). *)
Inductive jsval : Type :=
  | JUndefined
  | JNull
  | JBool (b : bool)
  | JNum (z : Z)
  | JStr (s : string)
  | JArr (items : list jsval)
  | JObj (fields : list (string * jsval)).

(** ToBoolean: what [if (v)], [v || d] and [!v] test. *)
Definition truthy (v : jsval) : bool :=
  match v with
  | JUndefined | JNull => false
  | JBool b => b
  | JNum z => negb (z =? 0)
  | JStr s => negb (String.eqb s "")
  | JArr _ | JObj _ => true
  end.

(** [a || b] *)
Definition js_or (a b : jsval) : jsval := if truthy a then a else b.

(** [m.get(k)] on a [Map]: [undefined] when the key is absent. *)
Definition map_get (m : gmap string jsval) (k : string) : jsval :=
  default JUndefined (m !! k).

(** Own properties of an object literal, as an association list in which the
    first binding of a name is the live one. *)
Fixpoint assoc (k : string) (fs : list (string * jsval)) : option jsval :=
  match fs with
  | [] => None
  | (k', v) :: rest => if String.eqb k k' then Some v else assoc k rest
  end.

Fixpoint assoc_remove (k : string) (fs : list (string * jsval)) : list (string * jsval) :=
  match fs with
  | [] => []
  | (k', v) :: rest =>
      if String.eqb k k' then assoc_remove k rest else (k', v) :: assoc_remove k rest
  end.

(** [o[k] = v] on an own-property list: overwrite in place, else append. *)
Fixpoint assoc_set (k : string) (v : jsval) (fs : list (string * jsval)) : list (string * jsval) :=
  match fs with
  | [] => [(k, v)]
  | (k', v') :: rest =>
      if String.eqb k k' then (k', v) :: rest else (k', v') :: assoc_set k v rest
  end.

(** [v.k]: property read; [undefined] for a missing property and for a
    primitive receiver. *)
Definition get (v : jsval) (k : string) : jsval :=
  match v with
  | JObj fs => default JUndefined (assoc k fs)
  | _ => JUndefined
  end.

(** Reading a property of [v] throws a TypeError: [v] is [null] or
    [undefined].  ([get] is the read on every other receiver.) *)
Definition nullish (v : jsval) : bool :=
  match v with
  | JUndefined | JNull => true
  | _ => false
  end.

(** [v.k = x] on an object. *)
Definition set (v : jsval) (k : string) (x : jsval) : jsval :=
  match v with
  | JObj fs => JObj (assoc_set k x fs)
  | _ => v
  end.

(** [delete v.k] *)
Definition del (v : jsval) (k : string) : jsval :=
  match v with
  | JObj fs => JObj (assoc_remove k fs)
  | _ => v
  end.

(** The own properties that [{...v}] copies: those of an object, none for
    [undefined], [null] and the other primitives the services spread. *)
Definition own_fields (v : jsval) : list (string * jsval) :=
  match v with
  | JObj fs => fs
  | _ => []
  end.

(** [{...a, ...b}] / [Object.assign(a, b)]: the properties of [b] written
    over those of [a]. *)
Definition spread (base : list (string * jsval)) (over : list (string * jsval))
  : list (string * jsval) :=
  foldl (fun acc kv => assoc_set kv.1 kv.2 acc) base over.

(** [a !== b] as the services use it, on values that come from two
    different HTTP responses (or a response and [undefined]): primitives are
    compared by value, and two parsed objects or arrays are never the same
    reference. *)
Definition strict_eq (a b : jsval) : bool :=
  match a, b with
  | JUndefined, JUndefined => true
  | JNull, JNull => true
  | JBool x, JBool y => Bool.eqb x y
  | JNum x, JNum y => x =? y
  | JStr x, JStr y => String.eqb x y
  | _, _ => false
  end.

(** [s.split(sep)] for a one-character separator. *)
Fixpoint split (sep : ascii) (s : string) : list string :=
  match s with
  | EmptyString => [EmptyString]
  | String c rest =>
      if Ascii.eqb c sep then EmptyString :: split sep rest
      else match split sep rest with
           | [] => [String c EmptyString]
           | w :: ws => String c w :: ws
           end
  end.

(** [s.startsWith(p)] *)
Fixpoint startsWith (p s : string) : bool :=
  match p, s with
  | EmptyString, _ => true
  | String a p', String b s' => Ascii.eqb a b && startsWith p' s'
  | String _ _, EmptyString => false
  end.

(** [s.includes(p)] *)
Fixpoint includes (p s : string) : bool :=
  startsWith p s ||
  match s with
  | EmptyString => false
  | String _ s' => includes p s'
  end.

(** The character [c] occurs in [s]. *)
Fixpoint has_char (c : ascii) (s : string) : bool :=
  match s with
  | EmptyString => false
  | String a rest => Ascii.eqb a c || has_char c rest
  end.

(** [JSON.parse(JSON.stringify(v))]: a property whose value is [undefined]
    is omitted, an [undefined] array element becomes [null]; every other
    value of the model is written and read back as it is. *)
Fixpoint json_roundtrip (v : jsval) : jsval :=
  match v with
  | JArr items =>
      JArr (map (fun x => match x with
                          | JUndefined => JNull
                          | _ => json_roundtrip x
                          end) items)
  | JObj fs =>
      JObj (omap (fun kv : string * jsval =>
                    let (k, x) := kv in
                    match x with
                    | JUndefined => None
                    | _ => Some (k, json_roundtrip x)
                    end) fs)
  | _ => v
  end.

(** JSON data: a value with no [undefined] in it, which is what
    [JSON.stringify] writes in full. *)
Fixpoint json_clean (v : jsval) : bool :=
  match v with
  | JUndefined => false
  | JArr items => forallb json_clean items
  | JObj fs => forallb (fun kv : string * jsval => let (_, x) := kv in json_clean x) fs
  | _ => true
  end.

(** [Object.fromEntries(map)] *)
Definition fromEntries (m : gmap string jsval) : jsval := JObj (map_to_list m).

(** [new Map(entries)]: a later entry overwrites an earlier one. *)
Definition new_Map (entries : list (string * jsval)) : gmap string jsval :=
  foldl (fun m kv => <[kv.1 := kv.2]> m) ∅ entries.

(** A default parameter [(x = d)]: [d] replaces an omitted or [undefined]
    argument. *)
Definition param_default (d arg : jsval) : jsval :=
  match arg with
  | JUndefined => d
  | _ => arg
  end.

(** [String(v)] and the conversion of [`${v}`]. *)
Fixpoint to_String (v : jsval) : string :=
  match v with
  | JUndefined => "undefined"
  | JNull => "null"
  | JBool true => "true"
  | JBool false => "false"
  | JNum z => pretty z
  | JStr s => s
  | JArr items =>
      String.concat ","
        (map (fun x => match x with
                       | JUndefined | JNull => ""
                       | _ => to_String x
                       end) items)
  | JObj _ => "[object Object]"
  end.

(** A [Set] in insertion order. *)
Definition set_add (x : string) (s : list string) : list string :=
  if bool_decide (x ∈ s) then s else s ++ [x].

Definition set_has (x : string) (s : list string) : bool := bool_decide (x ∈ s).

End Js.

(** ** Widget identities ([KeyService.registerKeys], [KeyService.executeRender]) *)

Module KeyId.

Definition dash : ascii := "-"%char.

(** [`${serialNumber}-${key.uid}`] *)
Definition encode (serialNumber keyUid : string) : string :=
  serialNumber +:+ "-" +:+ keyUid.

(** [const [serialNumber, keyUid] = keyId.split('-')]: a missing component
    destructures to [undefined], here [None]. *)
Definition decode (keyId : string) : option string * option string :=
  let parts := Js.split dash keyId in
  (parts !! 0%nat, parts !! 1%nat).

End KeyId.

(** ** The state store ([src/services/StateManager.js]) *)

Module StateManager.
Import Js.

Record options := {
  autoSaveInterval : Z;
  maxCacheAge : Z
}.

Definition default_options : options :=
  {| autoSaveInterval := 30000; maxCacheAge := 300000 |}.

(** [this.state] and the persistence flags.  [keys], [connections],
    [preferences] and [cache] are the four [Map]s; [metadata] is the object
    [{ lastSave, version, created }].  The [Map]s are keyed by strings: a key
    of another type, which a [Map] keeps apart from its string and which only
    the save turns into a string, is outside this model. *)
Record state := {
  opts : options;
  keys : gmap string jsval;
  connections : gmap string jsval;
  preferences : gmap string jsval;
  cache : gmap string jsval;
  metadata : jsval;
  isDirty : bool;
  isInitialized : bool
}.

(** Field assignments [this.state.keys = ...], [this.isDirty = ...]. *)
Definition with_keys (v : gmap string jsval) (st : state) : state :=
  Build_state (opts st) v (connections st) (preferences st) (cache st)
              (metadata st) (isDirty st) (isInitialized st).
Definition with_connections (v : gmap string jsval) (st : state) : state :=
  Build_state (opts st) (keys st) v (preferences st) (cache st)
              (metadata st) (isDirty st) (isInitialized st).
Definition with_preferences (v : gmap string jsval) (st : state) : state :=
  Build_state (opts st) (keys st) (connections st) v (cache st)
              (metadata st) (isDirty st) (isInitialized st).
Definition with_cache (v : gmap string jsval) (st : state) : state :=
  Build_state (opts st) (keys st) (connections st) (preferences st) v
              (metadata st) (isDirty st) (isInitialized st).
Definition with_metadata (v : jsval) (st : state) : state :=
  Build_state (opts st) (keys st) (connections st) (preferences st) (cache st)
              v (isDirty st) (isInitialized st).
Definition with_isDirty (v : bool) (st : state) : state :=
  Build_state (opts st) (keys st) (connections st) (preferences st) (cache st)
              (metadata st) v (isInitialized st).

(** The constructor, run at time [now]. *)
Definition create (o : options) (now : Z) : state :=
  {| opts := o;
     keys := ∅; connections := ∅; preferences := ∅; cache := ∅;
     metadata := JObj [("lastSave", JNull); ("version", JStr "1.0.0"); ("created", JNum now)];
     isDirty := false;
     isInitialized := false |}.

Definition markDirty (st : state) : state := with_isDirty true st.

(** The persistence file: [None] when it does not exist ([ENOENT]),
    otherwise the document that [JSON.parse] reads from it (a file that
    cannot be read or parsed makes [loadState] throw and is not part of the
    model). *)
Definition file := option jsval.

(** [saveState()].  [io_ok] tells whether [mkdir]/[writeFile]/[rename]
    succeed; when they throw, neither the file nor the state changes and the
    error is rethrown ([false] in the third component). *)
Definition saveState (st : state) (f : file) (now : Z) (io_ok : bool)
  : state * file * bool :=
  if negb (isDirty st) then (st, f, true)
  else
    let serializable :=
      JObj [("keys", fromEntries (keys st));
            ("connections", fromEntries (connections st));
            ("preferences", fromEntries (preferences st));
            ("cache", fromEntries (cache st));
            ("metadata",
             JObj (spread (own_fields (metadata st)) [("lastSave", JNum now)]))] in
    if io_ok then
      (with_metadata (set (metadata st) "lastSave" (JNum now)) (with_isDirty false st),
       Some (json_roundtrip serializable), true)
    else (st, f, false).

(** The filter of [loadState] on one saved cache entry that is not [null]:
    [value.timestamp && (now - value.timestamp) < maxCacheAge].
    [setCache] is the only writer of cache entries and stores a number. *)
Definition cache_entry_valid (o : options) (now : Z) (value : jsval) : bool :=
  match get value "timestamp" with
  | JNum t => negb (t =? 0) && (now - t <? maxCacheAge o)
  | _ => false
  end.

(** [loadState()] at time [now]: the state it leaves.  It throws when the
    document is [null] (at [savedState.metadata]) and when a saved cache entry
    is [null] (at [value.timestamp], in the filter); the maps assigned before
    the throw stay assigned. *)
Definition loadState (st : state) (f : file) (now : Z) : state :=
  match f with
  | None => st
  | Some savedState =>
      if truthy (get savedState "metadata")
         && truthy (get (get savedState "metadata") "version")
      then
        let st1 :=
          if truthy (get savedState "keys")
          then with_keys (new_Map (own_fields (get savedState "keys"))) st
          else st in
        let st2 :=
          if truthy (get savedState "connections")
          then with_connections (new_Map (own_fields (get savedState "connections"))) st1
          else st1 in
        let st3 :=
          if truthy (get savedState "preferences")
          then with_preferences (new_Map (own_fields (get savedState "preferences"))) st2
          else st2 in
        if truthy (get savedState "cache")
           && existsb (fun kv : string * jsval => nullish kv.2)
                      (own_fields (get savedState "cache"))
        then st3
        else
          let st4 :=
            if truthy (get savedState "cache")
            then
              let validCache :=
                List.filter (fun kv : string * jsval => cache_entry_valid (opts st) now kv.2)
                            (own_fields (get savedState "cache")) in
              with_cache (new_Map validCache) st3
            else st3 in
          with_metadata
            (JObj (spread (own_fields (metadata st4))
                          (own_fields (get savedState "metadata")))) st4
      else st
  end.

(** Whether [loadState()] throws (a missing file is not an error). *)
Definition loadState_throws (f : file) : bool :=
  match f with
  | None => false
  | Some savedState =>
      nullish savedState
      || (truthy (get savedState "metadata")
          && truthy (get (get savedState "metadata") "version")
          && truthy (get savedState "cache")
          && existsb (fun kv : string * jsval => nullish kv.2)
                     (own_fields (get savedState "cache")))
  end.

(** [updateKeyState(keyUid, data)] *)
Definition updateKeyState (st : state) (keyUid : string) (data : jsval) (now : Z) : state :=
  let currentState := js_or (map_get (keys st) keyUid) (JObj []) in
  let newState :=
    JObj (spread (spread (own_fields currentState) (own_fields data))
                 [("lastUpdate", JNum now)]) in
  markDirty (with_keys (<[keyUid := newState]> (keys st)) st).

(** [getKeyState(keyUid)] *)
Definition getKeyState (st : state) (keyUid : string) : jsval :=
  js_or (map_get (keys st) keyUid) JNull.

(** [setPreference(key, value)] *)
Definition setPreference (st : state) (key : string) (value : jsval) : state :=
  markDirty (with_preferences (<[key := value]> (preferences st)) st).

(** [getPreference(key, defaultValue = null)] *)
Definition getPreference (st : state) (key : string) (arg : jsval) : jsval :=
  let defaultValue := param_default JNull arg in
  js_or (map_get (preferences st) key) defaultValue.

(** [removePreference(key)] *)
Definition removePreference (st : state) (key : string) : state * bool :=
  match preferences st !! key with
  | Some _ => (markDirty (with_preferences (delete key (preferences st)) st), true)
  | None => (st, false)
  end.

(** [setCache(key, data, ttl = null)]; a [ttl] is a number of
    milliseconds. *)
Definition setCache (st : state) (key : string) (data : jsval) (ttl : jsval) (now : Z) : state :=
  let ttl := param_default JNull ttl in
  let timestamp := now in
  let expiry :=
    if truthy ttl
    then match ttl with JNum d => JNum (timestamp + d) | _ => JNull end
    else JNull in
  markDirty
    (with_cache (<[key := JObj [("data", data); ("timestamp", JNum timestamp);
                                ("expiry", expiry)]]> (cache st)) st).

(** [entry.expiry && now > entry.expiry] *)
Definition entry_expired (now : Z) (entry : jsval) : bool :=
  match get entry "expiry" with
  | JNum e => negb (e =? 0) && (e <? now)
  | _ => false
  end.

(** [getCache(key)] at time [now]: an expired entry is deleted on read. *)
Definition getCache (st : state) (key : string) (now : Z) : state * jsval :=
  let entry := map_get (cache st) key in
  if negb (truthy entry) then (st, JNull)
  else if entry_expired now entry
  then (markDirty (with_cache (delete key (cache st)) st), JNull)
  else (st, get entry "data").

(** The stored values are JSON data, and the metadata carry a version: what
    the constructor, [updateKeyState], [setCache] and a previous [loadState]
    establish when the values they are given are JSON data. *)
Definition json_state (st : state) : Prop :=
  map_Forall (fun _ v => json_clean v = true) (keys st) /\
  map_Forall (fun _ v => json_clean v = true) (connections st) /\
  map_Forall (fun _ v => json_clean v = true) (preferences st) /\
  map_Forall (fun _ v => json_clean v = true) (cache st) /\
  json_clean (metadata st) = true /\
  truthy (get (metadata st) "version") = true.

(** [saveState()] at [t_save] into a directory without a state file, then
    [loadState()] at [t_load] by the manager [fresh]. *)
Definition save_then_load (st fresh : state) (t_save t_load : Z) : state :=
  loadState fresh (saveState st None t_save true).1.2 t_load.

(** *** The rest of the store *)

(** The stored value is an object, as every value that [updateKeyState] and
    [updateConnectionState] store is. *)
Definition is_object (v : jsval) : bool :=
  match v with
  | JObj _ => true
  | _ => false
  end.

Definition with_isInitialized (v : bool) (st : state) : state :=
  Build_state (opts st) (keys st) (connections st) (preferences st) (cache st)
              (metadata st) (isDirty st) v.

(** [removeKeyState(keyUid)] *)
Definition removeKeyState (st : state) (keyUid : string) : state * bool :=
  match keys st !! keyUid with
  | Some _ => (markDirty (with_keys (delete keyUid (keys st)) st), true)
  | None => (st, false)
  end.

(** [updateConnectionState(service, connectionData)] *)
Definition updateConnectionState (st : state) (service : string) (connectionData : jsval)
    (now : Z) : state :=
  let currentState := js_or (map_get (connections st) service) (JObj []) in
  let newState :=
    JObj (spread (spread (own_fields currentState) (own_fields connectionData))
                 [("lastUpdate", JNum now)]) in
  markDirty (with_connections (<[service := newState]> (connections st)) st).

(** [getConnectionState(service)] *)
Definition getConnectionState (st : state) (service : string) : jsval :=
  js_or (map_get (connections st) service) JNull.

(** [removeCache(key)] *)
Definition removeCache (st : state) (key : string) : state * bool :=
  match cache st !! key with
  | Some _ => (markDirty (with_cache (delete key (cache st)) st), true)
  | None => (st, false)
  end.

(** [m.forEach((entry, key) => { if (p(entry)) { m.delete(key); n++; } })]:
    the map left and the number of deletions. *)
Definition sweep (p : jsval -> bool) (m : gmap string jsval) : gmap string jsval * nat :=
  map_fold (fun key entry (acc : gmap string jsval * nat) =>
              if p entry then (delete key acc.1, S acc.2) else acc)
           (m, 0%nat) m.

(** [clearExpiredCache()] at time [now], with the number it returns. *)
Definition clearExpiredCache (st : state) (now : Z) : state * nat :=
  let '(cache', removed) := sweep (entry_expired now) (cache st) in
  let st := with_cache cache' st in
  (if (0 <? removed)%nat then markDirty st else st, removed).

(** [clearAllCache()] *)
Definition clearAllCache (st : state) : state * nat :=
  let size := size (cache st) in
  let st := with_cache ∅ st in
  (if (0 <? size)%nat then markDirty st else st, size).

(** The test of [cleanup] on a key or connection state:
    [s.lastUpdate && s.lastUpdate < dayAgo && !s[flag]], where [flag] is
    ['active'] for keys and ['connected'] for connections.  [lastUpdate] is
    the number that [updateKeyState] and [updateConnectionState] store. *)
Definition stale (dayAgo : Z) (flag : string) (s : jsval) : bool :=
  match get s "lastUpdate" with
  | JNum t => negb (t =? 0) && (t <? dayAgo) && negb (truthy (get s flag))
  | _ => false
  end.

(** [cleanup()] at time [now], with the number it returns. *)
Definition cleanup (st : state) (now : Z) : state * nat :=
  let '(st, expired) := clearExpiredCache st now in
  let dayAgo := now - 24 * 60 * 60 * 1000 in
  let '(keys', oldKeys) := sweep (stale dayAgo "active") (keys st) in
  let st := with_keys keys' st in
  let '(connections', oldConnections) := sweep (stale dayAgo "connected") (connections st) in
  let st := with_connections connections' st in
  let cleaned := (expired + oldKeys + oldConnections)%nat in
  (if (0 <? cleaned)%nat then markDirty st else st, cleaned).

(** [reset()] at time [now]. *)
Definition reset (st : state) (f : file) (now : Z) (io_ok : bool) : state * file * bool :=
  let st := with_cache ∅ (with_preferences ∅ (with_connections ∅ (with_keys ∅ st))) in
  let st :=
    with_metadata
      (JObj [("lastSave", JNull); ("version", JStr "1.0.0"); ("created", JNum now)]) st in
  saveState (markDirty st) f now io_ok.

(** [shutdown()] at time [now]: a failing final save is logged, not
    rethrown. *)
Definition shutdown (st : state) (f : file) (now : Z) (io_ok : bool) : state * file :=
  let '(st, f, _) := saveState st f now io_ok in
  let st := with_cache ∅ (with_preferences ∅ (with_connections ∅ (with_keys ∅ st))) in
  (with_isDirty false (with_isInitialized false st), f).

End StateManager.

(** ** The poller supervisor and connection monitor ([src/services/LoLDataService.js]) *)

Module LoLDataService.
Import Js.

Record endpoint_config := {
  endpoint : string;
  interval : Z;
  type : string;
  suppressErrors : bool
}.

Record options := {
  reconnectDelay : Z;
  maxReconnectAttempts : Z;
  processMonitorFrequency : Z;
  endpointConfig : list endpoint_config
}.

Definition gameflow_endpoint : endpoint_config :=
  {| endpoint := "/lol-gameflow/v1/gameflow-phase"; interval := 2000;
     type := "gameflow"; suppressErrors := false |}.

Definition default_options : options :=
  {| reconnectDelay := 2000;
     maxReconnectAttempts := 5;
     processMonitorFrequency := 3000;
     endpointConfig :=
       [ {| endpoint := "/lol-summoner/v1/current-summoner"; interval := 5000;
            type := "summoner"; suppressErrors := false |};
         gameflow_endpoint;
         {| endpoint := "/lol-champ-select/v1/session"; interval := 1000;
            type := "champselect"; suppressErrors := true |};
         {| endpoint := "/lol-ranked/v1/current-ranked-stats"; interval := 5000;
            type := "ranked"; suppressErrors := false |};
         {| endpoint := "/lol-inventory/v1/wallet"; interval := 10000;
            type := "wallet"; suppressErrors := true |} ] |}.

(** What the service emits. *)
Inductive event :=
  | ConnectionChanged (connected : bool) (reason : string) (timestamp : Z)
  | DataUpdated (type endpoint : string) (data : jsval) (timestamp : Z) (previousData : jsval)
  | GameStateChanged (phase previous : jsval) (timestamp : Z)
  | ErrorEvent (message code endpoint : string).

(** The authenticated client handle built by [setupAxiosClient]. *)
Record client := {
  port : string;
  password : string;
  protocol : string
}.

(** The instance fields, followed by what the runtime holds for it:
    [intervals] are the live [setInterval] poll timers by handle, [inflight]
    the polls that passed the guard and await their HTTP response,
    [timeouts] the pending [setTimeout(() => this.handleReconnection(), ...)]
    calls with their due times, [emitted] the events emitted so far. *)
Record state := {
  opts : options;
  isConnected : bool;
  isInitialized : bool;
  connectionAttempts : Z;
  axios : option client;
  version : option string;
  processMonitor : bool;
  endpointPollers : gmap string nat;
  lastKnownGameState : jsval;
  dataCache : gmap string (jsval * Z);
  intervals : gmap nat endpoint_config;
  inflight : list endpoint_config;
  timeouts : list (nat * Z);
  nextTimer : nat;
  emitted : list event
}.

Definition with_isConnected (v : bool) (st : state) : state :=
  Build_state (opts st) v (isInitialized st) (connectionAttempts st) (axios st)
    (version st) (processMonitor st) (endpointPollers st) (lastKnownGameState st)
    (dataCache st) (intervals st) (inflight st) (timeouts st) (nextTimer st)
    (emitted st).
Definition with_connectionAttempts (v : Z) (st : state) : state :=
  Build_state (opts st) (isConnected st) (isInitialized st) v (axios st) (version st)
    (processMonitor st) (endpointPollers st) (lastKnownGameState st) (dataCache st)
    (intervals st) (inflight st) (timeouts st) (nextTimer st) (emitted st).
Definition with_axios (v : option client) (st : state) : state :=
  Build_state (opts st) (isConnected st) (isInitialized st) (connectionAttempts st) v
    (version st) (processMonitor st) (endpointPollers st) (lastKnownGameState st)
    (dataCache st) (intervals st) (inflight st) (timeouts st) (nextTimer st)
    (emitted st).
Definition with_version (v : option string) (st : state) : state :=
  Build_state (opts st) (isConnected st) (isInitialized st) (connectionAttempts st)
    (axios st) v (processMonitor st) (endpointPollers st) (lastKnownGameState st)
    (dataCache st) (intervals st) (inflight st) (timeouts st) (nextTimer st)
    (emitted st).
Definition with_endpointPollers (v : gmap string nat) (st : state) : state :=
  Build_state (opts st) (isConnected st) (isInitialized st) (connectionAttempts st)
    (axios st) (version st) (processMonitor st) v (lastKnownGameState st) (dataCache st)
    (intervals st) (inflight st) (timeouts st) (nextTimer st) (emitted st).
Definition with_lastKnownGameState (v : jsval) (st : state) : state :=
  Build_state (opts st) (isConnected st) (isInitialized st) (connectionAttempts st)
    (axios st) (version st) (processMonitor st) (endpointPollers st) v (dataCache st)
    (intervals st) (inflight st) (timeouts st) (nextTimer st) (emitted st).
Definition with_dataCache (v : gmap string (jsval * Z)) (st : state) : state :=
  Build_state (opts st) (isConnected st) (isInitialized st) (connectionAttempts st)
    (axios st) (version st) (processMonitor st) (endpointPollers st)
    (lastKnownGameState st) v (intervals st) (inflight st) (timeouts st) (nextTimer st)
    (emitted st).
Definition with_intervals (v : gmap nat endpoint_config) (st : state) : state :=
  Build_state (opts st) (isConnected st) (isInitialized st) (connectionAttempts st)
    (axios st) (version st) (processMonitor st) (endpointPollers st)
    (lastKnownGameState st) (dataCache st) v (inflight st) (timeouts st) (nextTimer st)
    (emitted st).
Definition with_inflight (v : list endpoint_config) (st : state) : state :=
  Build_state (opts st) (isConnected st) (isInitialized st) (connectionAttempts st)
    (axios st) (version st) (processMonitor st) (endpointPollers st)
    (lastKnownGameState st) (dataCache st) (intervals st) v (timeouts st) (nextTimer st)
    (emitted st).
Definition with_timeouts (v : list (nat * Z)) (st : state) : state :=
  Build_state (opts st) (isConnected st) (isInitialized st) (connectionAttempts st)
    (axios st) (version st) (processMonitor st) (endpointPollers st)
    (lastKnownGameState st) (dataCache st) (intervals st) (inflight st) v (nextTimer st)
    (emitted st).
Definition with_nextTimer (v : nat) (st : state) : state :=
  Build_state (opts st) (isConnected st) (isInitialized st) (connectionAttempts st)
    (axios st) (version st) (processMonitor st) (endpointPollers st)
    (lastKnownGameState st) (dataCache st) (intervals st) (inflight st) (timeouts st) v
    (emitted st).
Definition with_emitted (v : list event) (st : state) : state :=
  Build_state (opts st) (isConnected st) (isInitialized st) (connectionAttempts st)
    (axios st) (version st) (processMonitor st) (endpointPollers st)
    (lastKnownGameState st) (dataCache st) (intervals st) (inflight st) (timeouts st)
    (nextTimer st) v.

Definition emit (e : event) (st : state) : state := with_emitted (emitted st ++ [e]) st.

(** The constructor. *)
Definition create (o : options) : state :=
  {| opts := o; isConnected := false; isInitialized := false;
     connectionAttempts := 0; axios := None; version := None;
     processMonitor := false; endpointPollers := ∅;
     lastKnownGameState := JNull; dataCache := ∅;
     intervals := ∅; inflight := []; timeouts := []; nextTimer := 0%nat;
     emitted := [] |}.

(** [setConnectionState(connected, reason)] *)
Definition setConnectionState (st : state) (connected : bool) (reason : string) (now : Z)
  : state :=
  let wasConnected := isConnected st in
  let st := with_isConnected connected st in
  if negb (Bool.eqb wasConnected connected)
  then emit (ConnectionChanged connected reason now) st
  else st.

(** [resetConnectionDetails()] *)
Definition resetConnectionDetails (st : state) : state := with_axios None st.

(** [stopEndpointPolling()]: [clearInterval] on every registered poller,
    then [endpointPollers.clear()]. *)
Definition stopEndpointPolling (st : state) : state :=
  let live :=
    map_fold (fun (_ : string) (poller : nat) acc => delete poller acc)
             (intervals st) (endpointPollers st) in
  with_endpointPollers ∅ (with_intervals live st).

(** [handleEndpointPoll(config)] up to its [await]: the guard, then the GET
    request is in flight. *)
Definition handleEndpointPoll (st : state) (config : endpoint_config) : state :=
  if negb (isConnected st) || negb (bool_decide (is_Some (axios st))) then st
  else with_inflight (inflight st ++ [config]) st.

(** [handleGameStateChange(currentState, previousState)] *)
Definition handleGameStateChange (st : state) (currentState previousState : jsval) (now : Z)
  : state :=
  if negb (strict_eq currentState previousState)
  then emit (GameStateChanged currentState previousState now)
            (with_lastKnownGameState currentState st)
  else st.

(** The answer to a poll in flight. *)
Inductive poll_result :=
  | PollOk (data : jsval)
  | PollFailed (message : string).

(** [handleEndpointPoll(config)] after its [await], at time [now]. *)
Definition handleEndpointPoll_resume (st : state) (config : endpoint_config)
    (r : poll_result) (now : Z) : state :=
  match r with
  | PollOk data =>
      let timestamp := now in
      let cacheKey := type config in
      let previousData := dataCache st !! cacheKey in
      let prev := from_option fst JUndefined previousData in
      let st := with_dataCache (<[cacheKey := (data, timestamp)]> (dataCache st)) st in
      let st := emit (DataUpdated (type config) (endpoint config) data timestamp prev) st in
      if String.eqb (type config) "gameflow"
      then handleGameStateChange st data prev now
      else st
  | PollFailed message =>
      if negb (suppressErrors config)
      then emit (ErrorEvent ("Failed to poll " +:+ endpoint config +:+ ": " +:+ message)
                            "POLLING_ERROR" (endpoint config)) st
      else st
  end.

(** The response of the [i]-th poll in flight arrives. *)
Definition poll_completes (st : state) (i : nat) (r : poll_result) (now : Z) : state :=
  match inflight st !! i with
  | Some config =>
      handleEndpointPoll_resume (with_inflight (delete i (inflight st)) st) config r now
  | None => st
  end.

(** One whole poll whose request succeeds without anything happening between
    the request and the response. *)
Definition poll_once (st : state) (config : endpoint_config) (data : jsval) (now : Z)
  : state :=
  if negb (isConnected st) || negb (bool_decide (is_Some (axios st))) then st
  else poll_completes (handleEndpointPoll st config) (length (inflight st)) (PollOk data) now.

(** The body of the [forEach] in [startEndpointPolling()]. *)
Definition startPoller (st : state) (config : endpoint_config) : state :=
  let poller := nextTimer st in
  let st := with_nextTimer (S poller) (with_intervals (<[poller := config]> (intervals st)) st) in
  let st := with_endpointPollers (<[endpoint config := poller]> (endpointPollers st)) st in
  handleEndpointPoll st config.

(** [startEndpointPolling()] *)
Definition startEndpointPolling (st : state) : state :=
  foldl startPoller st (endpointConfig (opts st)).

(** How the discovery, validation and version lookup of one
    [attemptConnection()] end. *)
Inductive connect_outcome :=
  | DiscoveryFailed (message : string)
  | ValidationFailed (c : client)
  | Established (c : client) (v : string).

(** [attemptConnection()], completing at time [now]; the second component
    tells whether it threw. *)
Definition attemptConnection (st : state) (o : connect_outcome) (now : Z) : state * bool :=
  match o with
  | Established c v =>
      let st := with_version (Some v) (with_axios (Some c) st) in
      let st := setConnectionState st true "Connected successfully" now in
      let st := startEndpointPolling st in
      (with_connectionAttempts 0 st, false)
  | ValidationFailed c =>
      let st := with_axios (Some c) st in
      (setConnectionState st false "Connection validation failed" now, true)
  | DiscoveryFailed message =>
      (setConnectionState st false message now, true)
  end.

(** [handleReconnection()] up to the reconnection delay: [None] when the
    attempt limit returns at once, else the state with the attempt counted and
    the delay to wait before connecting. *)
Definition handleReconnection_begin (st : state) : option (state * Z) :=
  if maxReconnectAttempts (opts st) <=? connectionAttempts st then None
  else
    let st := with_connectionAttempts (connectionAttempts st + 1) st in
    let delay :=
      if 1 <? connectionAttempts st
      then reconnectDelay (opts st) * connectionAttempts st
      else 0 in
    Some (st, delay).

(** [handleReconnection()] after the delay: the attempt and the [catch]. *)
Definition handleReconnection_resume (st : state) (o : connect_outcome) (now : Z) : state :=
  let '(st, threw) := attemptConnection st o now in
  if threw && (connectionAttempts st <? maxReconnectAttempts (opts st))
  then
    let id := nextTimer st in
    with_nextTimer (S id)
      (with_timeouts (timeouts st ++ [(id, now + reconnectDelay (opts st))]) st)
  else st.

(** [handleReconnection()], with [now] the time at which its connection
    attempt completes. *)
Definition handleReconnection (st : state) (o : connect_outcome) (now : Z) : state :=
  match handleReconnection_begin st with
  | None => st
  | Some (st, _) => handleReconnection_resume st o now
  end.

(** [handleDisconnection()] *)
Definition handleDisconnection (st : state) (now : Z) : state :=
  let st := setConnectionState st false "League process stopped" now in
  let st := stopEndpointPolling st in
  resetConnectionDetails st.

(** [handleProcessCheck()]: [isRunning] is the answer of
    [isLeagueProcessRunning()], [o] the outcome of the connection attempt this
    check makes, if it makes one. *)
Definition handleProcessCheck (st : state) (isRunning : bool) (o : connect_outcome) (now : Z)
  : state :=
  if isRunning && negb (isConnected st) then handleReconnection st o now
  else if negb isRunning && isConnected st then handleDisconnection st now
  else st.

(** [forceReconnect()] *)
Definition forceReconnect (st : state) (o : connect_outcome) (now : Z) : state :=
  let st := if isConnected st then handleDisconnection st now else st in
  let st := with_connectionAttempts 0 st in
  handleReconnection st o now.

(** A pending [setTimeout(() => this.handleReconnection(), reconnectDelay)]
    fires. *)
Definition retry_fires (st : state) (id : nat) (o : connect_outcome) (now : Z) : state :=
  if bool_decide (id ∈ (timeouts st).*1)
  then handleReconnection
         (with_timeouts (List.filter (fun t : nat * Z => negb (Nat.eqb t.1 id)) (timeouts st)) st)
         o now
  else st.

(** A sequence of connection-state reports, each [(connected, reason, now)],
    handed to [setConnectionState] one after the other. *)
Definition report_all (st : state) (reports : list (bool * string * Z)) : state :=
  foldl (fun st r => setConnectionState st r.1.1 r.1.2 r.2) st reports.

(** A sequence of successful polls of one endpoint, each [(data, now)]. *)
Definition poll_all (st : state) (config : endpoint_config) (polls : list (jsval * Z))
  : state :=
  foldl (fun st p => poll_once st config p.1 p.2) st polls.

Definition is_connectionChanged (e : event) : bool :=
  match e with
  | ConnectionChanged _ _ _ => true
  | _ => false
  end.

Definition is_gameStateChanged (e : event) : bool :=
  match e with
  | GameStateChanged _ _ _ => true
  | _ => false
  end.

(** The reports that change the connected flag, as events: one for each
    report that differs from the flag left by the reports before it. *)
Fixpoint actual_changes (connected : bool) (reports : list (bool * string * Z)) : list event :=
  match reports with
  | [] => []
  | (c, reason, now) :: rest =>
      (if Bool.eqb connected c then [] else [ConnectionChanged c reason now])
      ++ actual_changes c rest
  end.

(** The polls whose phase differs from the phase before them, as events;
    [previous] is the phase cached before the first poll, [undefined] when
    nothing is cached. *)
Fixpoint phase_changes (previous : jsval) (polls : list (jsval * Z)) : list event :=
  match polls with
  | [] => []
  | (data, now) :: rest =>
      (if strict_eq data previous then [] else [GameStateChanged data previous now])
      ++ phase_changes data rest
  end.

(** Every live poll timer is one that [endpointPollers] holds the handle
    of. *)
Definition polls_registered (st : state) : Prop :=
  forall id config, intervals st !! id = Some config ->
    exists ep, endpointPollers st !! ep = Some id.

(** The payload cached for a logical type, [undefined] when there is none
    ([previousData?.data]). *)
Definition cached (st : state) (type : string) : jsval :=
  from_option fst JUndefined (dataCache st !! type).

(** *** The rest of the service *)

Definition with_isInitialized (v : bool) (st : state) : state :=
  Build_state (opts st) (isConnected st) v (connectionAttempts st) (axios st) (version st)
    (processMonitor st) (endpointPollers st) (lastKnownGameState st) (dataCache st)
    (intervals st) (inflight st) (timeouts st) (nextTimer st) (emitted st).
Definition with_processMonitor (v : bool) (st : state) : state :=
  Build_state (opts st) (isConnected st) (isInitialized st) (connectionAttempts st)
    (axios st) (version st) v (endpointPollers st) (lastKnownGameState st) (dataCache st)
    (intervals st) (inflight st) (timeouts st) (nextTimer st) (emitted st).

(** [startProcessMonitoring()]: the flag tells whether the monitor's
    [setInterval] timer is set. *)
Definition startProcessMonitoring (st : state) : state :=
  if processMonitor st then st else with_processMonitor true st.

(** [initialize()], with [o] the outcome of the connection attempt it makes
    and [now] the time at which the attempt completes. *)
Definition initialize (st : state) (o : connect_outcome) (now : Z) : state :=
  if isInitialized st then st
  else
    let st := startProcessMonitoring st in
    let '(st, _) := attemptConnection st o now in
    with_isInitialized true st.

(** [getCachedData(type)] *)
Definition getCachedData (st : state) (type : string) : jsval :=
  match dataCache st !! type with
  | Some cached => cached.1
  | None => JNull
  end.

(** [shutdown()] *)
Definition shutdown (st : state) (now : Z) : state :=
  let st := if processMonitor st then with_processMonitor false st else st in
  let st := stopEndpointPolling st in
  let st := with_dataCache ∅ st in
  let st := setConnectionState st false "Service shutdown" now in
  let st := resetConnectionDetails st in
  with_isInitialized false st.

(** What can happen to a service: a call of its interface, or one of the
    callbacks it has registered with the runtime being run. *)
Inductive action :=
  | Initialize (o : connect_outcome) (now : Z)
  | ProcessCheck (isRunning : bool) (o : connect_outcome) (now : Z)
  | RetryFires (id : nat) (o : connect_outcome) (now : Z)
  | PollFires (poller : nat)
  | PollCompletes (i : nat) (r : poll_result) (now : Z)
  | ForceReconnect (o : connect_outcome) (now : Z)
  | Shutdown (now : Z).

(** The process monitor ticks only while its timer is set, a poll timer only
    while it is live.  Each action runs to completion before the next one
    starts. *)
Definition step (st : state) (a : action) : state :=
  match a with
  | Initialize o now => initialize st o now
  | ProcessCheck isRunning o now =>
      if processMonitor st then handleProcessCheck st isRunning o now else st
  | RetryFires id o now => retry_fires st id o now
  | PollFires poller =>
      match intervals st !! poller with
      | Some config => handleEndpointPoll st config
      | None => st
      end
  | PollCompletes i r now => poll_completes st i r now
  | ForceReconnect o now => forceReconnect st o now
  | Shutdown now => shutdown st now
  end.

Definition run (st : state) (actions : list action) : state := foldl step st actions.

(** The [connected] flags of the [connectionChanged] events among
    [events]. *)
Definition changes (events : list event) : list bool :=
  omap (fun e => match e with
                 | ConnectionChanged connected _ _ => Some connected
                 | _ => None
                 end) events.

(** Each flag of [flags] is the opposite of the one before it, the first
    the opposite of [previous]. *)
Fixpoint alternating (previous : bool) (flags : list bool) : Prop :=
  match flags with
  | [] => True
  | flag :: rest => flag = negb previous /\ alternating flag rest
  end.

Definition is_dataUpdated (e : event) : bool :=
  match e with
  | DataUpdated _ _ _ _ _ => true
  | _ => false
  end.

(** The [dataUpdated] events of a sequence of successful polls of one
    endpoint: one for each, carrying the payload of the poll before it;
    [previous] is the payload cached before the first. *)
Fixpoint data_updates (config : endpoint_config) (previous : jsval) (polls : list (jsval * Z))
  : list event :=
  match polls with
  | [] => []
  | (data, now) :: rest =>
      DataUpdated (type config) (endpoint config) data now previous
      :: data_updates config data rest
  end.

(** What every run of the service keeps: the attempt counter stays within
    its limit (when that is not negative), only configured endpoints are
    polled, cached and reported, and the [connectionChanged] events emitted so
    far alternate, the last of them telling the connected flag. *)
Definition well_formed (st : state) : Prop :=
  (0 <= maxReconnectAttempts (opts st) ->
   0 <= connectionAttempts st <= maxReconnectAttempts (opts st)) /\
  (forall id config, intervals st !! id = Some config -> config ∈ endpointConfig (opts st)) /\
  Forall (fun config => config ∈ endpointConfig (opts st)) (inflight st) /\
  (forall k entry, dataCache st !! k = Some entry ->
     exists config, config ∈ endpointConfig (opts st) /\ type config = k) /\
  (forall ty ep data t prev, DataUpdated ty ep data t prev ∈ emitted st ->
     exists config, config ∈ endpointConfig (opts st) /\
                    type config = ty /\ endpoint config = ep) /\
  alternating false (changes (emitted st)) /\
  default false (last (changes (emitted st))) = isConnected st.

(** *** Concrete runs *)

Definition example_client : client :=
  {| port := "51234"; password := "token"; protocol := "https" |}.

(** The service right after its first successful connection at time 0. *)
Definition connected_at_start : state :=
  (attemptConnection (create default_options) (Established example_client "15.10.1") 0).1.

(** The service after the client process was seen running from time 0 on
    while its credentials could not be discovered: liveness checks at 0 and
    3000 and the retries they set (due 2000 ms after each failure) make the
    five attempts; the retry and the check that come after them return at the
    attempt limit. *)
Definition exhausted : state :=
  let failure := DiscoveryFailed "League client process not found" in
  let st := handleProcessCheck (create default_options) true failure 0 in
  let st := retry_fires st 0 failure 2000 in
  let st := handleProcessCheck st true failure 3000 in
  let st := retry_fires st 1 failure 4000 in
  let st := retry_fires st 2 failure 5000 in
  let st := retry_fires st 3 failure 6000 in
  handleProcessCheck st true failure 6000.

End LoLDataService.

(** ** Connection discovery ([src/services/LoLDataService.js]) *)

Module Discovery.
Import Js.

(** A string given by the code points of its UTF-8 bytes. *)
Definition bytes (l : list nat) : string :=
  foldr (fun n s => String (ascii_of_nat n) s) EmptyString l.

(** The white space and line terminators that [trim] removes: TAB, LF, VT,
    FF, CR, SP, U+00A0, U+1680, U+2000 to U+200A, U+2028, U+2029, U+202F,
    U+205F, U+3000 and U+FEFF. *)
Definition whitespace : list string :=
  map bytes
    [[9]; [10]; [11]; [12]; [13]; [32]; [194; 160]; [225; 154; 128];
     [226; 128; 128]; [226; 128; 129]; [226; 128; 130]; [226; 128; 131];
     [226; 128; 132]; [226; 128; 133]; [226; 128; 134]; [226; 128; 135];
     [226; 128; 136]; [226; 128; 137]; [226; 128; 138];
     [226; 128; 168]; [226; 128; 169]; [226; 128; 175]; [226; 129; 159];
     [227; 128; 128]; [239; 187; 191]]%nat.

(** [s] without the prefix [p], when it starts with it. *)
Fixpoint strip_prefix (p s : string) : option string :=
  match p, s with
  | EmptyString, _ => Some s
  | String a p', String b s' => if Ascii.eqb a b then strip_prefix p' s' else None
  | String _ _, EmptyString => None
  end.

(** [s] without its first character, when that is white space. *)
Definition strip_space (s : string) : option string :=
  foldr (fun w found => match strip_prefix w s with
                        | Some rest => Some rest
                        | None => found
                        end) None whitespace.

Fixpoint trimStart_upto (n : nat) (s : string) : string :=
  match n with
  | O => s
  | S n => match strip_space s with
           | Some rest => trimStart_upto n rest
           | None => s
           end
  end.

(** [s.trimStart()] *)
Definition trimStart (s : string) : string := trimStart_upto (String.length s) s.

(** [s.trimEnd()] *)
Fixpoint trimEnd (s : string) : string :=
  match s with
  | EmptyString => EmptyString
  | String c rest =>
      if String.eqb (trimStart s) "" then EmptyString else String c (trimEnd rest)
  end.

(** [s.trim()] *)
Definition trim (s : string) : string := trimEnd (trimStart s).

(** The longest prefix of [s] made of characters of the class [cls]. *)
Fixpoint take_class (cls : ascii -> bool) (s : string) : string :=
  match s with
  | EmptyString => EmptyString
  | String c rest => if cls c then String c (take_class cls rest) else EmptyString
  end.

(** [s.match(/prefix(cls+)/)]: the capture group of the leftmost match. *)
Fixpoint regex_capture (prefix : string) (cls : ascii -> bool) (s : string) : option string :=
  let here :=
    match strip_prefix prefix s with
    | Some rest =>
        match take_class cls rest with
        | EmptyString => None
        | cap => Some cap
        end
    | None => None
    end in
  match here with
  | Some cap => Some cap
  | None =>
      match s with
      | EmptyString => None
      | String _ rest => regex_capture prefix cls rest
      end
  end.

(** Every character of [s] is of the class [cls]. *)
Fixpoint all_class (cls : ascii -> bool) (s : string) : bool :=
  match s with
  | EmptyString => true
  | String c rest => cls c && all_class cls rest
  end.

(** [\d] *)
Definition digit (c : ascii) : bool :=
  let n := nat_of_ascii c in (48 <=? n)%nat && (n <=? 57)%nat.

(** [[\w-]] *)
Definition word_or_dash (c : ascii) : bool :=
  let n := nat_of_ascii c in
  ((48 <=? n)%nat && (n <=? 57)%nat) || ((65 <=? n)%nat && (n <=? 90)%nat) ||
  ((97 <=? n)%nat && (n <=? 122)%nat) || (n =? 95)%nat || (n =? 45)%nat.

(** What discovery assigns to [this.port], [this.password] and
    [this.protocol]. *)
Record details := {
  port : jsval;
  password : jsval;
  protocol : jsval
}.

(** An element of an array destructuring: [undefined] when missing. *)
Definition element (parts : list string) (i : nat) : jsval :=
  from_option JStr JUndefined (parts !! i).

(** [discoverFromLockfile()]: [readFile] is the content of the lockfile,
    [None] when reading it fails.  The left result is the message of the
    error thrown. *)
Definition discoverFromLockfile (readFile : option string) : string + details :=
  match readFile with
  | None => inl "Lockfile not found or unreadable"
  | Some data =>
      let parts := split ":"%char (trim data) in
      inr {| port := element parts 2;
             password := element parts 3;
             protocol := js_or (element parts 4) (JStr "https") |}
  end.

(** [discoverFromProcessList()]: [exec] is the standard output of the
    process listing, or on the right the message of the error it fails
    with. *)
Definition discoverFromProcessList (exec : string + string) : string + details :=
  match exec with
  | inr message =>
      if includes "League client process" message then inl message
      else inl "League client process not found"
  | inl stdout =>
      if String.eqb stdout "" || String.eqb (trim stdout) ""
      then inl "League client process not found"
      else
        match regex_capture "--app-port=" digit stdout,
              regex_capture "--remoting-auth-token=" word_or_dash stdout with
        | Some portMatch, Some tokenMatch =>
            inr {| port := JStr portMatch; password := JStr tokenMatch;
                   protocol := JStr "https" |}
        | _, _ =>
            inl "League client process found but connection details not available"
        end
  end.

(** [discoverConnection()] *)
Definition discoverConnection (readFile : option string) (exec : string + string)
  : string + details :=
  match discoverFromLockfile readFile with
  | inr found => inr found
  | inl _ => discoverFromProcessList exec
  end.

(** The [baseURL] of [setupAxiosClient()] *)
Definition baseURL (d : details) : string :=
  to_String (protocol d) +:+ "://127.0.0.1:" +:+ to_String (port d).

End Discovery.

(** ** The render throttle and retry engine ([src/services/KeyService.js]) *)

Module KeyService.
Import Js.

Record options := {
  throttleInterval : Z;
  maxRetries : Z;
  retryDelay : Z;
  cleanupDelay : Z
}.

Definition default_options : options :=
  {| throttleInterval := 100; maxRetries := 3; retryDelay := 1000; cleanupDelay := 5000 |}.

(** [keyData.state] *)
Inductive lifecycle := inactive | active | dead | failed.

Global Instance lifecycle_eq_dec : EqDecision lifecycle.
Proof. solve_decision. Defined.

(** An entry of [activeKeys].  [keyUid] is [key.uid], kept as the string it
    is in the widget identity; the callers of [updateKey] pass the same
    [key.uid], and the state store is read and written under it.  (A widget
    registered under a uid of one type and updated under its string, 7 and
    ['7'], is outside this model.) *)
Record key_data := {
  serialNumber : string;
  keyUid : string;
  config : jsval;
  state : lifecycle;
  lastUpdate : option Z;
  retryCount : Z
}.

(** An entry of [renderQueue]; [timeout] is the [setTimeout] handle or
    [null]. *)
Record render_task := {
  keyId : string;
  renderData : jsval;
  timestamp : Z;
  timeout : option nat
}.

(** What a pending [setTimeout] runs: the closure of [queueRender] over its
    render task, or the closure of [handleKeyError] over [keyId] and
    [keyData]. *)
Inductive callback :=
  | RenderCallback (keyId : string) (renderData : jsval)
  | RetryCallback (keyId serialNumber keyUid : string).

Record timer := {
  handle : nat;
  due : Z;
  run : callback
}.

(** One call of [plugin.draw]: [draw(serialNumber, renderData)], or
    [draw(serialNumber, cleanRenderData, 'base64', base64Data)] when [base64]
    is given. *)
Record draw_call := {
  draw_serialNumber : option string;
  draw_renderData : jsval;
  base64 : option string
}.

Inductive draw_result :=
  | DrawOk
  | DrawThrows (message : string).

(** The host's [draw], as a function of the time of the call. *)
Definition plugin_fn := Z -> draw_call -> draw_result.

Inductive event :=
  | KeyRendered (serialNumber keyUid : option string) (timestamp : Z)
  | KeyError (serialNumber keyUid : option string) (message : string) (timestamp : Z)
  | DeviceConnected (serialNumber : string)
  | DeviceDisconnected (serialNumber : string).

(** The instance fields, then the runtime's timer table, the events emitted
    and the draw calls made so far. *)
Record service := {
  opts : options;
  stateManager : StateManager.state;
  activeKeys : gmap string key_data;
  renderQueue : gmap string render_task;
  lastRenderTime : gmap string Z;
  errorCounts : gmap string Z;
  connectedDevices : list string;
  plugin : option plugin_fn;
  timers : list timer;
  nextTimer : nat;
  emitted : list event;
  drawn : list draw_call
}.

Definition with_stateManager (v : StateManager.state) (st : service) : service :=
  Build_service (opts st) v (activeKeys st) (renderQueue st) (lastRenderTime st)
    (errorCounts st) (connectedDevices st) (plugin st) (timers st) (nextTimer st)
    (emitted st) (drawn st).
Definition with_activeKeys (v : gmap string key_data) (st : service) : service :=
  Build_service (opts st) (stateManager st) v (renderQueue st) (lastRenderTime st)
    (errorCounts st) (connectedDevices st) (plugin st) (timers st) (nextTimer st)
    (emitted st) (drawn st).
Definition with_renderQueue (v : gmap string render_task) (st : service) : service :=
  Build_service (opts st) (stateManager st) (activeKeys st) v (lastRenderTime st)
    (errorCounts st) (connectedDevices st) (plugin st) (timers st) (nextTimer st)
    (emitted st) (drawn st).
Definition with_lastRenderTime (v : gmap string Z) (st : service) : service :=
  Build_service (opts st) (stateManager st) (activeKeys st) (renderQueue st) v
    (errorCounts st) (connectedDevices st) (plugin st) (timers st) (nextTimer st)
    (emitted st) (drawn st).
Definition with_errorCounts (v : gmap string Z) (st : service) : service :=
  Build_service (opts st) (stateManager st) (activeKeys st) (renderQueue st)
    (lastRenderTime st) v (connectedDevices st) (plugin st) (timers st) (nextTimer st)
    (emitted st) (drawn st).
Definition with_connectedDevices (v : list string) (st : service) : service :=
  Build_service (opts st) (stateManager st) (activeKeys st) (renderQueue st)
    (lastRenderTime st) (errorCounts st) v (plugin st) (timers st) (nextTimer st)
    (emitted st) (drawn st).
Definition with_plugin (v : option plugin_fn) (st : service) : service :=
  Build_service (opts st) (stateManager st) (activeKeys st) (renderQueue st)
    (lastRenderTime st) (errorCounts st) (connectedDevices st) v (timers st)
    (nextTimer st) (emitted st) (drawn st).
Definition with_timers (v : list timer) (st : service) : service :=
  Build_service (opts st) (stateManager st) (activeKeys st) (renderQueue st)
    (lastRenderTime st) (errorCounts st) (connectedDevices st) (plugin st) v
    (nextTimer st) (emitted st) (drawn st).
Definition with_nextTimer (v : nat) (st : service) : service :=
  Build_service (opts st) (stateManager st) (activeKeys st) (renderQueue st)
    (lastRenderTime st) (errorCounts st) (connectedDevices st) (plugin st) (timers st) v
    (emitted st) (drawn st).
Definition with_emitted (v : list event) (st : service) : service :=
  Build_service (opts st) (stateManager st) (activeKeys st) (renderQueue st)
    (lastRenderTime st) (errorCounts st) (connectedDevices st) (plugin st) (timers st)
    (nextTimer st) v (drawn st).
Definition with_drawn (v : list draw_call) (st : service) : service :=
  Build_service (opts st) (stateManager st) (activeKeys st) (renderQueue st)
    (lastRenderTime st) (errorCounts st) (connectedDevices st) (plugin st) (timers st)
    (nextTimer st) (emitted st) v.

Definition emit (e : event) (st : service) : service := with_emitted (emitted st ++ [e]) st.

(** The constructor (the cleanup interval is the periodic call of
    [performCleanup]). *)
Definition create (o : options) (now : Z) : service :=
  {| opts := o;
     stateManager := StateManager.create StateManager.default_options now;
     activeKeys := ∅; renderQueue := ∅; lastRenderTime := ∅; errorCounts := ∅;
     connectedDevices := [];
     plugin := None;
     timers := []; nextTimer := 0%nat; emitted := []; drawn := [] |}.

(** [setPlugin(pluginInstance)] *)
Definition setPlugin (st : service) (p : plugin_fn) : service := with_plugin (Some p) st.

(** [clearTimeout(h)]; [clearTimeout(null)] does nothing. *)
Definition clearTimeout (h : option nat) (st : service) : service :=
  match h with
  | Some id => with_timers (List.filter (fun t => negb (Nat.eqb (handle t) id)) (timers st)) st
  | None => st
  end.

(** [setTimeout(cb, delay)] at time [now]: the new handle and the state. *)
Definition setTimeout (cb : callback) (delay : Z) (now : Z) (st : service) : nat * service :=
  let id := nextTimer st in
  (id, with_nextTimer (S id)
         (with_timers (timers st ++ [{| handle := id; due := now + delay; run := cb |}]) st)).

(** [isDeviceConnected(serialNumber)] *)
Definition isDeviceConnected (st : service) (serialNumber : string) : bool :=
  set_has serialNumber (connectedDevices st).

(** [isThrottled(keyId)] *)
Definition isThrottled (st : service) (keyId : string) (now : Z) : bool :=
  match lastRenderTime st !! keyId with
  | None => false
  | Some lastRender =>
      if lastRender =? 0 then false
      else now - lastRender <? throttleInterval (opts st)
  end.

(** [getThrottleDelay(keyId)] *)
Definition getThrottleDelay (st : service) (keyId : string) (now : Z) : Z :=
  match lastRenderTime st !! keyId with
  | None => 0
  | Some lastRender =>
      if lastRender =? 0 then 0
      else
        let timeSinceLastRender := now - lastRender in
        let remainingThrottle := throttleInterval (opts st) - timeSinceLastRender in
        Z.max 0 remainingThrottle
  end.

(** [removeKey(keyId)] *)
Definition removeKey (st : service) (keyId : string) : service :=
  let st :=
    match renderQueue st !! keyId with
    | Some task =>
        with_renderQueue (delete keyId (renderQueue st)) (clearTimeout (timeout task) st)
    | None => st
    end in
  let st := with_activeKeys (delete keyId (activeKeys st)) st in
  let st := with_lastRenderTime (delete keyId (lastRenderTime st)) st in
  with_errorCounts (delete keyId (errorCounts st)) st.

(** [handleDeviceDisconnection(serialNumber)] *)
Definition handleDeviceDisconnection (st : service) (serialNumber : string) : service :=
  let keysToRemove :=
    List.filter (fun keyId => startsWith (serialNumber +:+ "-") keyId)
                (map_to_list (activeKeys st)).*1 in
  let st := foldl removeKey st keysToRemove in
  emit (DeviceDisconnected serialNumber) st.

(** The argument of [handleDeviceStatus]: something that is not an array, or
    an array of device objects. *)
Inductive device_report :=
  | NotAnArray
  | DeviceArray (devices : list jsval).

(** The body of the first [forEach] of [handleDeviceStatus] once
    [device.serialNumber] has been read: the pair is [currentDevices] and the
    service. *)
Definition noteSerial (acc : list string * service) (serialNumber : jsval)
  : list string * service :=
  let '(currentDevices, st) := acc in
  if truthy serialNumber then
    let serialNumber := to_String serialNumber in
    (set_add serialNumber currentDevices,
     if negb (set_has serialNumber (connectedDevices st))
     then emit (DeviceConnected serialNumber) st
     else st)
  else (currentDevices, st).

(** The body of the first [forEach] of [handleDeviceStatus].  Reading
    [device.serialNumber] of an entry that is [null] or [undefined] throws a
    TypeError: [None]. *)
Definition noteDevice (acc : list string * service) (device : jsval)
  : option (list string * service) :=
  match device with
  | JUndefined | JNull => None
  | _ => Some (noteSerial acc (get device "serialNumber"))
  end.

(** [devices.forEach(device => ...)]: the entries are visited in order up to
    the first one at which the body throws; the flag tells whether one
    did. *)
Fixpoint noteDevices (acc : list string * service) (devices : list jsval)
  : list string * service * bool :=
  match devices with
  | [] => (acc, false)
  | device :: rest =>
      match noteDevice acc device with
      | Some acc => noteDevices acc rest
      | None => (acc, true)
      end
  end.

(** [handleDeviceStatus(devices)]: the service it leaves.  When the first
    loop throws, the events emitted up to there stay emitted and nothing else
    is done. *)
Definition handleDeviceStatus (st : service) (devices : device_report) : service :=
  let '(currentDevices, st, threw) :=
    match devices with
    | DeviceArray ds => noteDevices ([], st) ds
    | NotAnArray => ([], st, false)
    end in
  if threw then st
  else
    let st :=
      foldl (fun st serialNumber =>
               if negb (set_has serialNumber currentDevices)
               then handleDeviceDisconnection st serialNumber
               else st)
            st (connectedDevices st) in
    with_connectedDevices currentDevices st.

(** Whether [handleDeviceStatus(devices)] throws. *)
Definition handleDeviceStatus_throws (st : service) (devices : device_report) : bool :=
  match devices with
  | DeviceArray ds => (noteDevices ([], st) ds).2
  | NotAnArray => false
  end.

(** Every entry of the report is a value whose properties can be read:
    neither [null] nor [undefined]. *)
Definition readable (devices : device_report) : Prop :=
  match devices with
  | DeviceArray ds => Forall (fun device => device <> JNull /\ device <> JUndefined) ds
  | NotAnArray => True
  end.

(** [registerKeys(serialNumber, keys)] *)
Definition registerKeys (st : service) (serialNumber : jsval) (keys : list jsval) : service :=
  let serialNumber := to_String serialNumber in
  let st :=
    if negb (isDeviceConnected st serialNumber)
    then emit (DeviceConnected serialNumber)
              (with_connectedDevices (set_add serialNumber (connectedDevices st)) st)
    else st in
  foldl (fun st key =>
           let uid := to_String (get key "uid") in
           let keyId := KeyId.encode serialNumber uid in
           with_activeKeys
             (<[keyId := {| serialNumber := serialNumber; keyUid := uid;
                            config := JObj (own_fields key); state := inactive;
                            lastUpdate := None; retryCount := 0 |}]> (activeKeys st)) st)
        st keys.

(** [getConnectionStateRenderOptions(connectionState)] *)
Definition getConnectionStateRenderOptions (connectionState : jsval) : list (string * jsval) :=
  let options (title color : string) :=
    [("title", JStr title); ("backgroundColor", JStr color);
     ("showImage", JBool false); ("showTitle", JBool true)] in
  match connectionState with
  | JStr s =>
      if String.eqb s "disconnected" then options "League Offline" "#8B0000"
      else if String.eqb s "reconnecting" then options "Reconnecting..." "#FF8C00"
      else if String.eqb s "connected" then options "League Connected" "#006400"
      else options "Status Unknown" "#696969"
  | _ => options "Status Unknown" "#696969"
  end.

(** [renderData.style.k = v] *)
Definition set_style (renderData : jsval) (k : string) (v : jsval) : jsval :=
  set renderData "style" (set (get renderData "style") k v).

(** [applyDataToRenderData(renderData, data, config)] *)
Definition applyDataToRenderData (renderData data : jsval) : jsval :=
  let renderData :=
    if truthy (get data "imageData") then
      let renderData := set renderData "image" (get data "imageData") in
      let renderData := set_style renderData "showImage" (JBool true) in
      set_style renderData "showTitle" (JBool false)
    else renderData in
  if truthy (get data "connectionState") then
    let stateOptions := getConnectionStateRenderOptions (get data "connectionState") in
    let renderData := JObj (spread (own_fields renderData) stateOptions) in
    set renderData "style" (JObj (spread (own_fields (get renderData "style")) stateOptions))
  else renderData.

(** [x !== undefined] *)
Definition defined (v : jsval) : bool :=
  match v with
  | JUndefined => false
  | _ => true
  end.

(** The TypeError that [prepareRenderData(keyData, data, renderOptions)]
    throws, if any: at [config.uid] when the configuration is [null] or
    [undefined], at [renderOptions.title] when the render options are [null]
    (the default [{}] replaces [undefined] only).  The messages are those of
    the V8 engine. *)
Definition prepareRenderData_throws (keyData : key_data) (renderOptions : jsval)
  : option string :=
  match config keyData with
  | JNull => Some "Cannot read properties of null (reading 'uid')"
  | JUndefined => Some "Cannot read properties of undefined (reading 'uid')"
  | _ =>
      match renderOptions with
      | JNull => Some "Cannot read properties of null (reading 'title')"
      | _ => None
      end
  end.

(** [prepareRenderData(keyData, data, renderOptions = {})], when it does not
    throw. *)
Definition prepareRenderData (keyData : key_data) (data renderOptions : jsval) : jsval :=
  let renderOptions := param_default (JObj []) renderOptions in
  let config := config keyData in
  let renderData :=
    JObj [("uid", get config "uid");
          ("title", js_or (get config "title") (JStr "League of Legends"));
          ("width", js_or (get config "width") (JNum 72));
          ("style",
           JObj (spread [("showTitle", JBool true); ("showImage", JBool false);
                         ("showIcon", JBool false); ("showEmoji", JBool false);
                         ("backgroundColor", JStr "#1E3A8A")]
                        (own_fields (get config "style"))))] in
  let renderData :=
    if truthy data then applyDataToRenderData renderData data else renderData in
  let renderData :=
    if defined (get renderOptions "title")
    then set renderData "title" (get renderOptions "title") else renderData in
  let renderData :=
    if defined (get renderOptions "backgroundColor")
    then set_style renderData "backgroundColor" (get renderOptions "backgroundColor")
    else renderData in
  let renderData :=
    if defined (get renderOptions "showImage")
    then set_style renderData "showImage" (get renderOptions "showImage")
    else renderData in
  if defined (get renderOptions "showTitle")
  then set_style renderData "showTitle" (get renderOptions "showTitle")
  else renderData.

(** The [try] block of [executeRender] after the timestamp update: the draw
    call made, if any, and the message of the error thrown, if any. *)
Definition draw_attempt (st : service) (serial : option string) (renderData : jsval) (now : Z)
  : option draw_call * option string :=
  match plugin st with
  | None => (None, Some "Plugin instance not available for rendering")
  | Some draw =>
      let image := get renderData "image" in
      if truthy image then
        match image with
        | JStr base64Data =>
            let call :=
              if startsWith "data:image/png;base64," base64Data
              then {| draw_serialNumber := serial;
                      draw_renderData := del renderData "image";
                      base64 := Some base64Data |}
              else {| draw_serialNumber := serial;
                      draw_renderData := renderData;
                      base64 := None |} in
            (Some call,
             match draw now call with
             | DrawOk => None
             | DrawThrows m => Some m
             end)
        | _ => (None, Some "renderData.image.startsWith is not a function")
        end
      else
        let call := {| draw_serialNumber := serial;
                       draw_renderData := renderData;
                       base64 := None |} in
        (Some call,
         match draw now call with
         | DrawOk => None
         | DrawThrows m => Some m
         end)
  end.

(** [executeRender(renderTask)] at time [now]; the second component is the
    message of the error it rethrows, if any. *)
Definition executeRender (st : service) (keyId : string) (renderData : jsval) (now : Z)
  : service * option string :=
  let '(serialNumber, keyUid) := KeyId.decode keyId in
  let st := with_lastRenderTime (<[keyId := now]> (lastRenderTime st)) st in
  let '(call, error) := draw_attempt st serialNumber renderData now in
  let st := with_drawn (drawn st ++ option_list call) st in
  let st :=
    match error with
    | None => emit (KeyRendered serialNumber keyUid now) st
    | Some message => emit (KeyError serialNumber keyUid message now) st
    end in
  (with_renderQueue (delete keyId (renderQueue st)) st, error).

(** [queueRender(keyId, renderData)] at time [now]; the second component
    is the message of the error it throws, if any. *)
Definition queueRender (st : service) (keyId : string) (renderData : jsval) (now : Z)
  : service * option string :=
  let st :=
    match renderQueue st !! keyId with
    | Some task => clearTimeout (timeout task) st
    | None => st
    end in
  let delay := getThrottleDelay st keyId now in
  if 0 <? delay then
    let '(id, st) := setTimeout (RenderCallback keyId renderData) delay now st in
    let renderTask :=
      {| keyId := keyId; renderData := renderData; timestamp := now; timeout := Some id |} in
    (with_renderQueue (<[keyId := renderTask]> (renderQueue st)) st, None)
  else
    let renderTask :=
      {| keyId := keyId; renderData := renderData; timestamp := now; timeout := None |} in
    match executeRender st keyId renderData now with
    | (st, Some message) => (st, Some message)
    | (st, None) => (with_renderQueue (<[keyId := renderTask]> (renderQueue st)) st, None)
    end.

(** [keyData.state = s] *)
Definition key_with_state (s : lifecycle) (kd : key_data) : key_data :=
  {| serialNumber := serialNumber kd; keyUid := keyUid kd; config := config kd;
     state := s; lastUpdate := lastUpdate kd; retryCount := retryCount kd |}.

(** [keyData.state = 'active'; keyData.lastUpdate = Date.now();
    keyData.retryCount = 0] *)
Definition key_rendered (now : Z) (kd : key_data) : key_data :=
  {| serialNumber := serialNumber kd; keyUid := keyUid kd; config := config kd;
     state := active; lastUpdate := Some now; retryCount := 0 |}.

(** [keyData.state = s] for the entry of [keyId]. *)
Definition set_key_state (s : lifecycle) (keyId : string) (st : service) : service :=
  with_activeKeys (alter (key_with_state s) keyId (activeKeys st)) st.

(** [handleKeyError(keyId, error)] at time [now]. *)
Definition handleKeyError (st : service) (keyId : string) (message : string) (now : Z)
  : service :=
  let errorCount := default 0 (errorCounts st !! keyId) + 1 in
  let st := with_errorCounts (<[keyId := errorCount]> (errorCounts st)) st in
  match activeKeys st !! keyId with
  | None => st
  | Some keyData =>
      if includes "not alive" message || includes "not connected" message
      then set_key_state dead keyId st
      else if errorCount <=? maxRetries (opts st)
      then (setTimeout (RetryCallback keyId (serialNumber keyData) (keyUid keyData))
                       (retryDelay (opts st) * errorCount) now st).2
      else set_key_state failed keyId st
  end.

(** [updateKey(serialNumber, keyUid, data, renderOptions = {})] at time
    [now], with the result it resolves to.  The draw it awaits is answered
    within the step: nothing else runs between the request and its
    outcome.  An error thrown while the render data are prepared is caught
    like one of the render. *)
Definition updateKey (st : service) (serialNumber keyUid : string) (data renderOptions : jsval)
    (now : Z) : service * bool :=
  let keyId := KeyId.encode serialNumber keyUid in
  if negb (isDeviceConnected st serialNumber) then (st, false)
  else
    match activeKeys st !! keyId with
    | None => (st, false)
    | Some keyData =>
        if isThrottled st keyId now then (st, false)
        else
          let st := with_stateManager
                      (StateManager.updateKeyState (stateManager st) keyUid data now) st in
          match prepareRenderData_throws keyData renderOptions with
          | Some message => (handleKeyError st keyId message now, false)
          | None =>
              let renderData := prepareRenderData keyData data renderOptions in
              match queueRender st keyId renderData now with
              | (st, None) =>
                  let st :=
                    with_activeKeys (alter (key_rendered now) keyId (activeKeys st)) st in
                  (with_errorCounts (delete keyId (errorCounts st)) st, true)
              | (st, Some message) => (handleKeyError st keyId message now, false)
              end
          end
    end.

(** [performCleanup()] at time [now]. *)
Definition performCleanup (st : service) (now : Z) : service :=
  let keysToRemove :=
    (List.filter (fun kv : string * key_data =>
                    bool_decide (state kv.2 = dead) || bool_decide (state kv.2 = failed))
                 (map_to_list (activeKeys st))).*1 in
  let st := foldl removeKey st keysToRemove in
  let st :=
    with_lastRenderTime
      (filter (fun kv : string * Z =>
                 ¬ (activeKeys st !! kv.1 = None ∨ 300000 < now - kv.2))
              (lastRenderTime st)) st in
  with_errorCounts
    (filter (fun kv : string * Z => is_Some (activeKeys st !! kv.1)) (errorCounts st)) st.

(** [shutdown()] at time [now]: the timers of the queued renders are
    cancelled, the tables cleared and the state store shut down; [f] is the
    store's file and [io_ok] tells whether its final save succeeds.  (The
    cleanup interval, which [shutdown] stops first, is the periodic call of
    [performCleanup].) *)
Definition shutdown (st : service) (f : StateManager.file) (now : Z) (io_ok : bool)
  : service * StateManager.file :=
  let st :=
    map_fold (fun (_ : string) (renderTask : render_task) st =>
                clearTimeout (timeout renderTask) st)
             st (renderQueue st) in
  let st :=
    with_connectedDevices []
      (with_errorCounts ∅ (with_lastRenderTime ∅ (with_renderQueue ∅ (with_activeKeys ∅ st)))) in
  let '(sm, f) := StateManager.shutdown (stateManager st) f now io_ok in
  (with_stateManager sm st, f).

(** A pending timer fires at time [now] (not before it is due): it leaves
    the timer table and its callback runs.  A rejection of the render
    callback's [executeRender] is not handled by anyone. *)
Definition fire (st : service) (id : nat) (now : Z) : service :=
  match List.find (fun t => Nat.eqb (handle t) id) (timers st) with
  | None => st
  | Some t =>
      if now <? due t then st
      else
        let st := clearTimeout (Some id) st in
        match run t with
        | RenderCallback keyId renderData => (executeRender st keyId renderData now).1
        | RetryCallback keyId serialNumber keyUid =>
            let cachedState := StateManager.getKeyState (stateManager st) keyUid in
            if truthy cachedState
            then (updateKey st serialNumber keyUid cachedState JUndefined now).1
            else st
        end
  end.


(** The pending [setTimeout] render callbacks of one widget. *)
Definition is_render_of (keyId : string) (t : timer) : bool :=
  match run t with
  | RenderCallback k _ => String.eqb k keyId
  | RetryCallback _ _ _ => false
  end.

Definition pending_renders (keyId : string) (st : service) : list timer :=
  List.filter (is_render_of keyId) (timers st).

(** Timer handles are handed out in increasing order: every pending timer
    has a handle below the next one. *)
Definition handles_fresh (st : service) : Prop :=
  Forall (fun t => (handle t < nextTimer st)%nat) (timers st).

(** The first step of [queueRender]: the pending timer of the queued task,
    if any, is cancelled. *)
Definition cancel_queued (st : service) (keyId : string) : service :=
  match renderQueue st !! keyId with
  | Some task => clearTimeout (timeout task) st
  | None => st
  end.

(** An error message that does not say the widget is gone: neither
    ['not alive'] nor ['not connected'] occurs in it. *)
Definition transient (message : string) : bool :=
  negb (includes "not alive" message || includes "not connected" message).

(** Every draw attempt of the service fails with a transient error. *)
Definition draws_fail (st : service) : Prop :=
  forall serial renderData now,
    exists message,
      (draw_attempt st serial renderData now).2 = Some message /\ transient message = true.

(** The times of the [keyError] events among [events]. *)
Definition key_error_times (events : list event) : list Z :=
  omap (fun e => match e with
                 | KeyError _ _ _ timestamp => Some timestamp
                 | _ => None
                 end) events.

(** The pending [setTimeout] retry callbacks of one widget. *)
Definition is_retry_of (keyId : string) (t : timer) : bool :=
  match run t with
  | RetryCallback k _ _ => String.eqb k keyId
  | RenderCallback _ _ => false
  end.

Definition pending_retries (keyId : string) (st : service) : list timer :=
  List.filter (is_retry_of keyId) (timers st).

(** The pending retry of the widget fires at each of the given times, as
    long as there is one; the other timers stay pending.  Returned with the
    final service are the delays the fired retries had been given: the due
    time of each, counted from the time [last] at which it was set (the time
    of the firing before it). *)
Fixpoint run_retries (keyId : string) (st : service) (last : Z) (times : list Z)
  : service * list Z :=
  match times with
  | [] => (st, [])
  | t :: rest =>
      match pending_retries keyId st with
      | [] => (st, [])
      | tm :: _ =>
          let '(st', delays) := run_retries keyId (fire st (handle tm) t) t rest in
          (st', (due tm - last) :: delays)
      end
  end.

(** No timer of a retry chain is asked to fire before it is due: the retry
    set at the [errorCount]-th failure, at time [failedAt], fires at the head
    of [times]. *)
Fixpoint on_schedule (retryDelay failedAt errorCount : Z) (times : list Z) : Prop :=
  match times with
  | [] => True
  | t :: rest =>
      failedAt + retryDelay * errorCount <= t /\
      on_schedule retryDelay t (errorCount + 1) rest
  end.

(** The delays of a linear backoff: [retryDelay * errorCount] for the error
    counts [from], [from + 1], ..., [n] of them. *)
Fixpoint linear_backoff (retryDelay from : Z) (n : nat) : list Z :=
  match n with
  | O => []
  | S n => retryDelay * from :: linear_backoff retryDelay (from + 1) n
  end.

(** *** Concrete runs *)

Definition always_ok : plugin_fn := fun _ _ => DrawOk.

Definition always_fails (message : string) : plugin_fn := fun _ _ => DrawThrows message.

(** A host whose draws succeed before [t0] and throw [message] from then
    on. *)
Definition fails_from (t0 : Z) (message : string) : plugin_fn :=
  fun now _ => if now <? t0 then DrawOk else DrawThrows message.

(** Two devices, ["SN1"] with widgets 7 and 8 and ["SN2"] with widget 1. *)
Definition two_devices : service :=
  let st := setPlugin (create default_options 1000) always_ok in
  let st := registerKeys st (JStr "SN1")
              [JObj [("uid", JNum 7); ("cid", JStr "com.lol.summoner")];
               JObj [("uid", JNum 8); ("cid", JStr "com.lol.rank")]] in
  registerKeys st (JStr "SN2") [JObj [("uid", JNum 1); ("cid", JStr "com.lol.wallet")]].

(** [two_devices] after widget 7 of ["SN1"] was updated, and rendered, at
    time 5000. *)
Definition image_A : jsval := JObj [("imageData", JStr "data:image/png;base64,AAAA")].
Definition image_B : jsval := JObj [("imageData", JStr "data:image/png;base64,BBBB")].

Definition rendered_at_5000 : service :=
  (updateKey two_devices "SN1" "7" image_A JUndefined 5000).1.

(** [two_devices] with a host whose every draw throws ["boom"]. *)
Definition two_devices_failing : service :=
  with_plugin (Some (always_fails "boom")) two_devices.

(** [two_devices] with a host whose draws throw ["boom"] from time 5050
    on. *)
Definition two_devices_failing_from_5050 : service :=
  with_plugin (Some (fails_from 5050 "boom")) two_devices.

(** The render data of the ['disconnected'] connection state. *)
Definition offline_title : jsval :=
  JObj [("title", JStr "League Offline"); ("backgroundColor", JStr "#8B0000")].

(** A service whose throttle window is longer than its retry delay, with the
    one widget 7 of ["SN1"] and a host whose every draw throws ["boom"]. *)
Definition slow_throttle_options : options :=
  {| throttleInterval := 5000; maxRetries := 3; retryDelay := 1000; cleanupDelay := 5000 |}.

Definition slow_throttle_failing : service :=
  registerKeys (setPlugin (create slow_throttle_options 1000) (always_fails "boom"))
               (JStr "SN1") [JObj [("uid", JNum 7); ("cid", JStr "com.lol.summoner")]].

(** [two_devices] with a host that no longer knows the device. *)
Definition two_devices_gone : service :=
  with_plugin (Some (always_fails "Device is not connected")) two_devices.

(** [st'] is [st] with some widgets removed: the four per-widget tables only
    lose entries, and a widget that left [activeKeys] left the other three
    tables with it. *)
Definition pruned (st st' : service) : Prop :=
  activeKeys st' ⊆ activeKeys st /\
  renderQueue st' ⊆ renderQueue st /\
  lastRenderTime st' ⊆ lastRenderTime st /\
  errorCounts st' ⊆ errorCounts st /\
  (forall k, activeKeys st' !! k = None ->
     activeKeys st !! k = None \/
     (renderQueue st' !! k = None /\ lastRenderTime st' !! k = None /\
      errorCounts st' !! k = None)).

Definition is_deviceConnected (e : event) : Prop :=
  match e with
  | DeviceConnected _ => True
  | _ => False
  end.

End KeyService.

(** * Properties *)

(** ** Facts about the JavaScript model *)

Section JsFacts.
Import Js.

(** Induction over values that goes through arrays and objects. *)
Lemma jsval_nested_ind (P : jsval -> Prop) :
  P JUndefined -> P JNull -> (forall b, P (JBool b)) -> (forall z, P (JNum z)) ->
  (forall s, P (JStr s)) ->
  (forall items, Forall P items -> P (JArr items)) ->
  (forall fs, Forall (fun kv => P kv.2) fs -> P (JObj fs)) ->
  forall v, P v.
Proof.
  intros Hu Hn Hb Hz Hs Ha Ho.
  fix IH 1. intros v. destruct v as [| |b|z|s|items|fs].
  - exact Hu.
  - exact Hn.
  - exact (Hb b).
  - exact (Hz z).
  - exact (Hs s).
  - apply Ha. induction items as [|x items IHitems].
    + constructor.
    + constructor; [exact (IH x) | exact IHitems].
  - apply Ho. induction fs as [|[k x] fs IHfs].
    + constructor.
    + constructor; [exact (IH x) | exact IHfs].
Qed.

Lemma json_roundtrip_clean v : json_clean v = true -> json_roundtrip v = v.
Proof.
  induction v as [| |b|z|s|items IH|fs IH] using jsval_nested_ind;
    simpl; intros Hc; try done.
  - f_equal. induction IH as [|x items Hx _ IHitems]; simpl in *; [done|].
    apply andb_prop in Hc as [Hcx Hcs].
    rewrite IHitems by done. rewrite Hx by done.
    by destruct x.
  - f_equal. induction IH as [|[k x] fs Hx _ IHfs]; simpl in *; [done|].
    apply andb_prop in Hc as [Hcx Hcs].
    specialize (IHfs Hcs). unfold omap in IHfs. rewrite IHfs, (Hx Hcx).
    by destruct x.
Qed.

Lemma new_Map_snoc (l : list (string * jsval)) kv :
  new_Map (l ++ [kv]) = <[kv.1 := kv.2]> (new_Map l).
Proof. unfold new_Map. by rewrite foldl_snoc. Qed.

Lemma new_Map_lookup (l : list (string * jsval)) k v :
  NoDup l.*1 -> new_Map l !! k = Some v <-> (k, v) ∈ l.
Proof.
  induction l as [|[k' v'] l IH] using rev_ind; intros Hnd.
  - unfold new_Map; simpl. rewrite lookup_empty. split; [done|]. by intros ?%elem_of_nil.
  - rewrite new_Map_snoc. simpl.
    rewrite fmap_app in Hnd. apply NoDup_app in Hnd as (Hl & Hfresh & _).
    rewrite elem_of_app, list_elem_of_singleton.
    destruct (decide (k' = k)) as [->|Hne].
    + rewrite lookup_insert_eq. split.
      * intros [= ->]. by right.
      * intros [Hin|[= ->]]; [|done].
        exfalso. apply (Hfresh k); [|simpl; left].
        apply list_elem_of_fmap. by exists (k, v).
    + rewrite lookup_insert_ne by done. rewrite IH by done.
      split; [by left|]. intros [?|[= ? ?]]; [done|congruence].
Qed.

Lemma new_Map_to_list (m : gmap string jsval) : new_Map (map_to_list m) = m.
Proof.
  apply map_eq. intros k. apply option_eq. intros v.
  rewrite new_Map_lookup by apply NoDup_fst_map_to_list.
  apply elem_of_map_to_list.
Qed.

Lemma List_filter_sublist {A} (f : A -> bool) (l : list A) : sublist (List.filter f l) l.
Proof.
  induction l as [|x l IH]; simpl; [done|].
  destruct (f x); by constructor.
Qed.

Lemma new_Map_filter (P : string * jsval -> bool) (m : gmap string jsval) :
  new_Map (List.filter P (map_to_list m)) = filter (fun kv => P kv = true) m.
Proof.
  apply map_eq. intros k. apply option_eq. intros v.
  rewrite new_Map_lookup.
  - rewrite map_lookup_filter_Some, <- elem_of_map_to_list.
    rewrite !list_elem_of_In, filter_In. tauto.
  - apply (sublist_NoDup _ (map_to_list m).*1).
    + apply NoDup_fst_map_to_list.
    + apply fmap_sublist, List_filter_sublist.
Qed.

End JsFacts.

(** ** Widget identities *)

Section KeyIdFacts.
Import Js KeyId.

Lemma split_dashfree s : has_char dash s = false -> split dash s = [s].
Proof.
  induction s as [|c s IH]; simpl; [done|].
  intros [Hc Hs]%orb_false_elim. rewrite Hc, (IH Hs). done.
Qed.

Lemma split_append a b :
  has_char dash a = false -> split dash (a +:+ "-" +:+ b) = a :: split dash b.
Proof.
  induction a as [|c a IH]; simpl; [done|].
  intros [Hc Ha]%orb_false_elim. rewrite Hc, (IH Ha). done.
Qed.

Lemma split_head_exists s : exists w ws, split dash s = w :: ws.
Proof.
  induction s as [|c s (w & ws & IH)]; simpl; [by eauto|].
  destruct (Ascii.eqb c dash); [by eauto|]. rewrite IH. by eauto.
Qed.

(** With a dash-free serial number alone, decoding still recovers the serial
    number; the second component is the part of the uid before its first
    dash. *)
Lemma decode_encode_serial serialNumber keyUid :
  has_char dash serialNumber = false ->
  decode (encode serialNumber keyUid) = (Some serialNumber, head (split dash keyUid)).
Proof.
  intros Hs. unfold decode, encode. rewrite split_append by done. simpl.
  by destruct (split dash keyUid).
Qed.

(** C9 (amended): the widget identity [serialNumber + '-' + keyUid], decoded
    by splitting on ['-'] and taking the first two components, gives back the
    serial number and the key uid whenever neither of them contains a ['-']. *)
Theorem keyId_roundtrip serialNumber keyUid :
  has_char dash serialNumber = false ->
  has_char dash keyUid = false ->
  decode (encode serialNumber keyUid) = (Some serialNumber, Some keyUid).
Proof.
  intros Hs Hu. rewrite decode_encode_serial by done.
  by rewrite split_dashfree.
Qed.

Lemma keyId_roundtrip_witness :
  has_char dash "SN1" = false /\ has_char dash "7" = false /\
  decode (encode "SN1" "7") = (Some "SN1", Some "7").
Proof.
  split; [reflexivity|]. split; [reflexivity|].
  apply (keyId_roundtrip "SN1" "7"); reflexivity.
Defined.

(** C9 as stated fails: a dash-free serial number is not enough, the key uid
    ["a-b"] comes back as ["a"]. *)
Lemma keyUid_with_dash_is_cut :
  has_char dash "SN1" = false /\
  decode (encode "SN1" "a-b") = (Some "SN1", Some "a") /\
  decode (encode "SN1" "a-b") <> (Some "SN1", Some "a-b").
Proof. split; [reflexivity|]. split; [reflexivity|]. discriminate. Qed.

End KeyIdFacts.

(** ** The state store *)

Section StateManagerFacts.
Import Js StateManager.

Lemma getPreference_absent st key arg :
  preferences st !! key = None ->
  getPreference st key arg = param_default JNull arg.
Proof.
  intros H. unfold getPreference, map_get, js_or. by rewrite H.
Qed.

(** C10: a stored preference that is falsy ([false], [0], the empty string,
    [null]) reads as the default value, exactly as if the key were absent; a
    truthy stored value is returned as it is.  [param_default JNull arg] is
    the value of the parameter [defaultValue] inside [getPreference]: the
    argument, or [null] when the argument is omitted. *)
Theorem getPreference_falsy_default st key v arg :
  preferences st !! key = Some v ->
  (v = JBool false \/ v = JNum 0 \/ v = JStr "" \/ v = JNull ->
     getPreference st key arg = param_default JNull arg /\
     getPreference st key arg = getPreference (removePreference st key).1 key arg) /\
  (truthy v = true -> getPreference st key arg = v).
Proof.
  intros Hv. split.
  - intros Hfalsy.
    assert (Hf : truthy v = false) by (by destruct Hfalsy as [->|[->|[->| ->]]]).
    assert (Hd : getPreference st key arg = param_default JNull arg).
    { unfold getPreference, map_get, js_or. by rewrite Hv; simpl; rewrite Hf. }
    split; [done|]. rewrite Hd. symmetry. apply getPreference_absent.
    unfold removePreference. rewrite Hv. simpl. apply lookup_delete_eq.
  - intros Ht. unfold getPreference, map_get, js_or. by rewrite Hv; simpl; rewrite Ht.
Qed.

Lemma getPreference_falsy_default_witness :
  let st := setPreference (create default_options 0) "showRank" (JBool false) in
  preferences st !! "showRank" = Some (JBool false) /\
  getPreference st "showRank" (JBool true) = JBool true /\
  getPreference st "showRank" (JBool true)
    = getPreference (removePreference st "showRank").1 "showRank" (JBool true).
Proof.
  intros st. split; [reflexivity|].
  apply (getPreference_falsy_default st "showRank" (JBool false) (JBool true));
    [reflexivity | by left].
Defined.

Lemma assoc_set_ne k k' v fs : k <> k' -> assoc k (assoc_set k' v fs) = assoc k fs.
Proof.
  intros Hne. induction fs as [|[k0 v0] fs IH]; simpl.
  - destruct (String.eqb_spec k k'); [done|done].
  - destruct (String.eqb_spec k' k0) as [->|Hk0]; simpl.
    + destruct (String.eqb_spec k k0); [done|done].
    + by rewrite IH.
Qed.

Lemma json_clean_assoc_set k v fs :
  json_clean (JObj fs) = true -> json_clean v = true ->
  json_clean (JObj (assoc_set k v fs)) = true.
Proof.
  simpl. intros Hfs Hv. induction fs as [|[k0 v0] fs IH]; simpl in *.
  - by rewrite Hv.
  - apply andb_prop in Hfs as [H0 Hfs].
    destruct (String.eqb k k0); simpl.
    + by rewrite Hv, Hfs.
    + by rewrite H0, IH.
Qed.

Lemma json_clean_fromEntries (m : gmap string jsval) :
  map_Forall (fun _ v => json_clean v = true) m -> json_clean (fromEntries m) = true.
Proof.
  intros Hm. unfold fromEntries. simpl. apply forallb_forall.
  intros [k v] Hin%list_elem_of_In%elem_of_map_to_list. by apply (Hm k).
Qed.

Lemma getCache_expired st key entry now :
  cache st !! key = Some entry -> entry_expired now entry = true ->
  (getCache st key now).2 = JNull.
Proof.
  intros He Hx. unfold getCache, map_get. rewrite He. simpl.
  destruct (truthy entry); simpl; [|done]. by rewrite Hx.
Qed.

(** The document that [saveState] writes is read back as it was written. *)
Lemma saved_document_clean st md now :
  json_state st -> metadata st = JObj md ->
  json_clean
    (JObj [("keys", fromEntries (keys st));
           ("connections", fromEntries (connections st));
           ("preferences", fromEntries (preferences st));
           ("cache", fromEntries (cache st));
           ("metadata", JObj (spread md [("lastSave", JNum now)]))]) = true.
Proof.
  intros (Hk & Hc & Hp & Hca & Hm & _) Hmd. rewrite Hmd in Hm.
  set (M := JObj (spread md [("lastSave", JNum now)])).
  assert (HM : json_clean M = true) by by apply json_clean_assoc_set.
  clearbody M. cbn [json_clean forallb].
  by rewrite !json_clean_fromEntries, HM.
Qed.

Lemma saveState_file st md f now :
  isDirty st = true -> json_state st -> metadata st = JObj md ->
  (saveState st f now true).1.2 =
    Some (JObj [("keys", fromEntries (keys st));
                ("connections", fromEntries (connections st));
                ("preferences", fromEntries (preferences st));
                ("cache", fromEntries (cache st));
                ("metadata", JObj (assoc_set "lastSave" (JNum now) md))]).
Proof.
  intros Hdirty Hjs Hmd. unfold saveState. rewrite Hdirty, Hmd.
  cbn [negb fst snd own_fields]. f_equal.
  apply json_roundtrip_clean. by apply saved_document_clean.
Qed.

Lemma no_null_entry (m : gmap string jsval) :
  map_Forall (fun _ entry => entry <> JNull) m ->
  map_Forall (fun _ v => json_clean v = true) m ->
  existsb (fun kv : string * jsval => nullish kv.2) (map_to_list m) = false.
Proof.
  intros Hnull Hclean. apply not_true_iff_false. intros Hex.
  apply existsb_exists in Hex as ([k v] & Hin%list_elem_of_In%elem_of_map_to_list & Hv).
  specialize (Hnull k v Hin). specialize (Hclean k v Hin). cbn in *. by destruct v.
Qed.

(** C2 (amended): when the state holds JSON data (under string keys, no
    cache entry being [null]) and has changed since the last save, saving it
    and loading the file does not throw and gives back the same widget,
    connection and preference entries, and exactly those cache entries whose
    [timestamp] is less than [maxCacheAge] old at load time.  The [expiry]
    (TTL) of an entry plays no part in what is loaded; an entry that is loaded
    although its TTL has passed reads as [null] through [getCache]. *)
Theorem save_load_roundtrip st fresh t_save t_load :
  isDirty st = true ->
  json_state st ->
  map_Forall (fun _ entry => entry <> JNull) (cache st) ->
  let st' := save_then_load st fresh t_save t_load in
  loadState_throws (saveState st None t_save true).1.2 = false /\
  keys st' = keys st /\
  connections st' = connections st /\
  preferences st' = preferences st /\
  cache st' = filter (fun kv => cache_entry_valid (opts fresh) t_load kv.2 = true) (cache st) /\
  (forall key entry, cache st' !! key = Some entry -> entry_expired t_load entry = true ->
     (getCache st' key t_load).2 = JNull).
Proof.
  intros Hdirty (Hk & Hc & Hp & Hca & Hm & Hv) Hnull st'.
  assert (Hload :
    loadState_throws (saveState st None t_save true).1.2 = false /\
    keys st' = keys st /\ connections st' = connections st /\
    preferences st' = preferences st /\
    cache st' = filter (fun kv => cache_entry_valid (opts fresh) t_load kv.2 = true) (cache st)).
  { subst st'. unfold save_then_load.
    destruct (metadata st) as [| | | | | |md] eqn:Hmd; try discriminate Hv.
    rewrite (saveState_file st md) by (by repeat split; rewrite ?Hmd).
    assert (Hver : truthy (get (JObj (assoc_set "lastSave" (JNum t_save) md)) "version") = true).
    { simpl in *. by rewrite assoc_set_ne. }
    pose proof (no_null_entry (cache st) Hnull Hca) as Hread.
    unfold loadState, loadState_throws, fromEntries.
    cbn [get assoc String.eqb Ascii.eqb Bool.eqb from_option id truthy andb orb own_fields
         nullish] in *.
    rewrite Hver, Hread.
    cbn [keys connections preferences cache with_keys with_connections
         with_preferences with_cache with_metadata opts andb].
    rewrite !new_Map_to_list.
    pose proof (new_Map_filter
      (fun kv => cache_entry_valid (opts fresh) t_load kv.2) (cache st)) as Hf.
    simpl in Hf. rewrite Hf. done. }
  destruct Hload as (? & ? & ? & ? & Hcache). repeat split; try done.
  intros key entry. apply getCache_expired.
Qed.

Lemma save_load_roundtrip_witness :
  let st := setCache
              (setPreference
                 (updateKeyState (create default_options 1000) "7"
                                 (JObj [("title", JStr "Gold IV")]) 2000)
                 "queue" (JStr "RANKED_SOLO_5x5"))
              "summoner" (JObj [("level", JNum 30)]) (JNum 60000) 3000 in
  let st' := save_then_load st (create default_options 9000) 4000 10000 in
  isDirty st = true /\
  map_Forall (fun _ entry => entry <> JNull) (cache st) /\
  keys st' = keys st /\ preferences st' = preferences st /\
  cache st' !! "summoner" = cache st !! "summoner".
Proof.
  intros st st'. split; [reflexivity|].
  assert (Hjs : json_state st).
  { repeat split; try reflexivity;
      apply (bool_decide_unpack _); vm_compute; reflexivity. }
  assert (Hnull : map_Forall (fun _ entry => entry <> JNull) (cache st)).
  { intros k entry Hk. subst st. unfold setCache, setPreference, updateKeyState in Hk.
    cbn [cache markDirty with_cache with_isDirty with_preferences with_keys create] in Hk.
    apply lookup_insert_Some in Hk as [[_ <-]|[_ Hk]]; [done|].
    by rewrite lookup_empty in Hk. }
  split; [exact Hnull|].
  destruct (save_load_roundtrip st (create default_options 9000) 4000 10000
              eq_refl Hjs Hnull) as (_ & Hk & _ & Hp & Hc & _).
  split; [exact Hk|]. split; [exact Hp|].
  subst st'. rewrite Hc. reflexivity.
Defined.

(** C2 as stated fails: an entry cached at time 1000000 with a TTL of one
    second, saved and then loaded five seconds later, is still in the loaded
    cache although its TTL has passed. *)
Lemma save_load_expired_entry_kept :
  let st := setCache (create default_options 0) "wallet" (JNum 4800) (JNum 1000) 1000000 in
  let st' := save_then_load st (create default_options 0) 1000001 1005000 in
  exists entry,
    cache st' !! "wallet" = Some entry /\
    get entry "expiry" = JNum 1001000 /\
    entry_expired 1005000 entry = true.
Proof.
  eexists. split; [vm_compute; reflexivity|]. split; reflexivity.
Qed.

(** The other way round: an entry cached without a TTL is not loaded once
    it is [maxCacheAge] old. *)
Lemma save_load_old_entry_dropped :
  let st := setCache (create default_options 0) "summoner" (JStr "Faker") JNull 1000000 in
  let st' := save_then_load st (create default_options 0) 1000001 1300000 in
  get (map_get (cache st) "summoner") "expiry" = JNull /\
  cache st' !! "summoner" = None.
Proof. split; vm_compute; reflexivity. Qed.

End StateManagerFacts.

(** ** The connection monitor and the poller supervisor *)

Section LoLDataServiceFacts.
Import Js LoLDataService.

Lemma emitted_setConnectionState st connected reason now :
  emitted (setConnectionState st connected reason now) =
    emitted st ++
      (if Bool.eqb (isConnected st) connected then []
       else [ConnectionChanged connected reason now]) /\
  isConnected (setConnectionState st connected reason now) = connected.
Proof.
  unfold setConnectionState.
  destruct (Bool.eqb (isConnected st) connected); simpl; [|done].
  by rewrite app_nil_r.
Qed.

Lemma emitted_report_all reports : forall st,
  emitted (report_all st reports) = emitted st ++ actual_changes (isConnected st) reports.
Proof.
  induction reports as [|[[c reason] now] reports IH]; intros st; simpl.
  - by rewrite app_nil_r.
  - unfold report_all in *. simpl. rewrite IH.
    destruct (emitted_setConnectionState st c reason now) as [-> ->].
    by rewrite <- app_assoc.
Qed.

Lemma actual_changes_same c reports :
  Forall (fun r : bool * string * Z => r.1.1 = c) reports -> actual_changes c reports = [].
Proof.
  induction 1 as [|[[c' reason] now] reports Hc _ IH]; simpl in *; [done|].
  subst c'. by rewrite Bool.eqb_reflx, IH.
Qed.

(** C6: over any sequence of connection-state reports, the events emitted
    are exactly one [connectionChanged] per report that differs from the
    connected flag before it, in order; a run of reports that repeat the
    current state emits nothing, and a run of identical reports emits at most
    one event. *)
Theorem connectionChanged_once_per_change st reports :
  emitted (report_all st reports) = emitted st ++ actual_changes (isConnected st) reports /\
  (Forall (fun r : bool * string * Z => r.1.1 = isConnected st) reports ->
     emitted (report_all st reports) = emitted st) /\
  (forall c, Forall (fun r : bool * string * Z => r.1.1 = c) reports ->
     (length (List.filter is_connectionChanged (emitted (report_all st reports)))
        <= length (List.filter is_connectionChanged (emitted st)) + 1)%nat).
Proof.
  split; [apply emitted_report_all|]. split.
  - intros Hsame. rewrite emitted_report_all, actual_changes_same by done.
    apply app_nil_r.
  - intros c Hc. rewrite emitted_report_all, List.filter_app, length_app.
    destruct Hc as [|[[c' reason] now] reports Hc' Hrest]; simpl in *; [lia|].
    subst c'. rewrite (actual_changes_same c) by done. rewrite app_nil_r.
    destruct (Bool.eqb (isConnected st) c); simpl; lia.
Qed.

Lemma list_delete_last {A} (l : list A) x : delete (length l) (l ++ [x]) = l.
Proof. induction l as [|y l IH]; simpl; [done|]. by rewrite IH. Qed.

Lemma with_inflight_restore st l :
  with_inflight (inflight st) (with_inflight l st) = st.
Proof. by destruct st. Qed.

(** A poll that nothing interrupts is its guard followed by the code after
    the [await]. *)
Lemma poll_once_connected st config data now :
  isConnected st = true -> is_Some (axios st) ->
  poll_once st config data now = handleEndpointPoll_resume st config (PollOk data) now.
Proof.
  intros Hc Ha. unfold poll_once, handleEndpointPoll, poll_completes.
  rewrite Hc, (bool_decide_eq_true_2 _ Ha). cbn [negb orb inflight with_inflight].
  rewrite lookup_app_r by done. rewrite Nat.sub_diag. cbn [lookup list_lookup].
  by rewrite list_delete_last, with_inflight_restore.
Qed.

Lemma poll_once_disconnected st config data now :
  isConnected st = false -> poll_once st config data now = st.
Proof. intros Hc. unfold poll_once. by rewrite Hc. Qed.

Lemma gameflow_poll_step st config data now :
  type config = "gameflow" ->
  let st' := handleEndpointPoll_resume st config (PollOk data) now in
  List.filter is_gameStateChanged (emitted st') =
    List.filter is_gameStateChanged (emitted st) ++
      (if strict_eq data (cached st "gameflow") then []
       else [GameStateChanged data (cached st "gameflow") now]) /\
  isConnected st' = isConnected st /\ axios st' = axios st /\
  cached st' "gameflow" = data.
Proof.
  intros Hty st'. subst st'. unfold handleEndpointPoll_resume, handleGameStateChange, cached.
  rewrite Hty. cbn [String.eqb Ascii.eqb Bool.eqb andb].
  destruct (strict_eq data _); cbn.
  - rewrite List.filter_app. cbn. rewrite lookup_insert_eq. by rewrite app_nil_r.
  - rewrite !List.filter_app. cbn. rewrite lookup_insert_eq. by rewrite app_nil_r.
Qed.

Lemma gameflow_poll_all config polls : forall st,
  isConnected st = true -> is_Some (axios st) -> type config = "gameflow" ->
  List.filter is_gameStateChanged (emitted (poll_all st config polls)) =
    List.filter is_gameStateChanged (emitted st) ++ phase_changes (cached st "gameflow") polls.
Proof.
  induction polls as [|[data now] polls IH]; intros st Hc Ha Hty; simpl.
  - by rewrite app_nil_r.
  - unfold poll_all in *. simpl. rewrite poll_once_connected by done.
    destruct (gameflow_poll_step st config data now Hty) as (He & Hc' & Ha' & Hcache).
    rewrite IH; [|congruence|by rewrite Ha'|done].
    by rewrite He, Hcache, <- app_assoc.
Qed.

(** C7 (amended): over any sequence of successful polls of the game-phase
    endpoint, the [gameStateChanged] events emitted are exactly one per poll
    whose phase differs from the phase cached before it, an empty cache
    counting as a different phase.  So the polls "ChampSelect", "ChampSelect",
    "InProgress" emit one event (into InProgress) when "ChampSelect" is
    already cached, and two events (into ChampSelect, then into InProgress)
    when nothing is cached yet. *)
Theorem gameStateChanged_only_on_change st config polls :
  isConnected st = true -> is_Some (axios st) -> type config = "gameflow" ->
  List.filter is_gameStateChanged (emitted (poll_all st config polls)) =
    List.filter is_gameStateChanged (emitted st) ++ phase_changes (cached st "gameflow") polls /\
  (forall t1 t2 t3,
     let scenario := [(JStr "ChampSelect", t1); (JStr "ChampSelect", t2);
                      (JStr "InProgress", t3)] in
     (cached st "gameflow" = JStr "ChampSelect" ->
        List.filter is_gameStateChanged (emitted (poll_all st config scenario)) =
          List.filter is_gameStateChanged (emitted st) ++
            [GameStateChanged (JStr "InProgress") (JStr "ChampSelect") t3]) /\
     (dataCache st !! "gameflow" = None ->
        List.filter is_gameStateChanged (emitted (poll_all st config scenario)) =
          List.filter is_gameStateChanged (emitted st) ++
            [GameStateChanged (JStr "ChampSelect") JUndefined t1;
             GameStateChanged (JStr "InProgress") (JStr "ChampSelect") t3])).
Proof.
  intros Hc Ha Hty. split; [by apply gameflow_poll_all|].
  intros t1 t2 t3 scenario. split.
  - intros Hcs. rewrite gameflow_poll_all, Hcs by done. reflexivity.
  - intros Hnone. rewrite gameflow_poll_all by done.
    unfold cached. rewrite Hnone. reflexivity.
Qed.

Lemma gameStateChanged_only_on_change_witness :
  isConnected connected_at_start = true /\
  is_Some (axios connected_at_start) /\
  type gameflow_endpoint = "gameflow" /\
  List.filter is_gameStateChanged
    (emitted (poll_all connected_at_start gameflow_endpoint
                [(JStr "Lobby", 1000); (JStr "Lobby", 3000)])) =
    [GameStateChanged (JStr "Lobby") JUndefined 1000].
Proof.
  assert (Ha : is_Some (axios connected_at_start)) by (eexists; reflexivity).
  split; [reflexivity|]. split; [exact Ha|]. split; [reflexivity|].
  destruct (gameStateChanged_only_on_change connected_at_start gameflow_endpoint
              [(JStr "Lobby", 1000); (JStr "Lobby", 3000)] eq_refl Ha eq_refl) as [-> _].
  reflexivity.
Defined.

(** C7 as stated fails: on a service that has just connected, the polls
    "ChampSelect", "ChampSelect", "InProgress" emit two [gameStateChanged]
    events, not one. *)
Lemma gameStateChanged_scenario_two_events :
  List.filter is_gameStateChanged
    (emitted (poll_all connected_at_start gameflow_endpoint
                [(JStr "ChampSelect", 1000); (JStr "ChampSelect", 3000);
                 (JStr "InProgress", 5000)])) =
    [GameStateChanged (JStr "ChampSelect") JUndefined 1000;
     GameStateChanged (JStr "InProgress") (JStr "ChampSelect") 5000].
Proof. vm_compute. reflexivity. Qed.


Lemma stopEndpointPolling_intervals st :
  (forall ep id, endpointPollers st !! ep = Some id ->
     intervals (stopEndpointPolling st) !! id = None) /\
  (forall id config, intervals (stopEndpointPolling st) !! id = Some config ->
     intervals st !! id = Some config).
Proof.
  unfold stopEndpointPolling. cbn [intervals with_endpointPollers with_intervals].
  apply (map_fold_weak_ind
    (fun (r : gmap nat endpoint_config) (m : gmap string nat) =>
       (forall ep id, m !! ep = Some id -> r !! id = None) /\
       (forall id config, r !! id = Some config -> intervals st !! id = Some config))).
  - split; [|done]. intros ep id. by rewrite lookup_empty.
  - intros ep id m r Hfresh [IH1 IH2]. split.
    + intros ep' id' [[<- <-]|[Hne Hm]]%lookup_insert_Some.
      * apply lookup_delete_eq.
      * rewrite lookup_delete. case_decide; [done|]. by eapply IH1.
    + intros id' config [_ Hr]%lookup_delete_Some. by apply IH2.
Qed.

Lemma startEndpointPolling_fold configs : forall st,
  let st' := foldl startPoller st configs in
  nextTimer st' = (nextTimer st + length configs)%nat /\
  dataCache st' = dataCache st /\ isConnected st' = isConnected st /\
  axios st' = axios st /\ emitted st' = emitted st /\
  connectionAttempts st' = connectionAttempts st /\
  (forall i config, configs !! i = Some config ->
     intervals st' !! (nextTimer st + i)%nat = Some config) /\
  (forall id, (id < nextTimer st)%nat -> intervals st' !! id = intervals st !! id).
Proof.
  induction configs as [|c configs IH]; intros st; cbn [foldl].
  - cbn. repeat split; try done; lia.
  - specialize (IH (startPoller st c)).
    destruct IH as (Hn & Hd & Hc & Ha & He & Hat & Hiv & Hold).
    assert (Hstep : nextTimer (startPoller st c) = S (nextTimer st) /\
                    dataCache (startPoller st c) = dataCache st /\
                    isConnected (startPoller st c) = isConnected st /\
                    axios (startPoller st c) = axios st /\
                    emitted (startPoller st c) = emitted st /\
                    connectionAttempts (startPoller st c) = connectionAttempts st /\
                    intervals (startPoller st c) = <[nextTimer st := c]> (intervals st)).
    { unfold startPoller, handleEndpointPoll. cbn.
      by destruct (negb (isConnected st) || negb (bool_decide (is_Some (axios st)))). }
    destruct Hstep as (Sn & Sd & Sc & Sa & Se & Sat & Siv).
    rewrite Hn, Hd, Hc, Ha, He, Hat, Sn, Sd, Sc, Sa, Se, Sat.
    repeat split; try done.
    + cbn. lia.
    + intros [|i] config Hi; cbn in Hi.
      * injection Hi as ->. rewrite Nat.add_0_r, Hold by lia.
        rewrite Siv. apply lookup_insert_eq.
      * replace (nextTimer st + S i)%nat with (nextTimer (startPoller st c) + i)%nat by lia.
        by apply Hiv.
    + intros id Hid. rewrite Hold by lia. rewrite Siv. apply lookup_insert_ne. lia.
Qed.

Lemma attemptConnection_established st c v t :
  let st' := (attemptConnection st (Established c v) t).1 in
  isConnected st' = true /\
  dataCache st' = dataCache st /\
  connectionAttempts st' = 0 /\
  (forall i config, endpointConfig (opts st) !! i = Some config ->
     intervals st' !! (nextTimer st + i)%nat = Some config).
Proof.
  cbn [attemptConnection fst].
  set (s1 := setConnectionState (with_version (Some v) (with_axios (Some c) st))
                                true "Connected successfully" t).
  assert (H1 : isConnected s1 = true /\ dataCache s1 = dataCache st /\
               nextTimer s1 = nextTimer st /\ opts s1 = opts st).
  { subst s1. unfold setConnectionState. cbn.
    by destruct (negb (Bool.eqb (isConnected st) true)). }
  destruct H1 as (Hc & Hd & Hn & Ho).
  unfold startEndpointPolling.
  destruct (startEndpointPolling_fold (endpointConfig (opts s1)) s1)
    as (_ & Hd' & Hc' & _ & _ & _ & Hnew & _).
  cbn. rewrite Hc', Hd', Hc, Hd. repeat split; try done.
  intros i config Hi. rewrite <- Hn. apply Hnew. by rewrite Ho.
Qed.

(** C3 (amended): [handleDisconnection] clears every poll timer that
    [endpointPollers] holds (all live poll timers, when each of them is
    registered there), empties the poller map and drops the client handle, and
    a poll that starts while disconnected returns at its guard.  Polls already
    in flight are not withdrawn and the data cache is kept.  Afterwards only a
    successful connection attempt starts timers again: one per configured
    endpoint, each with a handle never handed out before, and with the cache
    of the previous session still in place. *)
Theorem disconnection_stops_polling st now :
  let st' := handleDisconnection st now in
  isConnected st' = false /\
  endpointPollers st' = ∅ /\
  axios st' = None /\
  (forall ep id, endpointPollers st !! ep = Some id -> intervals st' !! id = None) /\
  (polls_registered st -> intervals st' = ∅) /\
  (forall config, handleEndpointPoll st' config = st') /\
  inflight st' = inflight st /\
  dataCache st' = dataCache st /\
  (forall o t, (attemptConnection st' o t).2 = true ->
     intervals (attemptConnection st' o t).1 = intervals st' /\
     endpointPollers (attemptConnection st' o t).1 = ∅ /\
     isConnected (attemptConnection st' o t).1 = false) /\
  (forall c v t,
     let st'' := (attemptConnection st' (Established c v) t).1 in
     isConnected st'' = true /\
     dataCache st'' = dataCache st /\
     (forall i config, endpointConfig (opts st) !! i = Some config ->
        intervals st'' !! (nextTimer st + i)%nat = Some config)).
Proof.
  intros st'.
  assert (Hshape : isConnected st' = false /\ endpointPollers st' = ∅ /\ axios st' = None /\
                   inflight st' = inflight st /\ dataCache st' = dataCache st /\
                   nextTimer st' = nextTimer st /\ opts st' = opts st /\
                   intervals st' = intervals (stopEndpointPolling st)).
  { subst st'. unfold handleDisconnection, setConnectionState, resetConnectionDetails.
    by destruct (negb (Bool.eqb (isConnected st) false)). }
  destruct Hshape as (Hc & Hp & Ha & Hfl & Hd & Hn & Ho & Hiv).
  destruct (stopEndpointPolling_intervals st) as [Hcleared Hsub].
  repeat split; try done.
  - intros ep id Hreg. rewrite Hiv. by eapply Hcleared.
  - intros Hreg. apply map_eq. intros id. rewrite lookup_empty, Hiv.
    destruct (intervals (stopEndpointPolling st) !! id) as [config|] eqn:Hid; [|done].
    destruct (Hreg id config (Hsub _ _ Hid)) as [ep Hep].
    by rewrite (Hcleared ep id Hep) in Hid.
  - intros config. unfold handleEndpointPoll. by rewrite Hc.
  - destruct o; cbn in *; try done; unfold setConnectionState; cbn; by rewrite Hc.
  - destruct o; cbn in *; try done; unfold setConnectionState; cbn; by rewrite Hc, ?Hp.
  - destruct o; cbn in *; try done; unfold setConnectionState; cbn; by rewrite Hc.
  - by destruct (attemptConnection_established st' c v t) as (? & _).
  - destruct (attemptConnection_established st' c v t) as (_ & -> & _). done.
  - intros i config Hi.
    destruct (attemptConnection_established st' c v t) as (_ & _ & _ & Hnew).
    rewrite <- Hn. apply Hnew. by rewrite Ho.
Qed.

(** C3 as stated fails: a poll whose request is in flight when the service
    disconnects still writes its response into the cache and emits its events
    afterwards, and after the next successful connection the cache still holds
    the data of the previous session. *)
Lemma disconnection_late_poll_and_stale_cache :
  let st := poll_once connected_at_start gameflow_endpoint (JStr "Lobby") 5000 in
  let st_tick := handleEndpointPoll st gameflow_endpoint in
  let st_off := handleDisconnection st_tick 7100 in
  let st_late := poll_completes st_off 5 (PollOk (JStr "None")) 7200 in
  let st_back := (attemptConnection st_off (Established example_client "15.10.1") 20000).1 in
  isConnected st_off = false /\
  inflight st_off !! 5%nat = Some gameflow_endpoint /\
  dataCache st_late !! "gameflow" = Some (JStr "None", 7200) /\
  last (emitted st_late) = Some (GameStateChanged (JStr "None") (JStr "Lobby") 7200) /\
  isConnected st_back = true /\
  dataCache st_back !! "gameflow" = Some (JStr "Lobby", 5000).
Proof. vm_compute. repeat split; reflexivity. Qed.

(** C4: once the attempt counter has reached [maxReconnectAttempts], a
    liveness check that finds the client process running while the service is
    disconnected changes nothing: [handleReconnection] returns at its limit
    before any connection attempt, whatever that attempt would have found. *)
Theorem exhausted_check_makes_no_attempt st o now :
  maxReconnectAttempts (opts st) <= connectionAttempts st ->
  isConnected st = false ->
  handleProcessCheck st true o now = st.
Proof.
  intros Hmax Hc. unfold handleProcessCheck, handleReconnection, handleReconnection_begin.
  rewrite Hc. cbn [negb andb].
  by rewrite (proj2 (Z.leb_le _ _) Hmax).
Qed.

Lemma exhausted_check_makes_no_attempt_witness :
  maxReconnectAttempts (opts exhausted) <= connectionAttempts exhausted /\
  isConnected exhausted = false /\
  handleProcessCheck exhausted true (Established example_client "15.10.1") 15000 = exhausted.
Proof.
  split; [by vm_compute|]. split; [reflexivity|].
  apply (exhausted_check_makes_no_attempt exhausted); [by vm_compute | reflexivity].
Defined.

(** The sibling path [forceReconnect] resets the counter first, and from the
    same state does connect. *)
Lemma forceReconnect_from_exhausted :
  connectionAttempts exhausted = 5 /\ timeouts exhausted = [] /\
  isConnected (forceReconnect exhausted (Established example_client "15.10.1") 15000) = true.
Proof. vm_compute. repeat split; reflexivity. Qed.

End LoLDataServiceFacts.

(** ** Devices and their widgets *)

Section DeviceFacts.
Import Js KeyService.

Lemma elem_of_set_add s x l : s ∈ set_add x l <-> s = x \/ s ∈ l.
Proof.
  unfold set_add. case_bool_decide as Hx.
  - split; [by right|]. by intros [->|?].
  - rewrite elem_of_app, list_elem_of_singleton. tauto.
Qed.

Lemma NoDup_set_add x l : NoDup l -> NoDup (set_add x l).
Proof.
  intros Hl. unfold set_add. case_bool_decide as Hx; [done|].
  apply NoDup_app. split; [done|]. split; [|apply NoDup_singleton].
  intros y Hy ->%list_elem_of_singleton. done.
Qed.

Lemma set_has_true x l : set_has x l = true <-> x ∈ l.
Proof. unfold set_has. apply bool_decide_eq_true. Qed.


(** At the first entry whose [serialNumber] cannot be read the loop stops,
    having emitted [deviceConnected] events only. *)
Lemma noteDevices_unreadable ds : forall cur st,
  ~ Forall (fun device => device <> JNull /\ device <> JUndefined) ds ->
  exists cur' connects,
    Forall is_deviceConnected connects /\
    noteDevices (cur, st) ds = (cur', with_emitted (emitted st ++ connects) st, true).
Proof.
  induction ds as [|d ds IH]; intros cur st Hds; [by destruct Hds|].
  cbn [noteDevices].
  assert (Hstop : exists cur', (cur, st, true) =
                    (cur', with_emitted (emitted st ++ []) st, true)).
  { exists cur. rewrite app_nil_r. by destruct st. }
  destruct d as [| |b|z|s|items|fields]; cbn [noteDevice];
    try (destruct Hstop as [cur' ->]; by exists cur', []).
  all: set (v := get _ "serialNumber").
  all: assert (Hrest : ~ Forall (fun device => device <> JNull /\ device <> JUndefined) ds)
         by (intros H; apply Hds; by constructor).
  all: destruct (noteSerial (cur, st) v) as [cur1 st1] eqn:Hnote.
  all: assert (Hst1 : exists connects1, Forall is_deviceConnected connects1 /\
                        st1 = with_emitted (emitted st ++ connects1) st).
  all: try (unfold noteSerial in Hnote; destruct (truthy v);
            [destruct (negb (set_has (to_String v) (connectedDevices st)));
             injection Hnote as <- <-;
             [exists [DeviceConnected (to_String v)]; by repeat constructor
             |exists []; split; [constructor|]; rewrite app_nil_r; by destruct st]
            |injection Hnote as <- <-; exists []; split; [constructor|];
             rewrite app_nil_r; by destruct st]).
  all: destruct Hst1 as (connects1 & Hall1 & ->).
  all: destruct (IH cur1 (with_emitted (emitted st ++ connects1) st) Hrest)
         as (cur' & connects & Hall & ->).
  all: exists cur', (connects1 ++ connects); split; [by apply Forall_app|];
         cbn; by rewrite <- app_assoc.
Qed.


Lemma lookup_None_weaken {V} (m1 m2 : gmap string V) k :
  m1 ⊆ m2 -> m2 !! k = None -> m1 !! k = None.
Proof.
  intros Hsub Hn. destruct (m1 !! k) as [v|] eqn:Hv; [|done].
  by rewrite (lookup_weaken _ _ _ _ Hv Hsub) in Hn.
Qed.

Lemma pruned_refl st : pruned st st.
Proof. repeat split; try done. intros k Hk. by left. Qed.

Lemma pruned_trans st1 st2 st3 : pruned st1 st2 -> pruned st2 st3 -> pruned st1 st3.
Proof.
  intros (Ha & Hq & Hl & He & Hgone) (Ha' & Hq' & Hl' & He' & Hgone').
  repeat split; try (by etrans).
  intros k Hk. destruct (Hgone' k Hk) as [Hk2|Hrest]; [|by right].
  destruct (Hgone k Hk2) as [?|(? & ? & ?)]; [by left|right].
  repeat split; by eapply lookup_None_weaken.
Qed.

Lemma removeKey_tables st k :
  activeKeys (removeKey st k) = delete k (activeKeys st) /\
  renderQueue (removeKey st k) = delete k (renderQueue st) /\
  lastRenderTime (removeKey st k) = delete k (lastRenderTime st) /\
  errorCounts (removeKey st k) = delete k (errorCounts st) /\
  emitted (removeKey st k) = emitted st /\
  connectedDevices (removeKey st k) = connectedDevices st.
Proof.
  unfold removeKey. destruct (renderQueue st !! k) as [task|] eqn:Hq; cbn.
  - by destruct (timeout task).
  - repeat split; try done. symmetry. by apply delete_id.
Qed.

Lemma removeKey_pruned st k : pruned st (removeKey st k).
Proof.
  destruct (removeKey_tables st k) as (Ha & Hq & Hl & He & _).
  unfold pruned. rewrite Ha, Hq, Hl, He.
  repeat split; try apply delete_subseteq.
  intros k'. rewrite !lookup_delete. case_decide; [by right|by left].
Qed.

Lemma removeKey_fold ks : forall st,
  pruned st (foldl removeKey st ks) /\
  (forall k, k ∈ ks -> activeKeys (foldl removeKey st ks) !! k = None) /\
  (forall k, k ∉ ks -> activeKeys (foldl removeKey st ks) !! k = activeKeys st !! k) /\
  emitted (foldl removeKey st ks) = emitted st /\
  connectedDevices (foldl removeKey st ks) = connectedDevices st.
Proof.
  induction ks as [|k0 ks IH]; intros st; cbn [foldl].
  - split; [apply pruned_refl|]. repeat split; try done. by intros k ?%elem_of_nil.
  - destruct (IH (removeKey st k0)) as (Hp & Hin & Hout & He & Hc).
    destruct (removeKey_tables st k0) as (Ha0 & _ & _ & _ & He0 & Hc0).
    split; [by eapply pruned_trans; [apply removeKey_pruned|]|].
    split; [|split; [|split; congruence]].
    + intros k [->|Hk]%elem_of_cons; [|by apply Hin].
      eapply lookup_None_weaken; [apply Hp|]. rewrite Ha0. apply lookup_delete_eq.
    + intros k [Hne Hk]%not_elem_of_cons. rewrite Hout by done.
      rewrite Ha0. by apply lookup_delete_ne.
Qed.



Lemma append_cons c s t : String c s +:+ t = String c (s +:+ t).
Proof. reflexivity. Qed.

Lemma append_assoc a b c : (a +:+ b) +:+ c = a +:+ b +:+ c.
Proof.
  induction a as [|x a IH]; [reflexivity|].
  rewrite !append_cons. by f_equal.
Qed.




(** The other writer of [connectedDevices] keeps it free of duplicates
    too. *)
Lemma registerKeys_NoDup st serialNumber keys :
  NoDup (connectedDevices st) -> NoDup (connectedDevices (registerKeys st serialNumber keys)).
Proof.
  intros Hnd. unfold registerKeys.
  set (st1 := if negb (isDeviceConnected st (to_String serialNumber)) then _ else st).
  assert (H1 : NoDup (connectedDevices st1)).
  { subst st1. destruct (negb _); [|done]. cbn. by apply NoDup_set_add. }
  clearbody st1. revert st1 H1. induction keys as [|key keys IH]; intros st1 H1; [done|].
  cbn [foldl]. by apply IH.
Qed.


(** A report with an entry that is [null] or [undefined] makes
    [handleDeviceStatus] throw in its first loop: no device is disconnected,
    no widget removed, and the set of connected devices stays as it was. *)
Lemma handleDeviceStatus_unreadable st ds :
  ~ readable (DeviceArray ds) ->
  let st' := handleDeviceStatus st (DeviceArray ds) in
  handleDeviceStatus_throws st (DeviceArray ds) = true /\
  connectedDevices st' = connectedDevices st /\ activeKeys st' = activeKeys st /\
  exists connects, Forall is_deviceConnected connects /\ emitted st' = emitted st ++ connects.
Proof.
  intros Hbad st'. subst st'. unfold handleDeviceStatus, handleDeviceStatus_throws.
  destruct (noteDevices_unreadable ds [] st Hbad) as (cur' & connects & Hall & ->).
  cbn. split_and!; try done. by exists connects.
Qed.

End DeviceFacts.

(** ** Render throttling *)

Section ThrottleFacts.
Import Js KeyService.

Lemma cancel_queued_fields st keyId :
  let st0 := cancel_queued st keyId in
  opts st0 = opts st /\ lastRenderTime st0 = lastRenderTime st /\
  renderQueue st0 = renderQueue st /\ nextTimer st0 = nextTimer st /\
  drawn st0 = drawn st /\ emitted st0 = emitted st /\ plugin st0 = plugin st /\
  activeKeys st0 = activeKeys st /\
  sublist (timers st0) (timers st).
Proof.
  unfold cancel_queued. destruct (renderQueue st !! keyId) as [task|]; [|done].
  destruct (timeout task) as [h|]; cbn; [|done].
  repeat split; try done. apply List_filter_sublist.
Qed.

Lemma isThrottled_delay st keyId now :
  isThrottled st keyId now = (0 <? getThrottleDelay st keyId now).
Proof.
  unfold isThrottled, getThrottleDelay.
  destruct (lastRenderTime st !! keyId) as [t|]; [|done].
  destruct (t =? 0); [done|]. cbn zeta.
  destruct (Z.ltb_spec (now - t) (throttleInterval (opts st)));
    destruct (Z.ltb_spec 0 (Z.max 0 (throttleInterval (opts st) - (now - t)))); lia.
Qed.

(** A request inside the throttle window is queued behind a timer that is
    due when the window ends; nothing is drawn. *)
Lemma queueRender_in_window st keyId payload now t :
  lastRenderTime st !! keyId = Some t -> t <> 0 ->
  now - t < throttleInterval (opts st) ->
  let st0 := cancel_queued st keyId in
  let st' := (queueRender st keyId payload now).1 in
  (queueRender st keyId payload now).2 = None /\
  timers st' = timers st0 ++
    [{| handle := nextTimer st;
        due := now + Z.max 0 (throttleInterval (opts st) - (now - t));
        run := RenderCallback keyId payload |}] /\
  nextTimer st' = S (nextTimer st) /\
  renderQueue st' !! keyId =
    Some {| KeyService.keyId := keyId; renderData := payload; timestamp := now;
            timeout := Some (nextTimer st) |} /\
  lastRenderTime st' = lastRenderTime st /\ opts st' = opts st /\
  drawn st' = drawn st /\ emitted st' = emitted st /\ plugin st' = plugin st.
Proof.
  intros Ht Ht0 Hwin st0 st'.
  destruct (cancel_queued_fields st keyId) as (Ho & Hl & Hq & Hn & Hd & He & Hp & _ & _).
  fold st0 in Ho, Hl, Hq, Hn, Hd, He, Hp.
  assert (Hdelay : getThrottleDelay st0 keyId now =
                   Z.max 0 (throttleInterval (opts st) - (now - t))).
  { unfold getThrottleDelay. rewrite Hl, Ht, Ho.
    destruct (Z.eqb_spec t 0); [done|done]. }
  subst st'. unfold queueRender. fold (cancel_queued st keyId). fold st0.
  rewrite Hdelay.
  destruct (Z.ltb_spec 0 (Z.max 0 (throttleInterval (opts st) - (now - t)))); [|lia].
  cbn. rewrite Hn, lookup_insert_eq. by repeat split.
Qed.

Lemma filter_nil_sublist {A} (f : A -> bool) (l l' : list A) :
  sublist l' l -> List.filter f l = [] -> List.filter f l' = [].
Proof.
  induction 1 as [|x l1 l2 _ IH|x l1 l2 _ IH]; simpl; [done| |].
  - destruct (f x); [done|]. apply IH.
  - destruct (f x); [done|]. apply IH.
Qed.

Lemma find_app_fresh (l : list timer) (t : timer) :
  Forall (fun t' => (handle t' < handle t)%nat) l ->
  List.find (fun t' => Nat.eqb (handle t') (handle t)) (l ++ [t]) = Some t /\
  List.filter (fun t' => negb (Nat.eqb (handle t') (handle t))) (l ++ [t]) = l.
Proof.
  induction 1 as [|x l Hx _ [IH1 IH2]]; simpl.
  - by rewrite Nat.eqb_refl.
  - destruct (Nat.eqb_spec (handle x) (handle t)); [lia|]. simpl. by rewrite IH1, IH2.
Qed.

Lemma Forall_sublist {A} (P : A -> Prop) (l l' : list A) :
  sublist l' l -> Forall P l -> Forall P l'.
Proof.
  intros Hs. rewrite !Forall_forall. intros H x Hx.
  apply H. by apply (sublist_subseteq _ _ Hs).
Qed.

Lemma executeRender_timers st keyId payload now :
  timers (executeRender st keyId payload now).1 = timers st.
Proof.
  unfold executeRender. destruct (KeyId.decode keyId) as [sn ku].
  by destruct (draw_attempt _ sn payload now) as [call [message|]].
Qed.

Lemma updateKey_throttled st serialNumber keyUid data renderOptions now :
  isThrottled st (KeyId.encode serialNumber keyUid) now = true ->
  updateKey st serialNumber keyUid data renderOptions now = (st, false).
Proof.
  intros Hth. unfold updateKey.
  destruct (negb (isDeviceConnected st serialNumber)); [done|].
  destruct (activeKeys st !! KeyId.encode serialNumber keyUid); [|done].
  by rewrite Hth.
Qed.

(** C1 (amended): a render request made through [queueRender] while the
    widget's last render attempt is less than [throttleInterval] old is not
    executed; it is put behind a timer due [throttleInterval - elapsed] later.
    A second such request inside the window cancels that timer and takes its
    place, so that one render is pending, it carries the later payload, and
    when its timer fires that payload is rendered and nothing is left pending.
    A request made through [updateKey] inside the window is dropped: the
    service is unchanged and [false] is returned. *)
Theorem throttle_schedules_and_coalesces st keyId payloadA payloadB now1 now2 t :
  lastRenderTime st !! keyId = Some t -> t <> 0 ->
  now1 <= now2 -> now2 - t < throttleInterval (opts st) ->
  handles_fresh st -> pending_renders keyId st = [] ->
  let st1 := (queueRender st keyId payloadA now1).1 in
  let st2 := (queueRender st1 keyId payloadB now2).1 in
  let timerA := {| handle := nextTimer st;
                   due := now1 + (throttleInterval (opts st) - (now1 - t));
                   run := RenderCallback keyId payloadA |} in
  let timerB := {| handle := S (nextTimer st);
                   due := now2 + (throttleInterval (opts st) - (now2 - t));
                   run := RenderCallback keyId payloadB |} in
  (pending_renders keyId st1 = [timerA] /\ drawn st1 = drawn st) /\
  (pending_renders keyId st2 = [timerB] /\ drawn st2 = drawn st) /\
  (forall now3, due timerB <= now3 ->
     fire st2 (handle timerB) now3 =
       (executeRender (clearTimeout (Some (handle timerB)) st2) keyId payloadB now3).1 /\
     pending_renders keyId (fire st2 (handle timerB) now3) = []) /\
  (forall serialNumber keyUid data renderOptions now,
     isThrottled st (KeyId.encode serialNumber keyUid) now = true ->
     updateKey st serialNumber keyUid data renderOptions now = (st, false)).
Proof.
  intros Ht Ht0 Hle Hwin Hfresh Hnone st1 st2 timerA timerB.
  destruct (cancel_queued_fields st keyId) as (_ & _ & _ & _ & _ & _ & _ & _ & Hsub0).
  destruct (queueRender_in_window st keyId payloadA now1 t Ht Ht0 ltac:(lia))
    as (_ & Htm1 & Hn1 & Hq1 & Hl1 & Ho1 & Hd1 & He1 & Hp1).
  fold st1 in Htm1, Hn1, Hq1, Hl1, Ho1, Hd1, He1, Hp1.
  rewrite Z.max_r in Htm1 by lia. fold timerA in Htm1.
  assert (HfreshA : Forall (fun t' => (handle t' < handle timerA)%nat)
                           (timers (cancel_queued st keyId))).
  { eapply Forall_sublist; [apply Hsub0|apply Hfresh]. }
  assert (Hcancel1 : timers (cancel_queued st1 keyId) = timers (cancel_queued st keyId)).
  { unfold cancel_queued at 1. rewrite Hq1. cbn. rewrite Htm1.
    apply (find_app_fresh _ timerA HfreshA). }
  destruct (queueRender_in_window st1 keyId payloadB now2 t) as
    (_ & Htm2 & Hn2 & Hq2 & Hl2 & Ho2 & Hd2 & He2 & Hp2);
    [by rewrite Hl1|done|by rewrite Ho1|].
  fold st2 in Htm2, Hn2, Hq2, Hl2, Ho2, Hd2, He2, Hp2.
  rewrite Ho1, Hn1, Hcancel1 in Htm2. rewrite Z.max_r in Htm2 by lia. fold timerB in Htm2.
  assert (Hclean : List.filter (is_render_of keyId) (timers (cancel_queued st keyId)) = []).
  { eapply filter_nil_sublist; [apply Hsub0|apply Hnone]. }
  split; [|split; [|split; [|by intros; apply updateKey_throttled]]].
  - split; [|done]. unfold pending_renders. rewrite Htm1, List.filter_app, Hclean.
    cbn. unfold is_render_of. cbn. by rewrite String.eqb_refl.
  - split; [|congruence]. unfold pending_renders. rewrite Htm2, List.filter_app, Hclean.
    cbn. unfold is_render_of. cbn. by rewrite String.eqb_refl.
  - intros now3 Hdue.
    assert (HfreshB : Forall (fun t' => (handle t' < handle timerB)%nat)
                             (timers (cancel_queued st keyId))).
    { eapply Forall_impl; [apply HfreshA|]. cbn. intros; lia. }
    destruct (find_app_fresh _ timerB HfreshB) as [Hfind Hfilter].
    assert (Hfire : fire st2 (handle timerB) now3 =
              (executeRender (clearTimeout (Some (handle timerB)) st2) keyId payloadB now3).1).
    { unfold fire. rewrite Htm2, Hfind.
      destruct (Z.ltb_spec now3 (due timerB)); [lia|]. done. }
    split; [exact Hfire|]. rewrite Hfire.
    unfold pending_renders. rewrite executeRender_timers.
    unfold clearTimeout. cbn [timers with_timers]. rewrite Htm2, Hfilter. exact Hclean.
Qed.

Lemma throttle_schedules_and_coalesces_witness :
  let st := rendered_at_5000 in
  let st1 := (queueRender st "SN1-7" (JStr "A") 5020).1 in
  let st2 := (queueRender st1 "SN1-7" (JStr "B") 5050).1 in
  lastRenderTime st !! "SN1-7" = Some 5000 /\
  handles_fresh st /\ pending_renders "SN1-7" st = [] /\
  pending_renders "SN1-7" st2 =
    [{| handle := 1%nat; due := 5050 + (100 - (5050 - 5000));
        run := RenderCallback "SN1-7" (JStr "B") |}] /\
  drawn st2 = drawn st.
Proof.
  intros st st1 st2.
  assert (Hl : lastRenderTime st !! "SN1-7" = Some 5000) by (vm_compute; reflexivity).
  assert (Hf : handles_fresh st) by (unfold handles_fresh; vm_compute; constructor).
  assert (Hp : pending_renders "SN1-7" st = []) by (vm_compute; reflexivity).
  split; [exact Hl|]. split; [exact Hf|]. split; [exact Hp|].
  destruct (throttle_schedules_and_coalesces st "SN1-7" (JStr "A") (JStr "B") 5020 5050 5000
              Hl ltac:(lia) ltac:(lia) ltac:(vm_compute; reflexivity) Hf Hp)
    as (_ & H2 & _).
  exact H2.
Defined.

(** C1 as stated fails: of two [updateKey] requests 50 ms apart, the first
    is rendered at once and the second, inside the throttle window, is neither
    executed nor scheduled; the one render that executes carries the earlier
    payload. *)
Lemma throttled_update_is_dropped :
  let st := rendered_at_5000 in
  let r := updateKey st "SN1" "7" image_B JUndefined 5050 in
  lastRenderTime st !! "SN1-7" = Some 5000 /\
  r.2 = false /\
  timers r.1 = [] /\
  map base64 (drawn r.1) = [Some "data:image/png;base64,AAAA"].
Proof. vm_compute. repeat split; reflexivity. Qed.

End ThrottleFacts.

(** ** Retry and backoff *)

Section RetryFacts.
Import Js KeyService.

Context (serial uid : string).
Let keyId := KeyId.encode serial uid.

Lemma draw_attempt_plugin st st' sn rd now :
  plugin st' = plugin st -> draw_attempt st' sn rd now = draw_attempt st sn rd now.
Proof. intros H. unfold draw_attempt. by rewrite H. Qed.

Lemma draws_fail_plugin st st' : plugin st' = plugin st -> draws_fail st -> draws_fail st'.
Proof.
  intros H Hf sn rd now. destruct (Hf sn rd now) as (m & Hm & Ht).
  exists m. by rewrite (draw_attempt_plugin st st').
Qed.

(** One [handleKeyError] on a registered widget with a transient error, in
    any state and for any options: a retry is set [retryDelay * errorCount]
    ahead as long as the new error count is within [maxRetries]; beyond it the
    widget is marked [failed] and no timer is set. *)
Lemma handleKeyError_transient st message now kd :
  activeKeys st !! keyId = Some kd ->
  transient message = true ->
  let count := default 0 (errorCounts st !! keyId) + 1 in
  let st' := handleKeyError st keyId message now in
  errorCounts st' !! keyId = Some count /\
  (count <= maxRetries (opts st) ->
     timers st' = timers st ++
       [{| handle := nextTimer st; due := now + retryDelay (opts st) * count;
           run := RetryCallback keyId (serialNumber kd) (keyUid kd) |}] /\
     activeKeys st' = activeKeys st) /\
  (maxRetries (opts st) < count ->
     timers st' = timers st /\
     activeKeys st' = alter (key_with_state failed) keyId (activeKeys st)).
Proof.
  intros Hkd Htr count st'. subst st'. unfold handleKeyError.
  cbn -[includes alter]. rewrite Hkd.
  unfold transient in Htr. apply negb_true_iff in Htr. rewrite Htr. fold count.
  destruct (Z.leb_spec count (maxRetries (opts st))); cbn;
    rewrite lookup_insert_eq; repeat split; try done; lia.
Qed.

Lemma prepareRenderData_prepared kd renderOptions :
  (exists fields, config kd = JObj fields) -> renderOptions <> JNull ->
  prepareRenderData_throws kd renderOptions = None.
Proof.
  intros [fields Hcfg] Hro. unfold prepareRenderData_throws. rewrite Hcfg.
  by destruct renderOptions.
Qed.

(** What one failing [updateKey] does: the error is counted and reported,
    and either one retry joins the pending timers or the widget is marked
    [failed]. *)
Lemma updateKey_fails st data renderOptions now kd :
  isDeviceConnected st serial = true ->
  activeKeys st !! keyId = Some kd ->
  serialNumber kd = serial -> keyUid kd = uid ->
  isThrottled st keyId now = false ->
  prepareRenderData_throws kd renderOptions = None ->
  draws_fail st ->
  let count := default 0 (errorCounts st !! keyId) + 1 in
  let st' := (updateKey st serial uid data renderOptions now).1 in
  let base := timers (cancel_queued st keyId) in
  (updateKey st serial uid data renderOptions now).2 = false /\
  errorCounts st' !! keyId = Some count /\
  lastRenderTime st' !! keyId = Some now /\
  key_error_times (emitted st') = key_error_times (emitted st) ++ [now] /\
  connectedDevices st' = connectedDevices st /\
  opts st' = opts st /\ plugin st' = plugin st /\
  truthy (StateManager.getKeyState (stateManager st') uid) = true /\
  renderQueue st' !! keyId = None /\
  (count <= maxRetries (opts st) ->
     timers st' = base ++
       [{| handle := nextTimer st; due := now + retryDelay (opts st) * count;
           run := RetryCallback keyId serial uid |}] /\
     nextTimer st' = S (nextTimer st) /\
     activeKeys st' = activeKeys st) /\
  (maxRetries (opts st) < count ->
     timers st' = base /\
     nextTimer st' = nextTimer st /\
     activeKeys st' = alter (key_with_state failed) keyId (activeKeys st)).
Proof.
  intros Hconn Hkd Hsn Huid Hth Hprep Hfail count st' base.
  subst st'. unfold updateKey. fold keyId. rewrite Hconn, Hkd, Hth, Hprep. cbn [negb].
  set (sm := StateManager.updateKeyState (stateManager st) uid data now).
  set (rd := prepareRenderData kd data renderOptions).
  set (st1 := with_stateManager sm st).
  assert (Hdelay : getThrottleDelay (cancel_queued st1 keyId) keyId now <= 0).
  { pose proof (isThrottled_delay st keyId now) as Hd. rewrite Hth in Hd.
    symmetry in Hd. apply Z.ltb_ge in Hd.
    unfold cancel_queued. destruct (renderQueue st1 !! keyId) as [task|]; [|exact Hd].
    by destruct (timeout task). }
  assert (Hbase : timers (cancel_queued st1 keyId) = base).
  { subst base. unfold cancel_queued. change (renderQueue st1) with (renderQueue st).
    destruct (renderQueue st !! keyId) as [task|]; [|done]. by destruct (timeout task). }
  assert (Hrest : errorCounts (cancel_queued st1 keyId) = errorCounts st /\
                  activeKeys (cancel_queued st1 keyId) = activeKeys st /\
                  opts (cancel_queued st1 keyId) = opts st /\
                  plugin (cancel_queued st1 keyId) = plugin st /\
                  emitted (cancel_queued st1 keyId) = emitted st /\
                  connectedDevices (cancel_queued st1 keyId) = connectedDevices st /\
                  nextTimer (cancel_queued st1 keyId) = nextTimer st /\
                  stateManager (cancel_queued st1 keyId) = sm).
  { unfold cancel_queued. destruct (renderQueue st1 !! keyId) as [task|]; [|done].
    by destruct (timeout task). }
  unfold queueRender. fold (cancel_queued st1 keyId).
  set (st1c := cancel_queued st1 keyId) in *.
  destruct Hrest as (Hec & Hak & Ho & Hp & Hem & Hcd & Hnt & Hsmc).
  destruct (Z.ltb_spec 0 (getThrottleDelay st1c keyId now)); [lia|].
  unfold executeRender. destruct (KeyId.decode keyId) as [sn ku].
  set (st2 := with_lastRenderTime _ st1c).
  destruct (Hfail sn rd now) as (m & Hm & Htr).
  rewrite (draw_attempt_plugin st st2) by done.
  destruct (draw_attempt st sn rd now) as [call err]. cbn in Hm. subst err.
  cbn [fst snd].
  unfold handleKeyError.
  cbn -[includes alter]. rewrite Hak, Hkd, Hec, Ho.
  unfold transient in Htr. apply negb_true_iff in Htr. rewrite Htr.
  fold count. rewrite Hsn, Huid.
  assert (Htimes : forall l, key_error_times (l ++ [KeyError sn ku m now]) =
                             key_error_times l ++ [now]).
  { intros l. unfold key_error_times. by rewrite omap_app. }
  assert (Hsm : truthy (StateManager.getKeyState sm uid) = true).
  { subst sm. unfold StateManager.getKeyState, StateManager.updateKeyState, map_get, js_or.
    cbn [StateManager.keys StateManager.markDirty StateManager.with_keys
         StateManager.with_isDirty].
    by rewrite lookup_insert_eq. }
  destruct (Z.leb_spec count (maxRetries (opts st))).
  - cbn. rewrite !lookup_insert_eq, lookup_delete_eq, Htimes, Hbase, Hem, Hcd, Hnt, Hsmc, Hak.
    repeat split; try done; lia.
  - cbn. rewrite !lookup_insert_eq, lookup_delete_eq, Htimes, Hbase, Hem, Hcd, Hnt, Hsmc, Hak.
    repeat split; try done; lia.
Qed.

(** A pending retry fires: it is the [updateKey] of the closure, on the
    service without that timer. *)
Lemma fire_retry st base h t T k :
  timers st = base ++ [{| handle := h; due := T + retryDelay (opts st) * k;
                          run := RetryCallback keyId serial uid |}] ->
  Forall (fun tm => (handle tm < h)%nat) base ->
  T + retryDelay (opts st) * k <= t ->
  truthy (StateManager.getKeyState (stateManager st) uid) = true ->
  fire st h t =
    (updateKey (with_timers base st) serial uid
               (StateManager.getKeyState (stateManager st) uid) JUndefined t).1.
Proof.
  intros Htm Hfresh Hdue Hcached.
  set (tm := {| handle := h; due := T + retryDelay (opts st) * k;
                run := RetryCallback keyId serial uid |}) in *.
  destruct (find_app_fresh base tm Hfresh) as [Hfind Hfilter].
  unfold fire. rewrite Htm. change h with (handle tm). rewrite Hfind. cbn [due run tm].
  destruct (Z.ltb_spec t (T + retryDelay (opts st) * k)); [lia|].
  unfold clearTimeout. rewrite Htm. change h with (handle tm). rewrite Hfilter.
  cbn [stateManager with_timers]. by rewrite Hcached.
Qed.

Lemma retry_chain_from : forall times st k T h base kd,
  1 <= k -> k <= maxRetries (opts st) ->
  Z.of_nat (length times) = maxRetries (opts st) - k + 1 ->
  on_schedule (retryDelay (opts st)) T k times ->
  0 < retryDelay (opts st) -> throttleInterval (opts st) <= retryDelay (opts st) ->
  isDeviceConnected st serial = true ->
  activeKeys st !! keyId = Some kd -> serialNumber kd = serial -> keyUid kd = uid ->
  prepareRenderData_throws kd JUndefined = None ->
  errorCounts st !! keyId = Some k ->
  lastRenderTime st !! keyId = Some T ->
  renderQueue st !! keyId = None ->
  timers st = base ++ [{| handle := h; due := T + retryDelay (opts st) * k;
                          run := RetryCallback keyId serial uid |}] ->
  nextTimer st = S h ->
  Forall (fun tm => (handle tm < h)%nat) base ->
  List.filter (is_retry_of keyId) base = [] ->
  truthy (StateManager.getKeyState (stateManager st) uid) = true ->
  draws_fail st ->
  let r := run_retries keyId st T times in
  r.2 = linear_backoff (retryDelay (opts st)) k (length times) /\
  timers r.1 = base /\
  state <$> activeKeys r.1 !! keyId = Some failed /\
  key_error_times (emitted r.1) = key_error_times (emitted st) ++ times /\
  errorCounts r.1 !! keyId = Some (maxRetries (opts st) + 1).
Proof.
  induction times as [|t rest IH];
    intros st k T h base kd Hk1 Hkmax Hlen Hsched Hd Hthr Hconn Hkd Hsn Huid Hprep Hcount
           Hlast Hqueue Htm Hnext Hfresh Hnone Hcached Hfail r.
  { cbn in Hlen. lia. }
  destruct Hsched as [Hdue Hrest].
  subst r. cbn [run_retries]. unfold pending_retries.
  rewrite Htm, List.filter_app, Hnone. cbn [List.filter app is_retry_of run].
  rewrite String.eqb_refl. cbn [handle due].
  rewrite (fire_retry st base h t T k Htm Hfresh Hdue Hcached).
  set (st0 := with_timers base st).
  set (cached := StateManager.getKeyState (stateManager st) uid).
  assert (Hth0 : isThrottled st0 keyId t = false).
  { unfold isThrottled. subst st0. cbn. rewrite Hlast.
    destruct (T =? 0); [done|]. apply Z.ltb_ge. nia. }
  destruct (updateKey_fails st0 cached JUndefined t kd Hconn Hkd Hsn Huid Hth0 Hprep
              (draws_fail_plugin st st0 eq_refl Hfail))
    as (_ & Hc' & Hl' & He' & Hcd' & Ho' & Hp' & Hsm' & Hq' & Hretry & Hgiveup).
  assert (Hbase0 : timers (cancel_queued st0 keyId) = base).
  { unfold cancel_queued. change (renderQueue st0) with (renderQueue st). by rewrite Hqueue. }
  rewrite Hbase0 in Hretry, Hgiveup.
  change (errorCounts st0) with (errorCounts st) in *.
  change (opts st0) with (opts st) in *.
  change (emitted st0) with (emitted st) in *.
  change (activeKeys st0) with (activeKeys st) in *.
  change (nextTimer st0) with (nextTimer st) in *.
  rewrite Hcount in *. cbn [default from_option id] in *.
  set (st' := (updateKey st0 serial uid cached JUndefined t).1) in *.
  destruct (Z.le_gt_cases (k + 1) (maxRetries (opts st))) as [Hmore|Hlast_retry].
  - destruct (Hretry Hmore) as (Htm' & Hnext' & Hak').
    specialize (IH st' (k + 1) t (nextTimer st) base kd).
    rewrite Ho', Hak' in IH.
    destruct IH as (Hdelays & Htimers & Hstate & Hevents & Herrors); try done; try lia.
    { cbn in Hlen. lia. }
    { unfold isDeviceConnected. by rewrite Hcd'. }
    { eapply Forall_impl; [apply Hfresh|]. cbn. intros; lia. }
    { by eapply draws_fail_plugin. }
    destruct (run_retries keyId st' t rest) as [st'' delays]. cbn [fst snd] in *.
    split; [|split; [done|split; [done|split; [|done]]]].
    + cbn [length linear_backoff]. rewrite Hdelays. f_equal. lia.
    + rewrite Hevents, He', <- app_assoc. done.
  - destruct (Hgiveup ltac:(lia)) as (Htm' & _ & Hak').
    destruct rest as [|t' rest']; [|cbn in Hlen; lia].
    cbn [run_retries fst snd length linear_backoff].
    split; [f_equal; lia|]. split; [done|]. split; [|split; [done|]].
    + rewrite Hak', lookup_alter_eq, Hkd. done.
    + rewrite Hc'. f_equal. lia.
Qed.

Lemma linear_backoff_increasing d from n i a b :
  0 < d ->
  linear_backoff d from n !! i = Some a ->
  linear_backoff d from n !! S i = Some b ->
  a < b.
Proof.
  intros Hd. revert from i. induction n as [|n IH]; intros from i; cbn; [done|].
  destruct i as [|i]; cbn.
  - intros [= <-]. destruct n; cbn; [done|]. intros [= <-]. lia.
  - apply IH.
Qed.

Lemma performCleanup_removes_failed st now k kd :
  activeKeys st !! k = Some kd -> state kd = failed ->
  activeKeys (performCleanup st now) !! k = None.
Proof.
  intros Hkd Hfailed. unfold performCleanup.
  set (ks := (List.filter _ (map_to_list (activeKeys st))).*1).
  destruct (removeKey_fold ks st) as (_ & Hin & _).
  cbn. apply Hin. subst ks.
  apply list_elem_of_fmap. exists (k, kd). split; [done|].
  apply list_elem_of_In, filter_In. split.
  - by apply list_elem_of_In, elem_of_map_to_list.
  - cbn. rewrite Hfailed. by rewrite orb_true_r.
Qed.

(** C5 (amended): a registered widget of a connected device, with no error
    counted and no retry pending, whose every draw fails with a transient
    error, in a service whose throttle window is not longer than its retry
    delay (as in the default options).  [updateKey], called at [T0] outside the
    throttle window with the uid the widget was registered under and render
    options other than [null], fails, and the retry that each failure sets
    fires at the next of [times] (none before it is due).  Exactly
    [maxRetries] of them fire; the delay each one was given is [retryDelay]
    times the error count at which it was set, so the delays are
    [retryDelay; 2 retryDelay; ...] and strictly increase; every firing is one
    more failed render.  After the last one the error count exceeds
    [maxRetries]: the widget is [failed], no retry of it is pending (the
    pending timers are those of before, less the widget's queued render, which
    [updateKey] cancels), and [performCleanup] removes it. *)
Theorem retry_backoff_then_failed st data renderOptions T0 times kd :
  isDeviceConnected st serial = true ->
  activeKeys st !! keyId = Some kd -> serialNumber kd = serial -> keyUid kd = uid ->
  (exists fields, config kd = JObj fields) -> renderOptions <> JNull ->
  isThrottled st keyId T0 = false ->
  handles_fresh st -> pending_retries keyId st = [] ->
  errorCounts st !! keyId = None ->
  draws_fail st ->
  0 < retryDelay (opts st) -> throttleInterval (opts st) <= retryDelay (opts st) ->
  Z.of_nat (length times) = maxRetries (opts st) ->
  on_schedule (retryDelay (opts st)) T0 1 times ->
  let st1 := (updateKey st serial uid data renderOptions T0).1 in
  let r := run_retries keyId st1 T0 times in
  (updateKey st serial uid data renderOptions T0).2 = false /\
  r.2 = linear_backoff (retryDelay (opts st)) 1 (length times) /\
  (forall i a b, r.2 !! i = Some a -> r.2 !! S i = Some b -> a < b) /\
  key_error_times (emitted r.1) = key_error_times (emitted st) ++ T0 :: times /\
  errorCounts r.1 !! keyId = Some (maxRetries (opts st) + 1) /\
  state <$> activeKeys r.1 !! keyId = Some failed /\
  pending_retries keyId r.1 = [] /\
  timers r.1 = timers (cancel_queued st keyId) /\
  (forall t, run_retries keyId r.1 (default T0 (last times)) [t] = (r.1, [])) /\
  (forall now, activeKeys (performCleanup r.1 now) !! keyId = None).
Proof.
  intros Hconn Hkd Hsn Huid Hcfg Hro Hth Hfresh Hnone Hcount Hfail Hd Hthr Hlen Hsched st1 r.
  pose proof (prepareRenderData_prepared kd renderOptions Hcfg Hro) as Hprep.
  assert (Hprep' : prepareRenderData_throws kd JUndefined = None)
    by (by apply prepareRenderData_prepared).
  destruct (updateKey_fails st data renderOptions T0 kd Hconn Hkd Hsn Huid Hth Hprep Hfail)
    as (Hres & Hc1 & Hl1 & He1 & Hcd1 & Ho1 & Hp1 & Hsm1 & Hq1 & Hretry & Hgiveup).
  rewrite Hcount in *. cbn [default from_option id] in *.
  fold st1 in Hc1, Hl1, He1, Hcd1, Ho1, Hp1, Hsm1, Hq1, Hretry, Hgiveup.
  set (base := timers (cancel_queued st keyId)) in *.
  destruct (cancel_queued_fields st keyId) as (_ & _ & _ & _ & _ & _ & _ & _ & Hsub).
  fold base in Hsub.
  assert (Hbfresh : Forall (fun tm => (handle tm < nextTimer st)%nat) base).
  { eapply Forall_sublist; [apply Hsub|apply Hfresh]. }
  assert (Hbnone : List.filter (is_retry_of keyId) base = []).
  { eapply filter_nil_sublist; [apply Hsub|apply Hnone]. }
  assert (Hmain :
    r.2 = linear_backoff (retryDelay (opts st)) 1 (length times) /\
    timers r.1 = base /\
    state <$> activeKeys r.1 !! keyId = Some failed /\
    key_error_times (emitted r.1) = key_error_times (emitted st) ++ T0 :: times /\
    errorCounts r.1 !! keyId = Some (maxRetries (opts st) + 1)).
  { destruct (Z.le_gt_cases 1 (maxRetries (opts st))) as [Hsome|Hnever].
    - destruct (Hretry Hsome) as (Htm1 & Hn1 & Hak1).
      destruct (retry_chain_from times st1 1 T0 (nextTimer st) base kd)
        as (H1 & H2 & H3 & H4 & H5);
        rewrite ?Ho1, ?Hak1; try done; try lia.
      { unfold isDeviceConnected. by rewrite Hcd1. }
      { by eapply draws_fail_plugin. }
      fold r in H1, H2, H3, H4, H5. rewrite Ho1 in H1, H5.
      split; [done|]. split; [done|]. split; [done|]. split; [|done].
      rewrite H4, He1, <- app_assoc. done.
    - destruct (Hgiveup ltac:(lia)) as (Htm1 & _ & Hak1).
      destruct times as [|t times]; [|cbn in Hlen; lia].
      subst r. cbn [run_retries fst snd length linear_backoff].
      rewrite Htm1, Hak1, lookup_alter_eq, Hkd, He1, Hc1.
      split; [done|]. split; [done|]. split; [done|]. split; [done|].
      f_equal. cbn in Hlen. lia. }
  destruct Hmain as (Hdelays & Htimers & Hstate & Hevents & Herrors).
  assert (Hpending : pending_retries keyId r.1 = []).
  { unfold pending_retries. by rewrite Htimers. }
  split; [done|]. split; [done|]. split.
  { intros i a b. rewrite Hdelays. by apply linear_backoff_increasing. }
  split; [done|]. split; [done|]. split; [done|]. split; [done|]. split; [done|]. split.
  - intros t. cbn [run_retries]. by rewrite Hpending.
  - intros now. destruct (activeKeys r.1 !! keyId) as [kd'|] eqn:Hkd'; [|done].
    apply (performCleanup_removes_failed _ now _ kd' Hkd'). by injection Hstate.
Qed.

End RetryFacts.

Section RetryWitness.
Import Js KeyService.

Lemma always_fails_draws_fail st message :
  plugin st = Some (always_fails message) -> transient message = true -> draws_fail st.
Proof.
  intros Hp Ht sn rd now. unfold draw_attempt. rewrite Hp.
  destruct (truthy (get rd "image")); [|by exists message].
  destruct (get rd "image"); by eauto.
Qed.

Lemma retry_backoff_then_failed_witness :
  let st := two_devices_failing in
  let st1 := (updateKey st "SN1" "7" image_A JUndefined 5000).1 in
  let r := run_retries "SN1-7" st1 5000 [6000; 8000; 11050] in
  isDeviceConnected st "SN1" = true /\
  handles_fresh st /\ pending_retries "SN1-7" st = [] /\
  draws_fail st /\
  on_schedule (retryDelay (opts st)) 5000 1 [6000; 8000; 11050] /\
  r.2 = [1000; 2000; 3000] /\
  key_error_times (emitted r.1) = [5000; 6000; 8000; 11050] /\
  errorCounts r.1 !! "SN1-7" = Some 4 /\
  state <$> activeKeys r.1 !! "SN1-7" = Some failed /\
  timers r.1 = [] /\
  activeKeys (performCleanup r.1 15000) !! "SN1-7" = None.
Proof.
  intros st st1 r.
  assert (Hh : handles_fresh st) by (unfold handles_fresh; vm_compute; constructor).
  assert (Hn : pending_retries "SN1-7" st = []) by (vm_compute; reflexivity).
  assert (Hf : draws_fail st) by (by apply (always_fails_draws_fail st "boom")).
  assert (Hs : on_schedule (retryDelay (opts st)) 5000 1 [6000; 8000; 11050])
    by (vm_compute; repeat split; discriminate).
  split; [reflexivity|]. split; [exact Hh|]. split; [exact Hn|].
  split; [exact Hf|]. split; [exact Hs|].
  destruct (retry_backoff_then_failed "SN1" "7" st image_A JUndefined 5000
              [6000; 8000; 11050]
              {| serialNumber := "SN1"; keyUid := "7";
                 config := JObj [("uid", JNum 7); ("cid", JStr "com.lol.summoner")];
                 state := inactive; lastUpdate := None; retryCount := 0 |}
              eq_refl ltac:(vm_compute; reflexivity) eq_refl eq_refl
              (ex_intro _ _ eq_refl) ltac:(discriminate)
              ltac:(vm_compute; reflexivity) Hh Hn ltac:(vm_compute; reflexivity)
              Hf ltac:(vm_compute; reflexivity) ltac:(vm_compute; discriminate)
              eq_refl Hs)
    as (_ & H1 & _ & H3 & H4 & H5 & _ & H7 & _ & H9).
  fold st1 in H1, H3, H4, H5, H7, H9. fold r in H1, H3, H4, H5, H7, H9.
  split; [exact H1|]. split; [exact H3|]. split; [exact H4|]. split; [exact H5|].
  split; [exact H7|]. apply H9.
Defined.

(** C5 as stated fails on two counts.  A draw that fails in the deferred
    render of [queueRender] (here the connection-state render of a widget
    rendered 50 ms earlier, put behind a timer that fires at 5100) is reported
    by [keyError] and nothing more: no retry is set, no error is counted, and
    the widget stays [active] through the cleanup sweep.  And in a service
    whose throttle window (5000) is longer than its retry delay (1000), the
    first retry, fired when it is due, is dropped by the throttle check of
    [updateKey]: one draw is made in all, the error count stays 1, no further
    retry is set and the widget is never [failed]. *)
Lemma failed_draw_without_retry :
  (let st := two_devices_failing_from_5050 in
   let rendered := updateKey st "SN1" "7" image_A JUndefined 5000 in
   let queued := (queueRender rendered.1 "SN1-7" offline_title 5050).1 in
   let fired := fire queued 0 5100 in
   rendered.2 = true /\
   timers queued = [{| handle := 0; due := 5100;
                       run := RenderCallback "SN1-7" offline_title |}] /\
   last (emitted fired) = Some (KeyError (Some "SN1") (Some "7") "boom" 5100) /\
   transient "boom" = true /\
   timers fired = [] /\
   errorCounts fired !! "SN1-7" = None /\
   state <$> activeKeys fired !! "SN1-7" = Some active /\
   state <$> activeKeys (performCleanup fired 6000) !! "SN1-7" = Some active) /\
  (let st := slow_throttle_failing in
   let st1 := (updateKey st "SN1" "7" image_A JUndefined 10000).1 in
   let r := run_retries "SN1-7" st1 10000 [11000; 13000; 16000] in
   isDeviceConnected st "SN1" = true /\
   maxRetries (opts st) = 3 /\
   timers st1 = [{| handle := 0; due := 11000;
                    run := RetryCallback "SN1-7" "SN1" "7" |}] /\
   r.2 = [1000] /\
   key_error_times (emitted r.1) = [10000] /\
   length (drawn r.1) = 1%nat /\
   errorCounts r.1 !! "SN1-7" = Some 1 /\
   timers r.1 = [] /\
   state <$> activeKeys r.1 !! "SN1-7" = Some inactive /\
   state <$> activeKeys (performCleanup r.1 20000) !! "SN1-7" = Some inactive).
Proof. vm_compute. repeat split; reflexivity. Qed.

End RetryWitness.

(** * Further properties of the services *)

(** ** The state store: cache, sweeps and the save protocol *)

Section StateManagerMore.
Import Js StateManager.

Lemma with_cache_same st : with_cache (cache st) st = st.
Proof. by destruct st. Qed.

Lemma with_keys_same st : with_keys (keys st) st = st.
Proof. by destruct st. Qed.

Lemma with_connections_same st : with_connections (connections st) st = st.
Proof. by destruct st. Qed.

(** X1: an entry written by [setCache] with a positive TTL is read back by
    [getCache] up to and including its expiry time, and reads as [null] (and
    is deleted) after it; written without a TTL, or with the TTL 0, it never
    expires. *)
Theorem cache_read_after_write st key data ttl t0 t :
  0 <= t0 ->
  let st' := setCache st key data ttl t0 in
  (forall d, ttl = JNum d -> 0 < d ->
     (t <= t0 + d -> getCache st' key t = (st', data)) /\
     (t0 + d < t ->
        (getCache st' key t).2 = JNull /\
        cache (getCache st' key t).1 !! key = None)) /\
  (truthy ttl = false -> getCache st' key t = (st', data)).
Proof.
  intros Ht0 st'. split.
  - intros d -> Hd. subst st'. unfold getCache, setCache, map_get, entry_expired.
    cbn -[Z.ltb Z.eqb]. rewrite lookup_insert_eq. cbn -[Z.ltb Z.eqb].
    destruct (Z.eqb_spec d 0); [lia|]. cbn -[Z.ltb Z.eqb].
    destruct (Z.eqb_spec (t0 + d) 0); [lia|]. cbn -[Z.ltb Z.eqb].
    split; intros Ht.
    + destruct (Z.ltb_spec (t0 + d) t); [lia|]. done.
    + destruct (Z.ltb_spec (t0 + d) t); [|lia]. cbn. split; [done|].
      apply lookup_delete_eq.
  - intros Hf. subst st'. unfold getCache, setCache, map_get, entry_expired.
    assert (Hp : truthy (param_default JNull ttl) = false) by (by destruct ttl).
    cbn -[Z.ltb Z.eqb]. rewrite Hp, lookup_insert_eq. done.
Qed.

Lemma cache_read_after_write_witness :
  let st' := setCache (create default_options 0) "wallet" (JNum 4800) (JNum 1000) 5000 in
  0 <= 5000 /\
  getCache st' "wallet" 6000 = (st', JNum 4800) /\
  (getCache st' "wallet" 6001).2 = JNull.
Proof.
  intros st'. split; [lia|].
  destruct (cache_read_after_write (create default_options 0) "wallet" (JNum 4800)
              (JNum 1000) 5000 6000 ltac:(lia)) as [H _].
  destruct (H 1000 eq_refl ltac:(lia)) as [Hin _].
  destruct (cache_read_after_write (create default_options 0) "wallet" (JNum 4800)
              (JNum 1000) 5000 6001 ltac:(lia)) as [H' _].
  destruct (H' 1000 eq_refl ltac:(lia)) as [_ Hout].
  split; [apply Hin; lia|]. apply Hout. lia.
Defined.

(** What a sweep leaves and counts. *)
Lemma sweep_spec (p : jsval -> bool) (m : gmap string jsval) :
  (sweep p m).1 = filter (fun kv => p kv.2 = false) m /\
  (sweep p m).2 = size (filter (fun kv : string * jsval => p kv.2 = true) m).
Proof.
  unfold sweep.
  assert (Hgen : forall base : gmap string jsval,
    let r := map_fold (fun key entry (acc : gmap string jsval * nat) =>
                         if p entry then (delete key acc.1, S acc.2) else acc)
                      (base, 0%nat) m in
    (forall k, r.1 !! k = match m !! k with
                          | Some e => if p e then None else base !! k
                          | None => base !! k
                          end) /\
    r.2 = size (filter (fun kv : string * jsval => p kv.2 = true) m)).
  { intros base. cbn zeta.
    apply (map_fold_weak_ind (fun (r : gmap string jsval * nat) (m : gmap string jsval) =>
      (forall k, r.1 !! k = match m !! k with
                            | Some e => if p e then None else base !! k
                            | None => base !! k
                            end) /\
      r.2 = size (filter (fun kv : string * jsval => p kv.2 = true) m))).
    - split; [by intros k; rewrite lookup_empty|]. by rewrite map_filter_empty, map_size_empty.
    - intros i x m' r Hi [Hlook Hsize]. destruct (p x) eqn:Hpx; cbn [fst snd].
      + split.
        * intros k. destruct (decide (i = k)) as [->|Hne].
          -- by rewrite lookup_delete_eq, lookup_insert_eq, Hpx.
          -- by rewrite lookup_delete_ne, lookup_insert_ne, Hlook.
        * rewrite map_filter_insert_True by done.
          rewrite map_size_insert_None; [by rewrite Hsize|].
          apply map_lookup_filter_None. by left.
      + split.
        * intros k. destruct (decide (i = k)) as [->|Hne].
          -- by rewrite lookup_insert_eq, Hpx, Hlook, Hi.
          -- by rewrite lookup_insert_ne, Hlook.
        * rewrite map_filter_insert_False by (cbn; congruence).
          rewrite delete_id by done. done. }
  destruct (Hgen m) as [Hlook Hsize]. split; [|done].
  apply map_eq. intros k. rewrite Hlook. rewrite map_lookup_filter.
  destruct (m !! k) as [e|] eqn:He; cbn; [|done].
  destruct (p e) eqn:Hpe.
  - rewrite option_guard_False; [done|]. cbn. congruence.
  - by rewrite option_guard_True.
Qed.

(** X2: [clearExpiredCache] deletes exactly the entries whose expiry has
    passed and returns how many they were; with none expired the store is left
    as it was (not even marked dirty), otherwise it is marked dirty.  The
    sweep is invisible to readers: [getCache] answers the same before and
    after it. *)
Theorem clearExpiredCache_spec st now :
  let r := clearExpiredCache st now in
  cache r.1 = filter (fun kv => entry_expired now kv.2 = false) (cache st) /\
  r.2 = size (filter (fun kv : string * jsval => entry_expired now kv.2 = true) (cache st)) /\
  (r.2 = 0%nat -> r.1 = st) /\
  ((0 < r.2)%nat -> isDirty r.1 = true) /\
  (forall key, (getCache r.1 key now).2 = (getCache st key now).2).
Proof.
  intros r. subst r. unfold clearExpiredCache.
  destruct (sweep_spec (entry_expired now) (cache st)) as [Hleft Hcount].
  destruct (sweep (entry_expired now) (cache st)) as [cache' removed].
  cbn [fst snd] in *. subst cache'.
  set (kept := filter (fun kv : string * jsval => entry_expired now kv.2 = false) (cache st)).
  assert (Hc : cache (if (0 <? removed)%nat then markDirty (with_cache kept st)
                      else with_cache kept st) = kept) by (by destruct (0 <? removed)%nat).
  split; [done|]. split; [done|]. split; [|split].
  - intros H0. rewrite H0. cbn.
    assert (Hsame : kept = cache st).
    { subst kept. apply map_eq. intros k. rewrite map_lookup_filter.
      destruct (cache st !! k) as [e|] eqn:He; cbn; [|done].
      destruct (entry_expired now e) eqn:Hx; [|by rewrite option_guard_True].
      exfalso. rewrite H0 in Hcount. symmetry in Hcount.
      apply map_size_empty_inv in Hcount.
      assert (Hin : filter (fun kv : string * jsval => entry_expired now kv.2 = true)
                           (cache st) !! k = Some e)
        by (by apply map_lookup_filter_Some).
      by rewrite Hcount, lookup_empty in Hin. }
    rewrite Hsame. apply with_cache_same.
  - intros Hpos. destruct (Nat.ltb_spec 0 removed); [done|lia].
  - intros key. unfold getCache, map_get. rewrite Hc.
    subst kept. rewrite map_lookup_filter.
    destruct (cache st !! key) as [e|] eqn:He; cbn; [|by destruct (0 <? removed)%nat].
    destruct (entry_expired now e) eqn:Hx.
    + rewrite option_guard_False by (cbn; congruence). cbn.
      by destruct (truthy e).
    + rewrite option_guard_True by done. cbn. rewrite Hx.
      by destruct (truthy e).
Qed.

Lemma assoc_set_eq k v fs : assoc k (assoc_set k v fs) = Some v.
Proof.
  induction fs as [|[k0 v0] fs IH]; simpl.
  - by rewrite String.eqb_refl.
  - destruct (String.eqb_spec k k0) as [->|Hne]; simpl.
    + by rewrite String.eqb_refl.
    + destruct (String.eqb_spec k k0); [done|]. exact IH.
Qed.

Lemma spread_snoc base over kv :
  spread base (over ++ [kv]) = assoc_set kv.1 kv.2 (spread base over).
Proof. unfold spread. by rewrite foldl_snoc. Qed.

(** A property of [{...base, ...over}]: the last binding in [over] wins,
    and what [over] does not name is read from [base]. *)
Lemma assoc_spread k base over :
  assoc k (spread base over) =
    match assoc k (rev over) with
    | Some v => Some v
    | None => assoc k base
    end.
Proof.
  induction over as [|[k' v'] over IH] using rev_ind; [done|].
  rewrite spread_snoc, rev_app_distr. cbn [rev app assoc fst snd].
  destruct (String.eqb_spec k k') as [->|Hne].
  - apply assoc_set_eq.
  - rewrite assoc_set_ne by done. exact IH.
Qed.

(** X3: [updateKeyState] with an object merges it into the stored object of
    the widget: afterwards the stored state has [lastUpdate] set to the time
    of the update, every property the new data name with the value the data
    give it, and every other property as it was stored before.
    [removeKeyState] then reports [true] and the widget reads as [null]; for a
    widget that is not stored it reports [false] and changes nothing. *)
Theorem updateKeyState_merges st keyUid fields now :
  from_option is_object true (keys st !! keyUid) = true ->
  let st' := updateKeyState st keyUid (JObj fields) now in
  get (getKeyState st' keyUid) "lastUpdate" = JNum now /\
  (forall f, f <> "lastUpdate" ->
     get (getKeyState st' keyUid) f =
       match assoc f (rev fields) with
       | Some v => v
       | None => get (getKeyState st keyUid) f
       end) /\
  isDirty st' = true /\
  (removeKeyState st' keyUid).2 = true /\
  getKeyState (removeKeyState st' keyUid).1 keyUid = JNull /\
  (keys st !! keyUid = None -> removeKeyState st keyUid = (st, false)).
Proof.
  intros Hobj st'.
  assert (Hget : getKeyState st' keyUid =
    JObj (spread (spread (own_fields (js_or (map_get (keys st) keyUid) (JObj [])))
                         fields)
                 [("lastUpdate", JNum now)])).
  { subst st'. unfold getKeyState, updateKeyState, map_get at 1, js_or at 1.
    cbn [keys markDirty with_keys with_isDirty own_fields]. by rewrite lookup_insert_eq. }
  split; [|split; [|split; [done|split; [|split]]]].
  - rewrite Hget. cbn [get]. by rewrite assoc_spread.
  - intros f Hf. rewrite Hget. cbn [get]. rewrite assoc_spread. cbn [rev app assoc].
    destruct (String.eqb_spec f "lastUpdate"); [done|].
    rewrite assoc_spread.
    destruct (assoc f (rev fields)) as [v|]; [done|].
    unfold getKeyState, js_or, map_get.
    destruct (keys st !! keyUid) as [[| | | | | |fs]|]; try discriminate Hobj; done.
  - subst st'. unfold removeKeyState, updateKeyState.
    cbn [keys markDirty with_keys with_isDirty]. by rewrite lookup_insert_eq.
  - subst st'. unfold removeKeyState, updateKeyState.
    cbn [keys markDirty with_keys with_isDirty]. rewrite lookup_insert_eq.
    unfold getKeyState, map_get. cbn [fst keys markDirty with_keys with_isDirty].
    by rewrite lookup_delete_eq.
  - intros Hnone. unfold removeKeyState. by rewrite Hnone.
Qed.

Lemma updateKeyState_merges_witness :
  let st := updateKeyState (create default_options 0) "7"
              (JObj [("tier", JStr "GOLD"); ("lp", JNum 40)]) 1000 in
  let st' := updateKeyState st "7" (JObj [("lp", JNum 75)]) 2000 in
  from_option is_object true (keys st !! "7") = true /\
  get (getKeyState st' "7") "lp" = JNum 75 /\
  get (getKeyState st' "7") "tier" = JStr "GOLD" /\
  get (getKeyState st' "7") "lastUpdate" = JNum 2000.
Proof.
  intros st st'. split; [reflexivity|].
  destruct (updateKeyState_merges st "7" [("lp", JNum 75)] 2000 eq_refl)
    as (Hlast & Hother & _).
  split; [exact (Hother "lp" ltac:(discriminate))|].
  split; [exact (Hother "tier" ltac:(discriminate))|exact Hlast].
Defined.

(** X4: the save protocol.  A successful save clears the dirty flag, and
    the next save is then a no-op whatever the time and the state of the
    disk; a save of a clean store never touches the file; a save that fails
    changes neither the file nor the store, which stays dirty; and each
    mutator marks the store dirty, so that the next save writes. *)
Theorem save_protocol st f now now' io_ok :
  let r := saveState st f now true in
  isDirty r.1.1 = false /\
  saveState r.1.1 r.1.2 now' io_ok = (r.1.1, r.1.2, true) /\
  (isDirty st = false -> saveState st f now io_ok = (st, f, true)) /\
  (isDirty st = true -> saveState st f now false = (st, f, false)) /\
  (forall keyUid data key value t,
     is_Some (saveState (updateKeyState st keyUid data t) f now true).1.2 /\
     is_Some (saveState (setPreference st key value) f now true).1.2 /\
     is_Some (saveState (setCache st key data value t) f now true).1.2).
Proof.
  intros r.
  assert (Hclean : isDirty r.1.1 = false).
  { subst r. unfold saveState. by destruct (isDirty st) eqn:Hd. }
  split; [done|]. split; [|split; [|split]].
  - unfold saveState at 1. by rewrite Hclean.
  - intros Hd. unfold saveState. by rewrite Hd.
  - intros Hd. unfold saveState. by rewrite Hd.
  - intros keyUid data key value t. by repeat split; eexists.
Qed.

Lemma cleanup_tables st now :
  let dayAgo := now - 86400000 in
  let r := cleanup st now in
  cache r.1 = filter (fun kv => entry_expired now kv.2 = false) (cache st) /\
  keys r.1 = filter (fun kv => stale dayAgo "active" kv.2 = false) (keys st) /\
  connections r.1 =
    filter (fun kv => stale dayAgo "connected" kv.2 = false) (connections st) /\
  r.2 = (size (filter (fun kv : string * jsval => entry_expired now kv.2 = true) (cache st))
         + size (filter (fun kv : string * jsval => stale dayAgo "active" kv.2 = true)
                        (keys st))
         + size (filter (fun kv : string * jsval => stale dayAgo "connected" kv.2 = true)
                        (connections st)))%nat /\
  preferences r.1 = preferences st.
Proof.
  intros dayAgo r.
  subst r. unfold cleanup, clearExpiredCache.
  destruct (sweep_spec (entry_expired now) (cache st)) as [Hc1 Hc2].
  destruct (sweep (entry_expired now) (cache st)) as [cache' expired].
  cbn [fst snd] in Hc1, Hc2.
  set (st1 := if (0 <? expired)%nat then markDirty (with_cache cache' st)
              else with_cache cache' st).
  assert (H1 : cache st1 = cache' /\ keys st1 = keys st /\
               connections st1 = connections st /\ preferences st1 = preferences st)
    by (by subst st1; destruct (0 <? expired)%nat).
  destruct H1 as (H1c & H1k & H1n & H1p).
  change (24 * 60 * 60 * 1000) with 86400000. fold dayAgo.
  destruct (sweep_spec (stale dayAgo "active") (keys st1)) as [Hk1 Hk2].
  destruct (sweep (stale dayAgo "active") (keys st1)) as [keys' oldKeys].
  cbn [fst snd] in Hk1, Hk2. cbn [connections with_keys].
  destruct (sweep_spec (stale dayAgo "connected") (connections st1)) as [Hn1 Hn2].
  destruct (sweep (stale dayAgo "connected") (connections st1)) as [conns' oldConns].
  cbn [fst snd] in Hn1, Hn2.
  rewrite H1k in Hk1, Hk2. rewrite H1n in Hn1, Hn2.
  destruct (0 <? expired + oldKeys + oldConns)%nat; cbn;
    rewrite ?H1c, ?H1p; repeat split; congruence.
Qed.


(** X6: [reset] empties the store in memory and on disk: whatever was
    stored before, the four maps are empty afterwards, and the file it writes
    loads, into any manager and at any time, as four empty maps. *)
Theorem reset_leaves_empty_store st f now fresh t :
  let r := reset st f now true in
  let l := loadState fresh r.1.2 t in
  (keys r.1.1 = ∅ /\ connections r.1.1 = ∅ /\ preferences r.1.1 = ∅ /\ cache r.1.1 = ∅) /\
  isDirty r.1.1 = false /\
  (keys l = ∅ /\ connections l = ∅ /\ preferences l = ∅ /\ cache l = ∅).
Proof.
  intros r l. subst l r. unfold reset, saveState, loadState, fromEntries.
  cbn [isDirty markDirty with_isDirty with_metadata with_cache with_preferences
       with_connections with_keys negb keys connections preferences cache metadata
       fst snd own_fields].
  rewrite !map_to_list_empty. cbn. done.
Qed.

(** X7: [shutdown] writes what [saveState] would write and then forgets
    everything: the four maps are empty and the store is clean and
    uninitialized afterwards.  When the final save fails the file is left as it
    was, so the changes that were pending are lost; and since the store is
    clean, no later save writes them either. *)
Theorem shutdown_saves_then_clears st f now io_ok :
  let r := shutdown st f now io_ok in
  r.2 = (saveState st f now io_ok).1.2 /\
  (keys r.1 = ∅ /\ connections r.1 = ∅ /\ preferences r.1 = ∅ /\ cache r.1 = ∅) /\
  isDirty r.1 = false /\ isInitialized r.1 = false /\
  (io_ok = false -> r.2 = f) /\
  (forall now' io_ok', saveState r.1 r.2 now' io_ok' = (r.1, r.2, true)).
Proof.
  intros r. subst r. unfold shutdown.
  assert (Hfail : io_ok = false -> (saveState st f now io_ok).1.2 = f).
  { intros ->. unfold saveState. by destruct (isDirty st). }
  destruct (saveState st f now io_ok) as [[st1 f1] ok]. cbn [fst snd] in *.
  repeat split; try done.
Qed.

Lemma getCache_absent st key now : cache st !! key = None -> getCache st key now = (st, JNull).
Proof. intros H. unfold getCache, map_get. by rewrite H. Qed.

(** X25: removing from the cache.  [removeCache] reports whether the key
    was cached; afterwards the key reads as [null] and every other key reads
    as before, and a call that removes nothing leaves the store as it was, not
    even marked dirty.  [clearAllCache] returns the number of entries there
    were, after it every key reads as [null], key states and preferences are
    kept, and on an empty cache it changes nothing. *)
Theorem cache_removal st key now :
  let r := removeCache st key in
  let c := clearAllCache st in
  (r.2 = true <-> is_Some (cache st !! key)) /\
  getCache r.1 key now = (r.1, JNull) /\
  (forall key', key' <> key -> (getCache r.1 key' now).2 = (getCache st key' now).2) /\
  (r.2 = false -> r.1 = st) /\
  (r.2 = true -> isDirty r.1 = true) /\
  c.2 = size (cache st) /\
  (forall key', getCache c.1 key' now = (c.1, JNull)) /\
  (c.2 = 0%nat -> c.1 = st) /\
  ((0 < c.2)%nat -> isDirty c.1 = true) /\
  keys c.1 = keys st /\ preferences c.1 = preferences st /\ connections c.1 = connections st.
Proof.
  intros r c. subst r c. unfold removeCache, clearAllCache.
  assert (Hclear : forall key', getCache (with_cache ∅ st) key' now = (with_cache ∅ st, JNull)
                   /\ getCache (markDirty (with_cache ∅ st)) key' now
                      = (markDirty (with_cache ∅ st), JNull)).
  { intros key'. split; by apply getCache_absent. }
  split_and!.
  - destruct (cache st !! key); cbn; split; try done; by intros [? ?].
  - destruct (cache st !! key) eqn:Hk; cbn [fst].
    + apply getCache_absent. cbn. apply lookup_delete_eq.
    + by apply getCache_absent.
  - intros key' Hne. destruct (cache st !! key) eqn:Hk; cbn [fst]; [|done].
    unfold getCache, map_get. cbn [cache markDirty with_cache with_isDirty].
    rewrite lookup_delete_ne by done.
    destruct (negb (truthy (default JUndefined (cache st !! key')))); [done|].
    by destruct (entry_expired now _).
  - by destruct (cache st !! key).
  - by destruct (cache st !! key).
  - done.
  - intros key'. cbn [fst]. destruct (0 <? size (cache st))%nat; apply Hclear.
  - cbn [fst snd]. intros Hsize. rewrite Hsize. cbn.
    apply map_size_empty_inv in Hsize. rewrite <- Hsize. apply with_cache_same.
  - cbn [fst snd]. intros Hsize.
    destruct (Nat.ltb_spec 0 (size (cache st))); [done|lia].
  - cbn [fst]. by destruct (0 <? size (cache st))%nat.
  - cbn [fst]. by destruct (0 <? size (cache st))%nat.
  - cbn [fst]. by destruct (0 <? size (cache st))%nat.
Qed.

Lemma get_lastUpdate base now :
  get (JObj (spread base [("lastUpdate", JNum now)])) "lastUpdate" = JNum now.
Proof. cbn [get]. rewrite assoc_spread. done. Qed.

Lemma recent_not_stale dayAgo flag base t0 :
  dayAgo <= t0 -> stale dayAgo flag (JObj (spread base [("lastUpdate", JNum t0)])) = false.
Proof.
  intros Hrecent. unfold stale. rewrite get_lastUpdate.
  destruct (Z.ltb_spec t0 dayAgo); [lia|]. by rewrite andb_false_r.
Qed.

(** X26: what was updated within the last day survives [cleanup].  A key
    state written by [updateKeyState], and a connection state written by
    [updateConnectionState], at most 24 hours before a [cleanup] is still
    there after it and reads the same, whatever it holds. *)
Theorem recent_states_survive_cleanup st id data t0 now :
  now - 86400000 <= t0 ->
  let k := updateKeyState st id data t0 in
  let c := updateConnectionState st id data t0 in
  getKeyState (cleanup k now).1 id = getKeyState k id /\
  get (getKeyState k id) "lastUpdate" = JNum t0 /\
  getConnectionState (cleanup c now).1 id = getConnectionState c id /\
  get (getConnectionState c id) "lastUpdate" = JNum t0.
Proof.
  intros Hrecent k c.
  destruct (cleanup_tables k now) as (_ & Hk & _).
  destruct (cleanup_tables c now) as (_ & _ & Hc & _).
  unfold getKeyState, getConnectionState, map_get. rewrite Hk, Hc.
  subst k c. unfold updateKeyState, updateConnectionState.
  cbn [keys connections markDirty with_keys with_connections with_isDirty].
  rewrite !map_lookup_filter, !lookup_insert_eq. cbn [mbind option_bind fst snd].
  rewrite !option_guard_True by (by apply recent_not_stale).
  unfold js_or. cbn [default Datatypes.id truthy]. by rewrite !get_lastUpdate.
Qed.

Lemma recent_states_survive_cleanup_witness :
  let k := updateKeyState (create default_options 0) "7" (JObj [("rank", JStr "GOLD")]) 1000 in
  86401000 - 86400000 <= 1000 /\
  getKeyState (cleanup k 86401000).1 "7" =
    JObj [("rank", JStr "GOLD"); ("lastUpdate", JNum 1000)] /\
  getKeyState (cleanup k 86401001).1 "7" = JNull.
Proof.
  intros k.
  destruct (recent_states_survive_cleanup (create default_options 0) "7"
              (JObj [("rank", JStr "GOLD")]) 1000 86401000 ltac:(done)) as (H & _).
  split; [done|]. split; [|vm_compute; reflexivity].
  fold k in H. rewrite H. vm_compute. reflexivity.
Defined.

End StateManagerMore.

(** ** Connection discovery *)

Section DiscoveryFacts.
Import Js Discovery.

Lemma split_free sep s : has_char sep s = false -> split sep s = [s].
Proof.
  induction s as [|c s IH]; simpl; [done|].
  intros [Hc Hs]%orb_false_elim. rewrite Hc, (IH Hs). done.
Qed.

Lemma split_field sep a b :
  has_char sep a = false -> split sep (a +:+ String sep b) = a :: split sep b.
Proof.
  induction a as [|c a IH]; intros Ha.
  - change ("" +:+ String sep b) with (String sep b). simpl. by rewrite Ascii.eqb_refl.
  - simpl in Ha. apply orb_false_elim in Ha as [Hc Ha].
    rewrite append_cons. simpl. rewrite Hc, (IH Ha). done.
Qed.

Lemma append_char c x : String c "" +:+ x = String c x.
Proof. reflexivity. Qed.

(** X8: a lockfile [name:pid:port:password:protocol] whose fields contain
    no colon gives back its third, fourth and fifth field as port, password
    and protocol, the base URL is [protocol://127.0.0.1:port], and the process
    list is not consulted.  Without the fifth field the protocol is
    [https]. *)
Theorem lockfile_fields_recovered name pid prt pw proto exec :
  has_char ":" name = false -> has_char ":" pid = false -> has_char ":" prt = false ->
  has_char ":" pw = false -> has_char ":" proto = false -> proto <> "" ->
  let short := name +:+ ":" +:+ pid +:+ ":" +:+ prt +:+ ":" +:+ pw in
  let content := short +:+ ":" +:+ proto in
  (trim content = content ->
     discoverConnection (Some content) exec =
       inr {| port := JStr prt; password := JStr pw; protocol := JStr proto |} /\
     baseURL {| port := JStr prt; password := JStr pw; protocol := JStr proto |} =
       proto +:+ "://127.0.0.1:" +:+ prt) /\
  (trim short = short ->
     discoverConnection (Some short) exec =
       inr {| port := JStr prt; password := JStr pw; protocol := JStr "https" |}).
Proof.
  intros Hn Hpid Hprt Hpw Hproto Hne short content.
  assert (Hshort : split ":" short = [name; pid; prt; pw]).
  { subst short. rewrite !append_char.
    rewrite !split_field by done. by rewrite split_free. }
  assert (Hcontent : split ":" content = [name; pid; prt; pw; proto]).
  { subst content short. rewrite !append_assoc, !append_char.
    rewrite !split_field by done. by rewrite split_free. }
  split.
  - intros Htrim. unfold discoverConnection, discoverFromLockfile.
    rewrite Htrim, Hcontent. cbn [element lookup list_lookup from_option].
    unfold js_or. cbn [truthy].
    destruct (String.eqb_spec proto ""); [done|]. done.
  - intros Htrim. unfold discoverConnection, discoverFromLockfile.
    rewrite Htrim, Hshort. done.
Qed.

Lemma lockfile_fields_recovered_witness :
  let content := "LeagueClient:1234:51234:s3cr3t-token:https" in
  trim content = content /\
  discoverConnection (Some content) (inr "Command failed") =
    inr {| port := JStr "51234"; password := JStr "s3cr3t-token"; protocol := JStr "https" |}.
Proof.
  intros content. split; [reflexivity|].
  destruct (lockfile_fields_recovered "LeagueClient" "1234" "51234" "s3cr3t-token" "https"
              (inr "Command failed") eq_refl eq_refl eq_refl eq_refl eq_refl
              ltac:(discriminate)) as [H _].
  apply H. reflexivity.
Defined.

(** X9: a lockfile that can be read is always accepted.  When its trimmed
    content has no colon (an empty file, for one), port and password are
    [undefined], the base URL ends in [:undefined], and discovery still does
    not fall back to the process list, whatever that would have found. *)
Theorem lockfile_without_fields_accepted data exec :
  has_char ":" (trim data) = false ->
  discoverConnection (Some data) exec =
    inr {| port := JUndefined; password := JUndefined; protocol := JStr "https" |} /\
  baseURL {| port := JUndefined; password := JUndefined; protocol := JStr "https" |} =
    "https://127.0.0.1:undefined".
Proof.
  intros Hfree. split; [|reflexivity].
  unfold discoverConnection, discoverFromLockfile. by rewrite split_free.
Qed.

Lemma lockfile_without_fields_accepted_witness :
  has_char ":" (trim "") = false /\
  discoverConnection (Some "")
      (inl "LeagueClientUx --remoting-auth-token=abc --app-port=51234") =
    inr {| port := JUndefined; password := JUndefined; protocol := JStr "https" |}.
Proof.
  split; [reflexivity|].
  apply (lockfile_without_fields_accepted ""
           (inl "LeagueClientUx --remoting-auth-token=abc --app-port=51234")).
  reflexivity.
Defined.

Lemma strip_prefix_Some p s rest : strip_prefix p s = Some rest <-> s = p +:+ rest.
Proof.
  revert s. induction p as [|a p IH]; intros s; cbn [strip_prefix].
  - change ("" +:+ rest) with rest. split; congruence.
  - rewrite append_cons. destruct s as [|b s]; [split; discriminate|].
    destruct (Ascii.eqb_spec a b) as [->|Hne].
    + rewrite IH. split; [by intros ->|by intros [= ->]].
    + split; [discriminate|]. by intros [= ? ?].
Qed.

Lemma take_class_split cls s :
  exists rest, s = take_class cls s +:+ rest /\ take_class cls rest = "" /\
               all_class cls (take_class cls s) = true.
Proof.
  induction s as [|c s (rest & Hs & Hrest & Hall)]; [by exists ""|].
  cbn [take_class]. destruct (cls c) eqn:Hc.
  - exists rest. rewrite append_cons, <- Hs. cbn [all_class]. by rewrite Hc, Hall.
  - exists (String c s). cbn [take_class]. by rewrite Hc.
Qed.

(** What a match captures: a non-empty run of the class that follows the
    prefix somewhere in the text and is not followed by one more character of
    the class. *)
Lemma regex_capture_sound prefix cls s cap :
  regex_capture prefix cls s = Some cap ->
  cap <> "" /\ all_class cls cap = true /\
  exists before rest, s = before +:+ prefix +:+ cap +:+ rest /\ take_class cls rest = "".
Proof.
  induction s as [|c s IH]; cbn [regex_capture].
  - destruct (strip_prefix prefix "") as [r|] eqn:Hp; [|done].
    destruct (take_class cls r) as [|c' cap'] eqn:Ht; [done|]. intros [= <-].
    apply strip_prefix_Some in Hp.
    destruct (take_class_split cls r) as (rest & Hr & Hrest & Hall).
    rewrite Ht in Hr, Hall. split; [done|]. split; [done|].
    exists "", rest. split; [|done]. by rewrite Hp, Hr at 1.
  - destruct (strip_prefix prefix (String c s)) as [r|] eqn:Hp.
    + destruct (take_class cls r) as [|c' cap'] eqn:Ht.
      * intros (Hne & Hall & before & rest & Hs & Hrest)%IH.
        split; [done|]. split; [done|].
        exists (String c before), rest. by rewrite append_cons, <- Hs.
      * intros [= <-]. apply strip_prefix_Some in Hp.
        destruct (take_class_split cls r) as (rest & Hr & Hrest & Hall).
        rewrite Ht in Hr, Hall. split; [done|]. split; [done|].
        exists "", rest. split; [|done]. by rewrite Hp, Hr at 1.
    + intros (Hne & Hall & before & rest & Hs & Hrest)%IH.
      split; [done|]. split; [done|].
      exists (String c before), rest. by rewrite append_cons, <- Hs.
Qed.

(** There is a match as soon as the prefix occurs followed by a character
    of the class. *)
Lemma regex_capture_complete prefix cls before c rest :
  cls c = true ->
  is_Some (regex_capture prefix cls (before +:+ prefix +:+ String c rest)).
Proof.
  intros Hc. induction before as [|b before IH].
  - change ("" +:+ ?x) with x.
    assert (Hp : strip_prefix prefix (prefix +:+ String c rest) = Some (String c rest))
      by by apply strip_prefix_Some.
    destruct (prefix +:+ String c rest) as [|x y] eqn:Hs;
      cbn [regex_capture]; rewrite Hp; cbn [take_class]; rewrite Hc; by eexists.
  - rewrite append_cons. cbn [regex_capture].
    destruct (strip_prefix prefix _) as [r|]; [|exact IH].
    destruct (take_class cls r); [exact IH|by eexists].
Qed.

(** The errors of a process listing that ran are two. *)
Lemma process_list_messages stdout message :
  discoverFromProcessList (inl stdout) = inl message ->
  message = "League client process not found" \/
  message = "League client process found but connection details not available".
Proof.
  unfold discoverFromProcessList.
  destruct (String.eqb stdout "" || String.eqb (trim stdout) "");
    [intros [= <-]; by left|].
  destruct (regex_capture "--app-port=" digit stdout);
    destruct (regex_capture "--remoting-auth-token=" word_or_dash stdout);
    intros [= <-]; by right.
Qed.

(** X10: discovery from the process list.  When it succeeds, the port is a
    non-empty run of digits that follows [--app-port=] in the output and the
    password a non-empty run of word characters and dashes that follows
    [--remoting-auth-token=], each taken to its full length, and the protocol
    is [https].  It does succeed whenever the output holds both markers, each
    followed by a character of its class.  When it fails on an output, the
    message is one of its own two. *)
Theorem process_list_discovery stdout :
  (forall found, discoverFromProcessList (inl stdout) = inr found ->
     exists prt token,
       found = {| port := JStr prt; password := JStr token; protocol := JStr "https" |} /\
       (prt <> "" /\ all_class digit prt = true /\
        exists before rest, stdout = before +:+ "--app-port=" +:+ prt +:+ rest /\
                            take_class digit rest = "") /\
       (token <> "" /\ all_class word_or_dash token = true /\
        exists before rest, stdout = before +:+ "--remoting-auth-token=" +:+ token +:+ rest /\
                            take_class word_or_dash rest = "")) /\
  (forall b1 d r1 b2 w r2,
     stdout = b1 +:+ "--app-port=" +:+ String d r1 -> digit d = true ->
     stdout = b2 +:+ "--remoting-auth-token=" +:+ String w r2 -> word_or_dash w = true ->
     trim stdout <> "" ->
     exists found, discoverFromProcessList (inl stdout) = inr found) /\
  (forall message, discoverFromProcessList (inl stdout) = inl message ->
     message = "League client process not found" \/
     message = "League client process found but connection details not available").
Proof.
  split; [|split].
  - intros found. unfold discoverFromProcessList.
    destruct (String.eqb stdout "" || String.eqb (trim stdout) ""); [done|].
    destruct (regex_capture "--app-port=" digit stdout) as [prt|] eqn:Hp; [|done].
    destruct (regex_capture "--remoting-auth-token=" word_or_dash stdout) as [token|] eqn:Ht;
      [|done].
    intros [= <-]. exists prt, token. split; [done|].
    split; by eapply regex_capture_sound.
  - intros b1 d r1 b2 w r2 H1 Hd H2 Hw Hblank. unfold discoverFromProcessList.
    destruct (String.eqb_spec stdout "") as [->|_].
    { by destruct Hblank. }
    destruct (String.eqb_spec (trim stdout) ""); [done|]. cbn [orb].
    destruct (regex_capture_complete "--app-port=" digit b1 d r1 Hd) as [prt Hprt].
    destruct (regex_capture_complete "--remoting-auth-token=" word_or_dash b2 w r2 Hw)
      as [token Htoken].
    rewrite <- H1 in Hprt. rewrite <- H2 in Htoken. rewrite Hprt, Htoken. by eexists.
  - apply process_list_messages.
Qed.

Lemma process_list_discovery_witness :
  let stdout := "LeagueClientUx.exe --remoting-auth-token=aB3_x-9 --app-port=51234 --locale=en" in
  trim stdout <> "" /\
  discoverFromProcessList (inl stdout) =
    inr {| port := JStr "51234"; password := JStr "aB3_x-9"; protocol := JStr "https" |}.
Proof.
  intros stdout.
  assert (Hblank : trim stdout <> "") by (vm_compute; discriminate).
  split; [exact Hblank|].
  destruct (process_list_discovery stdout) as (_ & Hcomplete & _).
  destruct (Hcomplete "LeagueClientUx.exe --remoting-auth-token=aB3_x-9 " "5"%char
              "1234 --locale=en" "LeagueClientUx.exe " "a"%char
              "B3_x-9 --app-port=51234 --locale=en"
              eq_refl eq_refl eq_refl eq_refl Hblank) as [found Hfound].
  rewrite Hfound. vm_compute in Hfound. by injection Hfound as <-.
Defined.

(** X11: the order of discovery and its errors.  With an unreadable
    lockfile the result is that of the process list.  Whatever fails, the
    error that [discoverConnection] throws mentions the client process: the
    lockfile error never surfaces, and an error of the process listing is
    replaced unless it carries that phrase itself. *)
Theorem discovery_falls_back_and_normalises readFile exec :
  discoverConnection None exec = discoverFromProcessList exec /\
  (forall message, discoverConnection readFile exec = inl message ->
     readFile = None /\ includes "League client process" message = true).
Proof.
  split; [done|]. intros message. unfold discoverConnection.
  destruct readFile as [data|]; [done|]. cbn [discoverFromLockfile].
  intros H. split; [done|]. destruct exec as [stdout|failure].
  - by destruct (process_list_messages stdout message H) as [-> | ->].
  - cbn in H. destruct (includes "League client process" failure) eqn:Hi.
    + by injection H as <-.
    + by injection H as <-.
Qed.

End DiscoveryFacts.

(** ** The connection monitor over whole runs *)

Section LoLDataServiceMore.
Import Js LoLDataService.
Local Open Scope list_scope.

Lemma last_cons_default {A} (d x : A) l : default d (last (x :: l)) = default x (last l).
Proof.
  revert d x. induction l as [|y l IH]; intros d x; [done|].
  change (last (x :: y :: l)) with (last (y :: l)). by rewrite !IH.
Qed.

Lemma alternating_snoc previous flags flag :
  alternating previous (flags ++ [flag]) <->
  alternating previous flags /\ flag = negb (default previous (last flags)).
Proof.
  revert previous. induction flags as [|f flags IH]; intros previous.
  - cbn. tauto.
  - rewrite last_cons_default. cbn [app alternating]. rewrite IH. tauto.
Qed.

Lemma changes_snoc events e :
  changes (events ++ [e]) =
    changes events ++ match e with
                      | ConnectionChanged connected _ _ => [connected]
                      | _ => []
                      end.
Proof. unfold changes. rewrite omap_app. by destruct e. Qed.

Ltac fields :=
  cbn [opts isConnected isInitialized connectionAttempts axios version processMonitor
       endpointPollers lastKnownGameState dataCache intervals inflight timeouts nextTimer
       emitted with_isConnected with_connectionAttempts with_axios with_version
       with_endpointPollers with_lastKnownGameState with_dataCache with_intervals
       with_inflight with_timeouts with_nextTimer with_emitted with_isInitialized
       with_processMonitor emit] in *.

Lemma well_formed_setConnectionState st connected reason now :
  well_formed st -> well_formed (setConnectionState st connected reason now).
Proof.
  intros (Hat & Hiv & Hif & Hdc & Hdu & Halt & Hlast).
  unfold setConnectionState.
  destruct (Bool.eqb_spec (isConnected st) connected) as [Heq|Hne]; cbn [negb].
  - unfold well_formed. fields. split_and!; try done; first [lia | congruence].
  - unfold well_formed. fields. split_and!; try done; try lia.
    + intros ty ep data t prev [H|H]%elem_of_app; [by eapply Hdu|].
      by apply list_elem_of_singleton in H.
    + rewrite changes_snoc. apply alternating_snoc. split; [done|].
      rewrite Hlast. by destruct (isConnected st), connected.
    + rewrite changes_snoc. by rewrite last_snoc.
Qed.

Lemma well_formed_emit st e :
  well_formed st ->
  match e with
  | ConnectionChanged _ _ _ => False
  | DataUpdated ty ep _ _ _ =>
      exists config, config ∈ endpointConfig (opts st) /\ type config = ty /\ endpoint config = ep
  | _ => True
  end ->
  well_formed (emit e st).
Proof.
  intros (Hat & Hiv & Hif & Hdc & Hdu & Halt & Hlast) He.
  unfold well_formed. fields. rewrite changes_snoc. split_and!; try done; try lia.
  - intros ty ep data t prev [H|H]%elem_of_app; [by eapply Hdu|].
    apply list_elem_of_singleton in H. by subst e.
  - destruct e; try done; by rewrite app_nil_r.
  - destruct e; try done; by rewrite app_nil_r.
Qed.

(** Changes of the fields that [well_formed] does not read, or reads
    monotonically. *)
Lemma well_formed_with_version st v : well_formed st -> well_formed (with_version v st).
Proof. done. Qed.

Lemma well_formed_with_timeouts st v : well_formed st -> well_formed (with_timeouts v st).
Proof. done. Qed.

Lemma well_formed_with_nextTimer st v : well_formed st -> well_formed (with_nextTimer v st).
Proof. done. Qed.

Lemma well_formed_with_isInitialized st v :
  well_formed st -> well_formed (with_isInitialized v st).
Proof. done. Qed.

Lemma well_formed_with_processMonitor st v :
  well_formed st -> well_formed (with_processMonitor v st).
Proof. done. Qed.

Lemma well_formed_with_endpointPollers st v :
  well_formed st -> well_formed (with_endpointPollers v st).
Proof. done. Qed.

Lemma well_formed_with_lastKnownGameState st v :
  well_formed st -> well_formed (with_lastKnownGameState v st).
Proof. done. Qed.

Lemma well_formed_with_axios st v : well_formed st -> well_formed (with_axios v st).
Proof. done. Qed.

Lemma well_formed_with_connectionAttempts st v :
  well_formed st ->
  (0 <= maxReconnectAttempts (opts st) -> 0 <= v <= maxReconnectAttempts (opts st)) ->
  well_formed (with_connectionAttempts v st).
Proof. intros (?&?&?&?&?&?&?) ?. unfold well_formed. fields. split_and!; try done; lia. Qed.

Lemma well_formed_clear_cache st : well_formed st -> well_formed (with_dataCache ∅ st).
Proof. intros (?&?&?&?&?&?&?). unfold well_formed. fields. split_and!; try done; lia. Qed.

Lemma well_formed_stopEndpointPolling st :
  well_formed st -> well_formed (stopEndpointPolling st).
Proof.
  intros (Hat & Hiv & Hif & Hdc & Hdu & Halt & Hlast).
  destruct (stopEndpointPolling_intervals st) as [_ Hsub].
  unfold well_formed.
  split_and!; try (unfold stopEndpointPolling; fields; first [done|lia]).
  intros id config H. apply (Hiv id). by apply Hsub.
Qed.

Lemma well_formed_handleEndpointPoll st config :
  well_formed st -> config ∈ endpointConfig (opts st) ->
  well_formed (handleEndpointPoll st config).
Proof.
  intros (Hat & Hiv & Hif & Hdc & Hdu & Halt & Hlast) Hin.
  unfold handleEndpointPoll.
  destruct (negb (isConnected st) || negb (bool_decide (is_Some (axios st)))); [done|].
  unfold well_formed. fields. split_and!; try done; try lia.
  apply Forall_app. split; [done|]. by apply Forall_singleton.
Qed.

Lemma opts_startPoller st config : opts (startPoller st config) = opts st.
Proof.
  unfold startPoller, handleEndpointPoll. fields.
  by destruct (negb (isConnected st) || negb (bool_decide (is_Some (axios st)))).
Qed.

Lemma well_formed_startPoller st config :
  well_formed st -> config ∈ endpointConfig (opts st) ->
  well_formed (startPoller st config).
Proof.
  intros (Hat & Hiv & Hif & Hdc & Hdu & Halt & Hlast) Hin.
  unfold startPoller. apply well_formed_handleEndpointPoll; [|done].
  unfold well_formed. fields. split_and!; try done; try lia.
  intros id c [[_ <-]|[_ H]]%lookup_insert_Some; [done|]. by eapply Hiv.
Qed.

Lemma well_formed_startPollers configs : forall st,
  well_formed st -> configs ⊆ endpointConfig (opts st) ->
  well_formed (foldl startPoller st configs) /\
  opts (foldl startPoller st configs) = opts st.
Proof.
  induction configs as [|c configs IH]; intros st Hwf Hsub; [done|].
  cbn [foldl]. destruct (IH (startPoller st c)) as [H1 H2].
  - apply well_formed_startPoller; [done|]. apply Hsub. by left.
  - rewrite opts_startPoller. intros x Hx. apply Hsub. by right.
  - split; [done|]. by rewrite H2, opts_startPoller.
Qed.

Lemma opts_setConnectionState st connected reason now :
  opts (setConnectionState st connected reason now) = opts st.
Proof. unfold setConnectionState. by destruct (negb _). Qed.

Lemma opts_stopEndpointPolling st : opts (stopEndpointPolling st) = opts st.
Proof. done. Qed.

Lemma well_formed_attemptConnection st o now :
  well_formed st ->
  well_formed (attemptConnection st o now).1 /\
  opts (attemptConnection st o now).1 = opts st /\
  ((attemptConnection st o now).2 = true ->
     connectionAttempts (attemptConnection st o now).1 = connectionAttempts st).
Proof.
  intros Hwf. destruct o as [message|c|c v]; cbn [attemptConnection fst snd].
  - split; [by apply well_formed_setConnectionState|].
    rewrite opts_setConnectionState. split; [done|]. intros _.
    unfold setConnectionState. by destruct (negb _).
  - split.
    { by apply well_formed_setConnectionState, well_formed_with_axios. }
    rewrite opts_setConnectionState. split; [done|]. intros _.
    unfold setConnectionState. by destruct (negb _).
  - set (s1 := setConnectionState _ _ _ _).
    assert (H1 : well_formed s1 /\ opts s1 = opts st).
    { subst s1. split; [|by rewrite opts_setConnectionState].
      by apply well_formed_setConnectionState, well_formed_with_version,
        well_formed_with_axios. }
    destruct H1 as [Hwf1 Ho1]. unfold startEndpointPolling.
    destruct (well_formed_startPollers (endpointConfig (opts s1)) s1 Hwf1) as [Hwf2 Ho2];
      [done|].
    split; [|split; [|done]].
    + apply well_formed_with_connectionAttempts; [done|].
      rewrite Ho2, Ho1. destruct Hwf as [? _]. lia.
    + fields. by rewrite Ho2.
Qed.

Lemma well_formed_handleGameStateChange st currentState previousState now :
  well_formed st -> well_formed (handleGameStateChange st currentState previousState now).
Proof.
  intros Hwf. unfold handleGameStateChange. destruct (negb _); [|done].
  by apply well_formed_emit; [apply well_formed_with_lastKnownGameState|].
Qed.

Lemma well_formed_poll_resume st config r now :
  well_formed st -> config ∈ endpointConfig (opts st) ->
  well_formed (handleEndpointPoll_resume st config r now) /\
  opts (handleEndpointPoll_resume st config r now) = opts st.
Proof.
  intros Hwf Hin. destruct r as [data|message]; cbn [handleEndpointPoll_resume].
  - set (s1 := emit _ _).
    assert (H1 : well_formed s1).
    { subst s1. apply well_formed_emit; [|by exists config].
      destruct Hwf as (Hat & Hiv & Hif & Hdc & Hdu & Halt & Hlast).
      unfold well_formed. fields. split_and!; try done; try lia.
      intros k entry [[<- _]|[_ H]]%lookup_insert_Some; [by exists config|by eapply Hdc]. }
    destruct (String.eqb (type config) "gameflow").
    + split; [by apply well_formed_handleGameStateChange|].
      unfold handleGameStateChange. by destruct (negb _).
    + done.
  - destruct (negb (suppressErrors config)); [|done].
    split; [by apply well_formed_emit|done].
Qed.

Lemma well_formed_poll_completes st i r now :
  well_formed st ->
  well_formed (poll_completes st i r now) /\ opts (poll_completes st i r now) = opts st.
Proof.
  intros Hwf. unfold poll_completes. destruct (inflight st !! i) as [config|] eqn:Hi; [|done].
  destruct Hwf as (Hat & Hiv & Hif & Hdc & Hdu & Halt & Hlast).
  apply (well_formed_poll_resume (with_inflight (delete i (inflight st)) st)).
  - unfold well_formed. fields. split_and!; try done; try lia.
    eapply Forall_sublist; [apply sublist_delete|done].
  - fields. eapply Forall_forall in Hif; [done|]. by eapply list_elem_of_lookup_2.
Qed.

Lemma well_formed_handleReconnection st o now :
  well_formed st ->
  well_formed (handleReconnection st o now) /\ opts (handleReconnection st o now) = opts st.
Proof.
  intros Hwf. unfold handleReconnection, handleReconnection_begin.
  destruct (Z.leb_spec (maxReconnectAttempts (opts st)) (connectionAttempts st)) as [Hmax|Hlt];
    [done|].
  unfold handleReconnection_resume.
  set (s1 := with_connectionAttempts _ st).
  assert (H1 : well_formed s1).
  { subst s1. apply well_formed_with_connectionAttempts; [done|].
    destruct Hwf as [? _]. lia. }
  destruct (well_formed_attemptConnection s1 o now H1) as (Hwf2 & Ho2 & _).
  destruct (attemptConnection s1 o now) as [s2 threw]. cbn [fst snd] in *.
  destruct (threw && _); [|done].
  split; [|done]. by apply well_formed_with_nextTimer, well_formed_with_timeouts.
Qed.

Lemma well_formed_handleDisconnection st now :
  well_formed st ->
  well_formed (handleDisconnection st now) /\ opts (handleDisconnection st now) = opts st.
Proof.
  intros Hwf. unfold handleDisconnection, resetConnectionDetails. split.
  - by apply well_formed_with_axios, well_formed_stopEndpointPolling,
      well_formed_setConnectionState.
  - cbn. apply opts_setConnectionState.
Qed.

Lemma well_formed_forceReconnect st o now :
  well_formed st ->
  well_formed (forceReconnect st o now) /\ opts (forceReconnect st o now) = opts st.
Proof.
  intros Hwf. unfold forceReconnect.
  set (s1 := if isConnected st then _ else _).
  assert (H1 : well_formed s1 /\ opts s1 = opts st).
  { subst s1. destruct (isConnected st); [|done]. by apply well_formed_handleDisconnection. }
  destruct H1 as [Hwf1 Ho1].
  destruct (well_formed_handleReconnection (with_connectionAttempts 0 s1) o now) as [H2 Ho2].
  - apply well_formed_with_connectionAttempts; [done|]. destruct Hwf1 as [? _]. lia.
  - split; [done|]. by rewrite Ho2.
Qed.

Lemma well_formed_shutdown st now :
  well_formed st -> well_formed (shutdown st now) /\ opts (shutdown st now) = opts st.
Proof.
  intros Hwf. unfold shutdown, resetConnectionDetails.
  set (s1 := if processMonitor st then _ else _).
  assert (H1 : well_formed s1 /\ opts s1 = opts st).
  { subst s1. by destruct (processMonitor st). }
  destruct H1 as [Hwf1 Ho1].
  set (s2 := with_dataCache ∅ (stopEndpointPolling s1)).
  assert (H2 : well_formed s2) by by apply well_formed_clear_cache, well_formed_stopEndpointPolling.
  split.
  - by apply well_formed_with_isInitialized, well_formed_with_axios,
      well_formed_setConnectionState.
  - fields. by rewrite opts_setConnectionState.
Qed.

Lemma well_formed_step st a :
  well_formed st -> well_formed (step st a) /\ opts (step st a) = opts st.
Proof.
  intros Hwf. destruct a as [o now|isRunning o now|id o now|poller|i r now|o now|now];
    cbn [step].
  - unfold initialize. destruct (isInitialized st); [done|].
    set (s1 := startProcessMonitoring st).
    assert (H1 : well_formed s1 /\ opts s1 = opts st).
    { subst s1. unfold startProcessMonitoring. by destruct (processMonitor st). }
    destruct H1 as [Hwf1 Ho1].
    destruct (well_formed_attemptConnection s1 o now Hwf1) as (Hwf2 & Ho2 & _).
    destruct (attemptConnection s1 o now) as [s2 threw]. cbn [fst] in *.
    split; [done|]. fields. by rewrite Ho2.
  - destruct (processMonitor st); [|done]. unfold handleProcessCheck.
    destruct (isRunning && negb (isConnected st)); [by apply well_formed_handleReconnection|].
    destruct (negb isRunning && isConnected st); [by apply well_formed_handleDisconnection|].
    done.
  - unfold retry_fires. destruct (bool_decide _); [|done].
    by apply (well_formed_handleReconnection (with_timeouts _ st)).
  - destruct (intervals st !! poller) as [config|] eqn:Hp; [|done]. split.
    + apply well_formed_handleEndpointPoll; [done|].
      destruct Hwf as (_ & Hiv & _). by eapply Hiv.
    + unfold handleEndpointPoll. by destruct (negb _ || _).
  - by apply well_formed_poll_completes.
  - by apply well_formed_forceReconnect.
  - by apply well_formed_shutdown.
Qed.

Lemma well_formed_run actions : forall st,
  well_formed st -> well_formed (run st actions) /\ opts (run st actions) = opts st.
Proof.
  induction actions as [|a actions IH]; intros st Hwf; [done|].
  destruct (well_formed_step st a Hwf) as [H1 Ho1].
  destruct (IH (step st a) H1) as [H2 Ho2].
  split; [done|]. unfold run in *. cbn [foldl]. by rewrite Ho2.
Qed.

Lemma well_formed_create o : well_formed (create o).
Proof.
  unfold well_formed. cbn. split_and!; try done; try lia.
  intros ty ep data t prev H. by apply elem_of_nil in H.
Qed.

(** X12: however the service is driven, from its construction on, by calls
    of its interface, process checks, retries, poll timers, poll responses
    and shutdowns, with whatever outcomes, the attempt counter stays between 0
    and [maxReconnectAttempts]. *)
Theorem attempts_stay_within_limit o actions :
  0 <= maxReconnectAttempts o ->
  0 <= connectionAttempts (run (create o) actions) <= maxReconnectAttempts o.
Proof.
  intros Hmax.
  destruct (well_formed_run actions (create o) (well_formed_create o)) as [[Hat _] Ho].
  rewrite Ho in Hat. by apply Hat.
Qed.

Lemma attempts_stay_within_limit_witness :
  let failure := DiscoveryFailed "League client process not found" in
  0 <= maxReconnectAttempts default_options /\
  0 <= connectionAttempts
         (run (create default_options)
              [Initialize failure 0; ProcessCheck true failure 3000;
               RetryFires 0 failure 5000; ForceReconnect failure 6000;
               ProcessCheck true (Established example_client "15.10.1") 9000])
    <= maxReconnectAttempts default_options.
Proof.
  intros failure.
  split; [done|].
  apply (attempts_stay_within_limit default_options
           [Initialize failure 0; ProcessCheck true failure 3000;
            RetryFires 0 failure 5000; ForceReconnect failure 6000;
            ProcessCheck true (Established example_client "15.10.1") 9000]).
  done.
Defined.

(** X13: over any run of the service from its construction on, the
    [connectionChanged] events emitted alternate between connected and
    disconnected, beginning with a connection, and the connected flag is that
    of the last of them ([false] when there is none). *)
Theorem connection_events_alternate o actions :
  let st := run (create o) actions in
  alternating false (changes (emitted st)) /\
  default false (last (changes (emitted st))) = isConnected st.
Proof.
  destruct (well_formed_run actions (create o) (well_formed_create o))
    as [(_ & _ & _ & _ & _ & Halt & Hlast) _].
  done.
Qed.

(** X14: over any run of the service from its construction on, only the
    configured endpoints are polled: every live poll timer and every request
    in flight is for one of them, every cache entry is filed under the type of
    one of them, and every [dataUpdated] event carries the type and the
    endpoint of one of them. *)
Theorem only_configured_endpoints o actions :
  let st := run (create o) actions in
  (forall id config, intervals st !! id = Some config -> config ∈ endpointConfig o) /\
  (forall config, config ∈ inflight st -> config ∈ endpointConfig o) /\
  (forall k entry, dataCache st !! k = Some entry ->
     exists config, config ∈ endpointConfig o /\ type config = k) /\
  (forall ty ep data t prev, DataUpdated ty ep data t prev ∈ emitted st ->
     exists config, config ∈ endpointConfig o /\ type config = ty /\ endpoint config = ep).
Proof.
  destruct (well_formed_run actions (create o) (well_formed_create o))
    as [(_ & Hiv & Hif & Hdc & Hdu & _ & _) Ho].
  cbn [create opts] in Ho. rewrite Ho in *. split_and!; try done.
  intros config Hin. by eapply Forall_forall in Hif.
Qed.

Lemma data_poll_step st config data now :
  let st' := handleEndpointPoll_resume st config (PollOk data) now in
  List.filter is_dataUpdated (emitted st') =
    List.filter is_dataUpdated (emitted st) ++
      [DataUpdated (type config) (endpoint config) data now (cached st (type config))] /\
  isConnected st' = isConnected st /\ axios st' = axios st /\
  dataCache st' = <[type config := (data, now)]> (dataCache st).
Proof.
  cbn [handleEndpointPoll_resume]. unfold handleGameStateChange, cached.
  destruct (String.eqb (type config) "gameflow"); [destruct (negb _)|]; fields;
    rewrite ?List.filter_app; cbn [List.filter is_dataUpdated]; by rewrite ?app_nil_r.
Qed.

Lemma data_poll_all config polls : forall st,
  isConnected st = true -> is_Some (axios st) ->
  let st' := poll_all st config polls in
  List.filter is_dataUpdated (emitted st') =
    List.filter is_dataUpdated (emitted st) ++
      data_updates config (cached st (type config)) polls /\
  dataCache st' =
    match last polls with
    | Some p => <[type config := p]> (dataCache st)
    | None => dataCache st
    end.
Proof.
  induction polls as [|[data now] polls IH]; intros st Hc Ha; cbn [data_updates].
  - cbn. by rewrite app_nil_r.
  - unfold poll_all in *. cbn [foldl fst snd].
    rewrite poll_once_connected by done.
    destruct (data_poll_step st config data now) as (He & Hc' & Ha' & Hd).
    destruct (IH (handleEndpointPoll_resume st config (PollOk data) now)) as [IHe IHd];
      [congruence|by rewrite Ha'|].
    assert (Hcached : cached (handleEndpointPoll_resume st config (PollOk data) now)
                             (type config) = data)
      by (unfold cached; by rewrite Hd, lookup_insert_eq).
    rewrite IHe, He, IHd, Hd, Hcached, <- app_assoc. cbn [app]. split; [done|].
    destruct polls as [|q polls]; [done|].
    change (last ((data, now) :: q :: polls)) with (last (q :: polls)).
    destruct (last (q :: polls)) eqn:Hl; [|by apply last_None in Hl].
    by rewrite insert_insert_eq.
Qed.

(** X15: every successful poll of a connected service emits one
    [dataUpdated] event, whether or not the payload changed, and that event
    carries the payload cached by the poll before it as [previousData]
    ([undefined] when the type had no entry).  Afterwards [getCachedData]
    gives the payload of the last poll for the type polled, also when that
    payload is falsy, and what it gave before for every other type. *)
Theorem dataUpdated_on_every_poll st config polls :
  isConnected st = true -> is_Some (axios st) ->
  let st' := poll_all st config polls in
  List.filter is_dataUpdated (emitted st') =
    List.filter is_dataUpdated (emitted st) ++
      data_updates config (cached st (type config)) polls /\
  getCachedData st' (type config) =
    match last polls with
    | Some p => p.1
    | None => getCachedData st (type config)
    end /\
  (forall ty, ty <> type config -> getCachedData st' ty = getCachedData st ty).
Proof.
  intros Hc Ha st'. subst st'.
  destruct (data_poll_all config polls st Hc Ha) as [He Hd].
  split; [done|]. unfold getCachedData. rewrite Hd. split.
  - destruct (last polls); [|done]. by rewrite lookup_insert_eq.
  - intros ty Hty. destruct (last polls); [|done]. by rewrite lookup_insert_ne.
Qed.

Lemma dataUpdated_on_every_poll_witness :
  let wallet := {| endpoint := "/lol-inventory/v1/wallet"; interval := 10000;
                   type := "wallet"; suppressErrors := true |} in
  let st' := poll_all connected_at_start wallet [(JNum 0, 1000); (JNum 0, 11000)] in
  isConnected connected_at_start = true /\ is_Some (axios connected_at_start) /\
  List.filter is_dataUpdated (emitted st') =
    [DataUpdated "wallet" "/lol-inventory/v1/wallet" (JNum 0) 1000 JUndefined;
     DataUpdated "wallet" "/lol-inventory/v1/wallet" (JNum 0) 11000 (JNum 0)] /\
  getCachedData st' "wallet" = JNum 0 /\
  getCachedData st' "summoner" = JNull.
Proof.
  intros wallet st'.
  assert (Ha : is_Some (axios connected_at_start)) by (vm_compute; by eexists).
  destruct (dataUpdated_on_every_poll connected_at_start wallet
              [(JNum 0, 1000); (JNum 0, 11000)] eq_refl Ha) as (He & Hd & Ho).
  split; [reflexivity|]. split; [exact Ha|].
  split; [exact He|]. split; [exact Hd|].
  exact (Ho "summoner" ltac:(done)).
Defined.

(** X16: [shutdown] stops the process monitor, empties the poller map and
    the cache, drops the client handle and leaves the service disconnected
    and uninitialized; it clears every registered poll timer (all of them,
    when each live one is registered) and emits [connectionChanged] only when
    the service was connected.  It does not cancel the pending reconnection
    timers nor withdraw the polls in flight: a retry that fires after the
    shutdown and finds the client connects the service again. *)
Theorem shutdown_leaves_retries_pending st now :
  let st' := shutdown st now in
  (processMonitor st' = false /\ isInitialized st' = false /\ isConnected st' = false /\
   axios st' = None /\ dataCache st' = ∅ /\ endpointPollers st' = ∅) /\
  (polls_registered st -> intervals st' = ∅) /\
  emitted st' =
    emitted st ++
      (if isConnected st then [ConnectionChanged false "Service shutdown" now] else []) /\
  timeouts st' = timeouts st /\ inflight st' = inflight st /\
  (forall id c v t,
     id ∈ (timeouts st).*1 ->
     connectionAttempts st < maxReconnectAttempts (opts st) ->
     isConnected (retry_fires st' id (Established c v) t) = true).
Proof.
  intros st'.
  set (s1 := if processMonitor st then with_processMonitor false st else st).
  assert (H1 : processMonitor s1 = false /\ intervals s1 = intervals st /\
               endpointPollers s1 = endpointPollers st /\ isConnected s1 = isConnected st /\
               emitted s1 = emitted st /\ timeouts s1 = timeouts st /\
               inflight s1 = inflight st /\ opts s1 = opts st /\
               connectionAttempts s1 = connectionAttempts st).
  { subst s1. by destruct (processMonitor st) eqn:Hp. }
  destruct H1 as (Hp & Hiv & Hep & Hc & He & Hto & Hif & Ho & Hat).
  set (s2 := with_dataCache ∅ (stopEndpointPolling s1)).
  assert (Hst' : st' = with_isInitialized false
                         (with_axios None (setConnectionState s2 false "Service shutdown" now)))
    by done.
  assert (Hfields : processMonitor st' = false /\ isInitialized st' = false /\
                    isConnected st' = false /\ axios st' = None /\ dataCache st' = ∅ /\
                    endpointPollers st' = ∅ /\ intervals st' = intervals (stopEndpointPolling s1) /\
                    timeouts st' = timeouts st /\ inflight st' = inflight st /\
                    opts st' = opts st /\ connectionAttempts st' = connectionAttempts st /\
                    emitted st' = emitted s2 ++
                      (if Bool.eqb (isConnected s2) false then []
                       else [ConnectionChanged false "Service shutdown" now])).
  { rewrite Hst'. destruct (emitted_setConnectionState s2 false "Service shutdown" now)
      as [Hem _]. fields. rewrite Hem. unfold setConnectionState.
    by destruct (negb (Bool.eqb (isConnected s2) false)). }
  destruct Hfields as (F1 & F2 & F3 & F4 & F5 & F6 & F7 & F8 & F9 & F10 & F11 & F12).
  split; [done|]. split; [|split; [|split; [done|split; [done|]]]].
  - intros Hreg. rewrite F7. apply map_eq. intros id. rewrite lookup_empty.
    destruct (stopEndpointPolling_intervals s1) as [Hgone Hsub].
    destruct (intervals (stopEndpointPolling s1) !! id) as [config|] eqn:Hid; [|done].
    destruct (Hreg id config) as [ep Hepid]; [rewrite <- Hiv; by apply Hsub|].
    rewrite <- Hep in Hepid. by rewrite (Hgone ep id Hepid) in Hid.
  - rewrite F12. change (emitted s2) with (emitted s1). change (isConnected s2) with (isConnected s1).
    rewrite He, Hc. by destruct (isConnected st).
  - intros id c v t Hid Hlt. unfold retry_fires. rewrite F8.
    rewrite (bool_decide_eq_true_2 _ Hid).
    unfold handleReconnection, handleReconnection_begin. fields. rewrite F10, F11.
    destruct (Z.leb_spec (maxReconnectAttempts (opts st)) (connectionAttempts st)); [lia|].
    unfold handleReconnection_resume.
    set (s3 := with_connectionAttempts _ _).
    destruct (attemptConnection_established s3 c v t) as (Hconn & _).
    destruct (attemptConnection s3 (Established c v) t) as [s4 threw] eqn:Hs4.
    assert (threw = false) as -> by (cbn in Hs4; congruence).
    by cbn [andb fst] in *.
Qed.

End LoLDataServiceMore.

(** ** Poll timers across restarts *)

Section PollTimerLeak.
Import Js LoLDataService.
Local Open Scope list_scope.

Lemma stopEndpointPolling_keeps st id :
  (forall ep, endpointPollers st !! ep <> Some id) ->
  intervals (stopEndpointPolling st) !! id = intervals st !! id.
Proof.
  unfold stopEndpointPolling. cbn [intervals with_endpointPollers with_intervals].
  apply (map_fold_weak_ind
    (fun (r : gmap nat endpoint_config) (m : gmap string nat) =>
       (forall ep, m !! ep <> Some id) -> r !! id = intervals st !! id)).
  - done.
  - intros ep id' m r Hfresh IH Hreg.
    assert (id' <> id).
    { intros ->. apply (Hreg ep). apply lookup_insert_eq. }
    rewrite lookup_delete_ne by done. apply IH. intros ep' Hep'.
    apply (Hreg ep'). rewrite lookup_insert_ne; [done|]. intros ->. congruence.
Qed.

Lemma startPollers_registry configs : forall st ep id,
  endpointPollers (foldl startPoller st configs) !! ep = Some id ->
  (endpointPollers st !! ep = Some id /\ ep ∉ endpoint <$> configs) \/
  (nextTimer st <= id)%nat.
Proof.
  induction configs as [|c configs IH]; intros st ep id; cbn [foldl].
  - intros H. left. split; [done|]. cbn. apply not_elem_of_nil.
  - intros H. apply IH in H.
    assert (Hstep : endpointPollers (startPoller st c) =
                      <[endpoint c := nextTimer st]> (endpointPollers st) /\
                    nextTimer (startPoller st c) = S (nextTimer st)).
    { unfold startPoller, handleEndpointPoll. cbn.
      by destruct (negb (isConnected st) || negb (bool_decide (is_Some (axios st)))). }
    destruct Hstep as [Hep Hn]. rewrite Hep, Hn in H.
    destruct H as [[Hlook Hnotin]|Hge]; [|right; lia].
    apply lookup_insert_Some in Hlook. destruct Hlook as [[<- <-]|[Hne Hlook]].
    + by right.
    + left. split; [done|]. cbn. by intros [?|?]%elem_of_cons.
Qed.

Lemma startPoller_registry st c :
  endpointPollers (startPoller st c) = <[endpoint c := nextTimer st]> (endpointPollers st) /\
  nextTimer (startPoller st c) = S (nextTimer st).
Proof.
  unfold startPoller, handleEndpointPoll. cbn.
  by destruct (negb (isConnected st) || negb (bool_decide (is_Some (axios st)))).
Qed.

Lemma startPollers_other configs : forall st ep,
  ep ∉ endpoint <$> configs ->
  endpointPollers (foldl startPoller st configs) !! ep = endpointPollers st !! ep.
Proof.
  induction configs as [|c configs IH]; intros st ep Hep; cbn [foldl]; [done|].
  cbn in Hep. apply not_elem_of_cons in Hep. destruct Hep as [Hne Hep].
  rewrite IH by done. destruct (startPoller_registry st c) as [-> _].
  by apply lookup_insert_ne.
Qed.

Lemma startPollers_registers configs : forall st ep,
  ep ∈ endpoint <$> configs ->
  exists id, endpointPollers (foldl startPoller st configs) !! ep = Some id /\
             (nextTimer st <= id)%nat.
Proof.
  induction configs as [|c configs IH]; intros st ep Hep; cbn [foldl].
  - by apply elem_of_nil in Hep.
  - destruct (startPoller_registry st c) as [Hreg Hn].
    destruct (decide (ep ∈ endpoint <$> configs)) as [Hin|Hout].
    + destruct (IH (startPoller st c) ep Hin) as (id & Hid & Hge).
      exists id. split; [done|]. lia.
    + cbn in Hep. apply elem_of_cons in Hep. destruct Hep as [->|?]; [|done].
      exists (nextTimer st). split; [|done].
      rewrite startPollers_other by done. rewrite Hreg. apply lookup_insert_eq.
Qed.

(** X17: [startEndpointPolling] does not clear the poll timers that are
    already registered.  When it runs while a timer is registered for a
    configured endpoint, that timer stays live, its handle is overwritten in
    [endpointPollers] by the handle of the new timer, and no later
    [stopEndpointPolling] clears it: the endpoint is polled by both timers from
    then on.  (The polling is started again in this way whenever a connection
    attempt succeeds while timers are registered, as the attempt of a retry
    that fires after a process check has already connected the service.) *)
Theorem restart_leaks_poll_timer st ep id config :
  endpointPollers st !! ep = Some id ->
  intervals st !! id = Some config ->
  (id < nextTimer st)%nat ->
  (forall ep', endpointPollers st !! ep' = Some id -> ep' = ep) ->
  ep ∈ endpoint <$> endpointConfig (opts st) ->
  let st' := startEndpointPolling st in
  intervals st' !! id = Some config /\
  (exists id', endpointPollers st' !! ep = Some id' /\ id' <> id) /\
  intervals (stopEndpointPolling st') !! id = Some config.
Proof.
  intros Hep Hid Hlt Honly Hconf st'. subst st'. unfold startEndpointPolling.
  destruct (startEndpointPolling_fold (endpointConfig (opts st)) st)
    as (_ & _ & _ & _ & _ & _ & _ & Hold).
  pose proof (startPollers_registry (endpointConfig (opts st)) st) as Hreg.
  set (st' := foldl startPoller st (endpointConfig (opts st))) in *.
  assert (Hkept : intervals st' !! id = Some config) by (by rewrite Hold).
  assert (Hfree : forall ep', endpointPollers st' !! ep' <> Some id).
  { intros ep' Hep'. destruct (Hreg ep' id Hep') as [[Hlook Hnotin]|Hge]; [|lia].
    apply Honly in Hlook. by subst ep'. }
  split; [done|]. split.
  - destruct (startPollers_registers (endpointConfig (opts st)) st ep Hconf)
      as (id' & Hid' & Hge).
    exists id'. split; [done|]. lia.
  - by rewrite stopEndpointPolling_keeps.
Qed.

Lemma restart_leaks_poll_timer_witness :
  let st := connected_at_start in
  let ep := "/lol-gameflow/v1/gameflow-phase" in
  endpointPollers st !! ep = Some 1%nat /\
  intervals st !! 1%nat = Some gameflow_endpoint /\
  intervals (stopEndpointPolling (startEndpointPolling st)) !! 1%nat = Some gameflow_endpoint.
Proof.
  intros st ep.
  assert (Honly : forall ep', endpointPollers st !! ep' = Some 1%nat -> ep' = ep).
  { intros ep' H. apply elem_of_map_to_list in H. vm_compute in H.
    repeat (apply elem_of_cons in H; destruct H as [H|H]; [by inversion H|]).
    by apply elem_of_nil in H. }
  assert (Hconf : ep ∈ endpoint <$> endpointConfig (opts st)).
  { apply (bool_decide_unpack _). vm_compute. reflexivity. }
  split; [vm_compute; reflexivity|]. split; [vm_compute; reflexivity|].
  apply (restart_leaks_poll_timer st ep 1%nat gameflow_endpoint
           ltac:(vm_compute; reflexivity) ltac:(vm_compute; reflexivity)
           ltac:(vm_compute; lia) Honly Hconf).
Defined.

End PollTimerLeak.

(** ** The widget registry: updates, terminal errors and cleanup *)

Section KeyServiceMore.
Import Js KeyService.
Local Open Scope list_scope.

Lemma getThrottleDelay_ext st st' k now :
  opts st' = opts st -> lastRenderTime st' = lastRenderTime st ->
  getThrottleDelay st' k now = getThrottleDelay st k now.
Proof. intros Ho Hl. unfold getThrottleDelay. by rewrite Ho, Hl. Qed.

(** An update that passes the three checks of [updateKey] is the render,
    at once, of the prepared data, followed by the bookkeeping of its
    outcome. *)
Lemma updateKey_attempt st serial uid data renderOptions now kd :
  let widget := KeyId.encode serial uid in
  isDeviceConnected st serial = true ->
  activeKeys st !! widget = Some kd ->
  isThrottled st widget now = false ->
  prepareRenderData_throws kd renderOptions = None ->
  let st1 := cancel_queued
               (with_stateManager
                  (StateManager.updateKeyState (stateManager st) uid data now) st) widget in
  let rd := prepareRenderData kd data renderOptions in
  updateKey st serial uid data renderOptions now =
    match executeRender st1 widget rd now with
    | (st2, None) =>
        let st3 :=
          with_renderQueue
            (<[widget := {| keyId := widget; renderData := rd; timestamp := now;
                            timeout := None |}]> (renderQueue st2)) st2 in
        (with_errorCounts (delete widget (errorCounts st3))
           (with_activeKeys (alter (key_rendered now) widget (activeKeys st3)) st3), true)
    | (st2, Some message) => (handleKeyError st2 widget message now, false)
    end.
Proof.
  intros widget Hconn Hkd Hth Hprep st1 rd.
  unfold updateKey. fold widget. rewrite Hconn, Hkd, Hth, Hprep. cbn [negb]. fold rd.
  unfold queueRender. 
  set (st0 := with_stateManager _ st). fold (cancel_queued st0 widget).
  change (cancel_queued st0 widget) with st1.
  assert (Hdelay : getThrottleDelay st1 widget now <= 0).
  { pose proof (isThrottled_delay st widget now) as Hd. rewrite Hth in Hd.
    symmetry in Hd. apply Z.ltb_ge in Hd.
    destruct (cancel_queued_fields st0 widget) as (Ho & Hl & _).
    by rewrite (getThrottleDelay_ext st st1). }
  destruct (Z.ltb_spec 0 (getThrottleDelay st1 widget now)); [lia|].
  by destruct (executeRender st1 widget rd now) as [st2 [message|]].
Qed.

Lemma executeRender_fields st k rd now :
  let st' := (executeRender st k rd now).1 in
  let attempt := draw_attempt st (KeyId.decode k).1 rd now in
  (executeRender st k rd now).2 = attempt.2 /\
  lastRenderTime st' = <[k := now]> (lastRenderTime st) /\
  renderQueue st' = delete k (renderQueue st) /\
  drawn st' = drawn st ++ option_list attempt.1 /\
  emitted st' =
    emitted st ++
      [match attempt.2 with
       | None => KeyRendered (KeyId.decode k).1 (KeyId.decode k).2 now
       | Some message => KeyError (KeyId.decode k).1 (KeyId.decode k).2 message now
       end] /\
  activeKeys st' = activeKeys st /\ errorCounts st' = errorCounts st /\
  timers st' = timers st /\ nextTimer st' = nextTimer st /\ opts st' = opts st /\
  plugin st' = plugin st /\ connectedDevices st' = connectedDevices st /\
  stateManager st' = stateManager st.
Proof.
  unfold executeRender. destruct (KeyId.decode k) as [sn ku]. cbn [fst snd].
  set (st1 := with_lastRenderTime _ st).
  rewrite (draw_attempt_plugin st st1) by done.
  by destruct (draw_attempt st sn rd now) as [call [message|]].
Qed.

(** A draw attempt that does not fail has called the host. *)
Lemma draw_attempt_ok st sn rd now :
  (draw_attempt st sn rd now).2 = None -> is_Some (draw_attempt st sn rd now).1.
Proof.
  unfold draw_attempt. destruct (plugin st) as [draw|]; [|done].
  destruct (truthy (get rd "image")); [|by eexists].
  destruct (get rd "image"); try done; by eexists.
Qed.

(** X18: [updateKey] resolves to [true] exactly when the device is
    connected, the widget is registered and outside its throttle window, and
    the draw of the prepared data succeeds.  A successful update is one draw,
    made at once and never put behind a timer: it is reported by one
    [keyRendered] event, stamps the widget's last render, marks the widget
    [active] with its retry count reset, and clears its error count.  The
    device named in the draw and the event is the one decoded from the widget
    identity.  (Render options other than [null] and a widget configuration
    that is an object, as [registerKeys] stores it: on the others the source
    throws while it prepares the render data.) *)
Theorem updateKey_true_iff st serial uid data renderOptions now :
  let widget := KeyId.encode serial uid in
  let target := (KeyId.decode widget).1 in
  let result := updateKey st serial uid data renderOptions now in
  renderOptions <> JNull ->
  (forall kd, activeKeys st !! widget = Some kd -> exists fields, config kd = JObj fields) ->
  (result.2 = true <->
     isDeviceConnected st serial = true /\ isThrottled st widget now = false /\
     exists kd, activeKeys st !! widget = Some kd /\
                (draw_attempt st target (prepareRenderData kd data renderOptions) now).2
                  = None) /\
  (result.2 = true ->
     exists kd call,
       activeKeys st !! widget = Some kd /\
       (draw_attempt st target (prepareRenderData kd data renderOptions) now).1 = Some call /\
       drawn result.1 = drawn st ++ [call] /\
       emitted result.1 = emitted st ++ [KeyRendered target (KeyId.decode widget).2 now] /\
       activeKeys result.1 = <[widget := key_rendered now kd]> (activeKeys st) /\
       lastRenderTime result.1 = <[widget := now]> (lastRenderTime st) /\
       errorCounts result.1 = delete widget (errorCounts st) /\
       timers result.1 = timers (cancel_queued st widget) /\
       nextTimer result.1 = nextTimer st).
Proof.
  intros widget target result Hro Hcfg.
  destruct (isDeviceConnected st serial) eqn:Hconn; cycle 1.
  { subst result. unfold updateKey. rewrite Hconn. cbn. split; [|done].
    split; [done|]. by intros [? _]. }
  destruct (activeKeys st !! widget) as [kd|] eqn:Hkd; cycle 1.
  { subst result. unfold updateKey. fold widget. rewrite Hconn, Hkd. cbn. split; [|done].
    split; [done|]. by intros (_ & _ & kd & ? & _). }
  destruct (isThrottled st widget now) eqn:Hth.
  { subst result. rewrite updateKey_throttled by done. cbn. split; [|done].
    split; [done|]. by intros (_ & ? & _). }
  pose proof (updateKey_attempt st serial uid data renderOptions now kd Hconn Hkd Hth
                (prepareRenderData_prepared kd renderOptions (Hcfg kd eq_refl) Hro)) as Hup.
  cbn zeta in Hup. fold widget in Hup.
  set (st0 := with_stateManager _ st) in Hup.
  set (rd := prepareRenderData kd data renderOptions) in *.
  destruct (cancel_queued_fields st0 widget)
    as (Ho & Hl & Hq & Hn & Hd & He & Hp & Ha & _).
  set (st1 := cancel_queued st0 widget) in *.
  destruct (executeRender_fields st1 widget rd now)
    as (Rerr & Rl & Rq & Rd & Re & Ra & Rec & Rt & Rn & _).
  rewrite (draw_attempt_plugin st st1) in Rerr, Rd, Re by done.
  fold target in Rerr, Rd, Re.
  assert (Htimers : timers st1 = timers (cancel_queued st widget)).
  { subst st1 st0. unfold cancel_queued. cbn.
    destruct (renderQueue st !! widget) as [task|]; [|done]. by destruct (timeout task). }
  assert (Hec : errorCounts st1 = errorCounts st).
  { subst st1 st0. unfold cancel_queued. cbn.
    destruct (renderQueue st !! widget) as [task|]; [|done]. by destruct (timeout task). }
  subst result. rewrite Hup.
  destruct (executeRender st1 widget rd now) as [st2 err]. cbn [fst snd] in *.
  destruct err as [message|].
  - cbn [fst snd]. split; [|done]. split; [done|].
    intros (_ & _ & kd' & [= <-] & Hok). fold rd in Hok. congruence.
  - cbn [fst snd]. split.
    + split; [|done]. intros _. split; [done|]. split; [done|]. by exists kd.
    + intros _. destruct (draw_attempt_ok st target rd now) as [call Hcall]; [done|].
      exists kd, call. rewrite Hcall in Rd. rewrite <- Rerr in Re.
      cbn. rewrite Ra, Rl, Rec, Rd, Re, Rt, Rn, Hd, He, Hl, Hn, Ha, Hec.
      split_and!; try done.
      apply map_eq. intros k. rewrite lookup_alter, lookup_insert.
      change (activeKeys st0) with (activeKeys st).
      case_decide; [by rewrite Hkd|done].
Qed.

Lemma removeKey_timers st k : sublist (timers (removeKey st k)) (timers st).
Proof.
  unfold removeKey. destruct (renderQueue st !! k) as [task|]; [|done].
  destruct (timeout task); [|done]. cbn. apply List_filter_sublist.
Qed.

Lemma removeKey_fold_tables ks : forall st,
  let st' := foldl removeKey st ks in
  (forall k, activeKeys st' !! k = if decide (k ∈ ks) then None else activeKeys st !! k) /\
  (forall k, renderQueue st' !! k = if decide (k ∈ ks) then None else renderQueue st !! k) /\
  (forall k, lastRenderTime st' !! k =
             if decide (k ∈ ks) then None else lastRenderTime st !! k) /\
  (forall k, errorCounts st' !! k = if decide (k ∈ ks) then None else errorCounts st !! k) /\
  sublist (timers st') (timers st).
Proof.
  induction ks as [|k0 ks IH]; intros st; cbn [foldl].
  - split_and!; try done.
  - destruct (IH (removeKey st k0)) as (Ha & Hq & Hl & He & Ht).
    destruct (removeKey_tables st k0) as (Ha0 & Hq0 & Hl0 & He0 & _).
    assert (Hcase : forall {V} (m : gmap string V) k,
              (if decide (k ∈ ks) then None else delete k0 m !! k) =
              (if decide (k ∈ k0 :: ks) then None else m !! k)).
    { intros V m k. rewrite lookup_delete.
      destruct (decide (k ∈ ks)) as [Hin|Hout].
      - rewrite decide_True; [done|]. by right.
      - destruct (decide (k0 = k)) as [<-|Hne].
        + rewrite decide_True; [done|]. by left.
        + rewrite decide_False; [done|]. intros [->|?]%elem_of_cons; done. }
    split_and!.
    + intros k. by rewrite Ha, Ha0, Hcase.
    + intros k. by rewrite Hq, Hq0, Hcase.
    + intros k. by rewrite Hl, Hl0, Hcase.
    + intros k. by rewrite He, He0, Hcase.
    + etrans; [exact Ht|apply removeKey_timers].
Qed.

(** The widgets that a cleanup removes. *)
Lemma performCleanup_doomed st k :
  k ∈ (List.filter (fun kv : string * key_data =>
                      bool_decide (state kv.2 = dead) || bool_decide (state kv.2 = failed))
                   (map_to_list (activeKeys st))).*1 <->
  exists kd, activeKeys st !! k = Some kd /\ (state kd = dead \/ state kd = failed).
Proof.
  rewrite list_elem_of_fmap. split.
  - intros ([k' kd] & -> & Hin). apply list_elem_of_In, filter_In in Hin.
    destruct Hin as [Hin Hst]. apply list_elem_of_In, elem_of_map_to_list in Hin.
    exists kd. split; [done|]. cbn in Hst. apply orb_true_iff in Hst.
    destruct Hst as [H|H]; apply bool_decide_eq_true in H; tauto.
  - intros (kd & Hkd & Hst). exists (k, kd). split; [done|].
    apply list_elem_of_In, filter_In. split.
    + by apply list_elem_of_In, elem_of_map_to_list.
    + cbn. apply orb_true_iff. destruct Hst as [H|H]; [left|right];
        by apply bool_decide_eq_true.
Qed.

(** X19: what [performCleanup] leaves.  A widget stays exactly when it is
    neither [dead] nor [failed], and stays as it was; a queued render stays
    exactly when its widget is not removed, and no timer is added.  A
    last-render time stays exactly when its widget is still registered and it
    is at most five minutes old; an error count stays exactly when its widget
    is still registered.  So afterwards neither the last-render times nor the
    error counts hold an entry of an unregistered widget, and nothing is
    emitted. *)
Theorem performCleanup_spec st now :
  let st' := performCleanup st now in
  (forall k kd, activeKeys st' !! k = Some kd <->
     activeKeys st !! k = Some kd /\ state kd <> dead /\ state kd <> failed) /\
  (forall k task, renderQueue st' !! k = Some task <->
     renderQueue st !! k = Some task /\
     forall kd, activeKeys st !! k = Some kd -> state kd <> dead /\ state kd <> failed) /\
  (forall k t, lastRenderTime st' !! k = Some t <->
     lastRenderTime st !! k = Some t /\ is_Some (activeKeys st' !! k) /\
     now - t <= 300000) /\
  (forall k n, errorCounts st' !! k = Some n <->
     errorCounts st !! k = Some n /\ is_Some (activeKeys st' !! k)) /\
  sublist (timers st') (timers st) /\
  emitted st' = emitted st /\ connectedDevices st' = connectedDevices st.
Proof.
  intros st'. subst st'. unfold performCleanup.
  set (ks := (List.filter _ (map_to_list (activeKeys st))).*1).
  destruct (removeKey_fold_tables ks st) as (Ha & Hq & Hl & He & Ht).
  destruct (removeKey_fold ks st) as (_ & _ & _ & Hem & Hcd).
  set (st1 := foldl removeKey st ks) in *.
  assert (Hks : forall k, k ∈ ks <->
            exists kd, activeKeys st !! k = Some kd /\ (state kd = dead \/ state kd = failed))
    by apply performCleanup_doomed.
  assert (Hact : forall k kd, activeKeys st1 !! k = Some kd <->
            activeKeys st !! k = Some kd /\ state kd <> dead /\ state kd <> failed).
  { intros k kd. rewrite Ha. destruct (decide (k ∈ ks)) as [Hin|Hout].
    - apply Hks in Hin. destruct Hin as (kd' & Hkd' & Hst). split; [done|].
      intros (Hkd & Hd & Hf). rewrite Hkd in Hkd'. injection Hkd' as <-. tauto.
    - split.
      + intros Hkd. split; [done|]. split; intros Hst; apply Hout, Hks; exists kd; tauto.
      + tauto. }
  cbn [activeKeys renderQueue lastRenderTime errorCounts timers emitted connectedDevices
       with_lastRenderTime with_errorCounts].
  split_and!; try done.
  - intros k task. rewrite Hq. destruct (decide (k ∈ ks)) as [Hin|Hout].
    + apply Hks in Hin. destruct Hin as (kd & Hkd & Hst). split; [done|].
      intros [_ H]. destruct (H kd Hkd). tauto.
    + split; [|tauto]. intros Htask. split; [done|]. intros kd Hkd.
      split; intros Hst; apply Hout, Hks; exists kd; tauto.
  - intros k t. rewrite map_lookup_filter_Some. cbn [fst snd]. rewrite Hl.
    destruct (decide (k ∈ ks)) as [Hin|Hout].
    + split; [by intros [? _]|]. intros (_ & [kd Hkd] & _).
      apply Hact in Hkd. apply Hks in Hin. destruct Hin as (kd' & Hkd' & Hst).
      destruct Hkd as (Hkd & ? & ?). rewrite Hkd in Hkd'. injection Hkd' as <-. tauto.
    + split.
      * intros [Ht' Hkeep]. split; [done|]. split.
        -- destruct (activeKeys st1 !! k) eqn:E; [by eexists|]. destruct Hkeep. by left.
        -- destruct (Z.le_gt_cases (now - t) 300000); [done|]. destruct Hkeep. right. lia.
      * intros (Ht' & [kd Hkd] & Hage). split; [done|].
        intros [Hnone|Hold]; [congruence|lia].
  - intros k n. rewrite map_lookup_filter_Some. cbn [fst snd]. rewrite He.
    destruct (decide (k ∈ ks)) as [Hin|Hout].
    + split; [by intros [? _]|]. intros (_ & [kd Hkd]).
      apply Hact in Hkd. apply Hks in Hin. destruct Hin as (kd' & Hkd' & Hst).
      destruct Hkd as (Hkd & ? & ?). rewrite Hkd in Hkd'. injection Hkd' as <-. tauto.
    + tauto.
Qed.

Lemma performCleanup_removes st now k kd :
  activeKeys st !! k = Some kd -> state kd = dead \/ state kd = failed ->
  let st' := performCleanup st now in
  activeKeys st' !! k = None /\ renderQueue st' !! k = None /\
  lastRenderTime st' !! k = None /\ errorCounts st' !! k = None.
Proof.
  intros Hkd Hst st'. subst st'. unfold performCleanup.
  set (ks := (List.filter _ (map_to_list (activeKeys st))).*1).
  destruct (removeKey_fold_tables ks st) as (Ha & Hq & Hl & He & _).
  assert (Hin : k ∈ ks) by (apply performCleanup_doomed; by exists kd).
  specialize (Ha k). specialize (Hq k). specialize (Hl k). specialize (He k).
  rewrite decide_True in Ha by done. rewrite decide_True in Hq by done.
  rewrite decide_True in Hl by done. rewrite decide_True in He by done.
  cbn [activeKeys renderQueue lastRenderTime errorCounts with_lastRenderTime
       with_errorCounts].
  split_and!; try done.
  - destruct (filter _ _ !! k) as [t|] eqn:E; [|done].
    apply map_lookup_filter_Some in E. destruct E as [E _]. congruence.
  - destruct (filter _ _ !! k) as [n|] eqn:E; [|done].
    apply map_lookup_filter_Some in E. destruct E as [E _]. congruence.
Qed.

Lemma updateKey_unregistered st serial uid data renderOptions now :
  activeKeys st !! KeyId.encode serial uid = None ->
  updateKey st serial uid data renderOptions now = (st, false).
Proof.
  intros Hnone. unfold updateKey. destruct (negb (isDeviceConnected st serial)); [done|].
  by rewrite Hnone.
Qed.

(** X20: a render error whose message contains ['not alive'] or
    ['not connected'] ends the widget.  The update that meets it resolves to
    [false], counts the error, marks the widget [dead] and sets no retry
    timer, whatever the error count and [maxRetries].  The next
    [performCleanup], whenever it runs, removes the widget from the registry,
    the render queue, the last-render times and the error counts, and from
    then on every update of it is refused.  (Render options other than
    [null] and an object as the widget's configuration, as for every update
    that reaches the draw.) *)
Theorem terminal_error_ends_widget st serial uid data renderOptions now kd message :
  let widget := KeyId.encode serial uid in
  renderOptions <> JNull ->
  (exists fields, config kd = JObj fields) ->
  isDeviceConnected st serial = true ->
  activeKeys st !! widget = Some kd ->
  isThrottled st widget now = false ->
  (draw_attempt st (KeyId.decode widget).1 (prepareRenderData kd data renderOptions) now).2
    = Some message ->
  transient message = false ->
  let result := updateKey st serial uid data renderOptions now in
  result.2 = false /\
  activeKeys result.1 = <[widget := key_with_state dead kd]> (activeKeys st) /\
  errorCounts result.1 !! widget = Some (default 0 (errorCounts st !! widget) + 1) /\
  timers result.1 = timers (cancel_queued st widget) /\
  forall later,
    let st' := performCleanup result.1 later in
    activeKeys st' !! widget = None /\ renderQueue st' !! widget = None /\
    lastRenderTime st' !! widget = None /\ errorCounts st' !! widget = None /\
    forall data' renderOptions' t,
      updateKey st' serial uid data' renderOptions' t = (st', false).
Proof.
  intros widget Hro Hcfg Hconn Hkd Hth Hdraw Hterm result.
  pose proof (updateKey_attempt st serial uid data renderOptions now kd Hconn Hkd Hth
                (prepareRenderData_prepared kd renderOptions Hcfg Hro)) as Hup.
  cbn zeta in Hup. fold widget in Hup.
  set (st0 := with_stateManager _ st) in Hup.
  set (rd := prepareRenderData kd data renderOptions) in *.
  destruct (cancel_queued_fields st0 widget) as (Ho & Hl & Hq & Hn & Hd & He & Hp & Ha & _).
  set (st1 := cancel_queued st0 widget) in *.
  destruct (executeRender_fields st1 widget rd now)
    as (Rerr & Rl & Rq & Rd & Re & Ra & Rec & Rt & Rn & _).
  rewrite (draw_attempt_plugin st st1) in Rerr by done. rewrite Hdraw in Rerr.
  assert (Htimers : timers st1 = timers (cancel_queued st widget)).
  { subst st1 st0. unfold cancel_queued. cbn.
    destruct (renderQueue st !! widget) as [task|]; [|done]. by destruct (timeout task). }
  assert (Hec : errorCounts st1 = errorCounts st).
  { subst st1 st0. unfold cancel_queued. cbn.
    destruct (renderQueue st !! widget) as [task|]; [|done]. by destruct (timeout task). }
  destruct (executeRender st1 widget rd now) as [st2 err]. cbn [fst snd] in *. subst err.
  assert (Hres : result = (set_key_state dead widget
                             (with_errorCounts
                                (<[widget := default 0 (errorCounts st !! widget) + 1]>
                                   (errorCounts st)) st2), false)).
  { subst result. rewrite Hup. unfold handleKeyError.
    cbn [activeKeys with_errorCounts]. rewrite Ra, Ha. change (activeKeys st0) with (activeKeys st).
    rewrite Hkd. unfold transient in Hterm. apply negb_false_iff in Hterm. rewrite Hterm.
    by rewrite Rec, Hec. }
  rewrite Hres. cbn [fst snd].
  set (st3 := set_key_state dead widget _).
  assert (Hact : activeKeys st3 = <[widget := key_with_state dead kd]> (activeKeys st)).
  { subst st3. unfold set_key_state. cbn [activeKeys with_activeKeys with_errorCounts].
    rewrite Ra, Ha. change (activeKeys st0) with (activeKeys st).
    apply map_eq. intros k. rewrite lookup_alter, lookup_insert.
    case_decide; [by rewrite Hkd|done]. }
  split; [done|]. split; [exact Hact|]. split; [|split].
  - subst st3. unfold set_key_state. cbn [errorCounts with_activeKeys with_errorCounts].
    apply lookup_insert_eq.
  - subst st3. unfold set_key_state. cbn [timers with_activeKeys with_errorCounts].
    congruence.
  - intros later.
    destruct (performCleanup_removes st3 later widget (key_with_state dead kd))
      as (C1 & C2 & C3 & C4).
    + rewrite Hact. apply lookup_insert_eq.
    + by left.
    + split_and!; try done. intros data' renderOptions' t.
      by apply updateKey_unregistered.
Qed.

Lemma terminal_error_ends_widget_witness :
  let st := two_devices_gone in
  let result := updateKey st "SN1" "7" image_A JUndefined 5000 in
  isDeviceConnected st "SN1" = true /\
  isThrottled st (KeyId.encode "SN1" "7") 5000 = false /\
  transient "Device is not connected" = false /\
  result.2 = false /\
  state <$> activeKeys result.1 !! "SN1-7" = Some dead /\
  timers result.1 = [] /\
  activeKeys (performCleanup result.1 10000) !! "SN1-7" = None.
Proof.
  intros st result.
  split; [reflexivity|]. split; [reflexivity|]. split; [reflexivity|].
  destruct (terminal_error_ends_widget st "SN1" "7" image_A JUndefined 5000
              {| serialNumber := "SN1"; keyUid := "7";
                 config := JObj [("uid", JNum 7); ("cid", JStr "com.lol.summoner")];
                 state := inactive; lastUpdate := None; retryCount := 0 |}
              "Device is not connected"
              ltac:(discriminate) ltac:(by eexists)
              eq_refl ltac:(vm_compute; reflexivity) eq_refl
              ltac:(vm_compute; reflexivity) eq_refl)
    as (H1 & H2 & _ & H4 & H5).
  fold result in H1, H2, H4, H5.
  split; [exact H1|]. split; [by rewrite H2, lookup_insert_eq|].
  split; [exact H4|]. apply (H5 10000).
Defined.

Lemma registerKeys_fold sn keys : forall st,
  let st' :=
    foldl (fun st key =>
             let uid := to_String (get key "uid") in
             let keyId := KeyId.encode sn uid in
             with_activeKeys
               (<[keyId := {| serialNumber := sn; keyUid := uid;
                              config := JObj (own_fields key); state := inactive;
                              lastUpdate := None; retryCount := 0 |}]> (activeKeys st)) st)
          st keys in
  (forall key, key ∈ keys ->
     exists key', key' ∈ keys /\
       to_String (get key' "uid") = to_String (get key "uid") /\
       activeKeys st' !! KeyId.encode sn (to_String (get key "uid")) =
         Some {| serialNumber := sn; keyUid := to_String (get key "uid");
                 config := JObj (own_fields key'); state := inactive;
                 lastUpdate := None; retryCount := 0 |}) /\
  (forall k, (forall key, key ∈ keys -> k <> KeyId.encode sn (to_String (get key "uid"))) ->
     activeKeys st' !! k = activeKeys st !! k) /\
  renderQueue st' = renderQueue st /\ lastRenderTime st' = lastRenderTime st /\
  errorCounts st' = errorCounts st /\ timers st' = timers st /\
  emitted st' = emitted st /\ connectedDevices st' = connectedDevices st /\
  drawn st' = drawn st.
Proof.
  induction keys as [|key0 keys IH]; intros st; cbn [foldl].
  - split_and!; try done. by intros key ?%elem_of_nil.
  - set (st1 := with_activeKeys _ st).
    destruct (IH st1) as (Hin & Hout & Hrest). split_and!; try apply Hrest.
    + intros key [->|Hkey]%elem_of_cons.
      * destruct (decide (to_String (get key0 "uid") ∈
                            (fun key => to_String (get key "uid")) <$> keys))
          as [(key' & Huid & Hkey')%list_elem_of_fmap|Hnone].
        -- symmetry in Huid. destruct (Hin key' Hkey') as (key'' & Hk'' & Huid'' & Hlook).
           exists key''. split; [by right|]. split; [congruence|].
           by rewrite <- Huid.
        -- exists key0. split; [by left|]. split; [done|].
           rewrite Hout.
           ++ subst st1. cbn. apply lookup_insert_eq.
           ++ intros key' Hkey' Heq. apply Hnone. apply list_elem_of_fmap.
              exists key'. split; [|done].
              unfold KeyId.encode in Heq. by do 2 apply String.app_inj in Heq.
      * destruct (Hin key Hkey) as (key' & Hkey' & Huid & Hlook).
        exists key'. split; [by right|]. done.
    + intros k Hk. rewrite Hout.
      * subst st1. cbn. apply lookup_insert_ne. intros Heq. eapply Hk; [by left|done].
      * intros key Hkey. apply Hk. by right.
Qed.

Lemma updateKey_true_iff_witness :
  let result := updateKey two_devices "SN1" "7" image_A JUndefined 5000 in
  JUndefined <> JNull /\
  result.2 = true /\
  drawn result.1 =
    [{| draw_serialNumber := Some "SN1";
        draw_renderData :=
          JObj [("uid", JNum 7); ("title", JStr "League of Legends"); ("width", JNum 72);
                ("style",
                 JObj [("showTitle", JBool false); ("showImage", JBool true);
                       ("showIcon", JBool false); ("showEmoji", JBool false);
                       ("backgroundColor", JStr "#1E3A8A")])];
        base64 := Some "data:image/png;base64,AAAA" |}] /\
  lastRenderTime result.1 !! "SN1-7" = Some 5000.
Proof.
  intros result.
  assert (Hcfg : forall kd, activeKeys two_devices !! KeyId.encode "SN1" "7" = Some kd ->
                            exists fields, config kd = JObj fields).
  { intros kd Hkd. vm_compute in Hkd. injection Hkd as <-. by eexists. }
  destruct (updateKey_true_iff two_devices "SN1" "7" image_A JUndefined 5000
              ltac:(discriminate) Hcfg) as [Hiff Hok].
  fold result in Hiff, Hok.
  assert (Htrue : result.2 = true).
  { apply Hiff. split; [reflexivity|]. split; [reflexivity|].
    eexists. split; [vm_compute; reflexivity|]. vm_compute. reflexivity. }
  split; [discriminate|]. split; [exact Htrue|].
  destruct (Hok Htrue) as (kd & call & Hkd & Hcall & Hdrawn & _ & _ & Hlast & _).
  vm_compute in Hkd. injection Hkd as <-. vm_compute in Hcall. injection Hcall as <-.
  split; [exact Hdrawn|]. rewrite Hlast. apply lookup_insert_eq.
Defined.

(** X21: [registerKeys] marks the device connected, announcing it only when
    it was not, and files every key of the list under the identity made of the
    device's serial number and the key's uid: as an [inactive] widget with no
    last update and a retry count of 0, configured by (a copy of) a key of the
    list with that uid.  Widgets under other identities stay as they were.
    A widget registered again is reset to [inactive], yet keeps its last
    render time, its error count and its queued render, and no timer is
    touched.  (The keys are objects, as the host sends them.) *)
Theorem registerKeys_spec st serialNumber keys :
  let sn := to_String serialNumber in
  let st' := registerKeys st serialNumber keys in
  Forall (fun key => exists fields, key = JObj fields) keys ->
  isDeviceConnected st' sn = true /\
  emitted st' = emitted st ++ (if isDeviceConnected st sn then [] else [DeviceConnected sn]) /\
  (forall key, key ∈ keys ->
     exists key', key' ∈ keys /\
       to_String (get key' "uid") = to_String (get key "uid") /\
       activeKeys st' !! KeyId.encode sn (to_String (get key "uid")) =
         Some {| serialNumber := sn; keyUid := to_String (get key "uid");
                 config := JObj (own_fields key'); state := inactive;
                 lastUpdate := None; retryCount := 0 |}) /\
  (forall k, (forall key, key ∈ keys -> k <> KeyId.encode sn (to_String (get key "uid"))) ->
     activeKeys st' !! k = activeKeys st !! k) /\
  lastRenderTime st' = lastRenderTime st /\ errorCounts st' = errorCounts st /\
  renderQueue st' = renderQueue st /\ timers st' = timers st.
Proof.
  intros sn st' _. subst st'. unfold registerKeys. fold sn.
  set (st1 := if negb (isDeviceConnected st sn) then _ else st).
  assert (H1 : isDeviceConnected st1 sn = true /\
               emitted st1 = emitted st ++
                 (if isDeviceConnected st sn then [] else [DeviceConnected sn]) /\
               activeKeys st1 = activeKeys st /\ lastRenderTime st1 = lastRenderTime st /\
               errorCounts st1 = errorCounts st /\ renderQueue st1 = renderQueue st /\
               timers st1 = timers st).
  { subst st1. destruct (isDeviceConnected st sn) eqn:Hc; cbn [negb].
    - by rewrite app_nil_r.
    - split_and!; try done. unfold isDeviceConnected. cbn.
      apply set_has_true, elem_of_set_add. by left. }
  destruct H1 as (Hc1 & He1 & Ha1 & Hl1 & Hec1 & Hq1 & Ht1).
  destruct (registerKeys_fold sn keys st1) as (Hin & Hout & Hq & Hl & Hec & Ht & He & Hcd & _).
  cbn zeta in *.
  split_and!; try congruence.
  - unfold isDeviceConnected in *. by rewrite Hcd.
  - exact Hin.
  - intros k Hk. rewrite Hout by done. by rewrite Ha1.
Qed.

Lemma registerKeys_spec_witness :
  let keys := [JObj [("uid", JNum 7); ("cid", JStr "com.lol.summoner")]] in
  let st' := registerKeys rendered_at_5000 (JStr "SN1") keys in
  Forall (fun key => exists fields, key = JObj fields) keys /\
  state <$> activeKeys rendered_at_5000 !! "SN1-7" = Some active /\
  state <$> activeKeys st' !! "SN1-7" = Some inactive /\
  lastRenderTime st' !! "SN1-7" = Some 5000.
Proof.
  intros keys st'.
  assert (Hkeys : Forall (fun key => exists fields, key = JObj fields) keys)
    by (repeat constructor; by eexists).
  split; [exact Hkeys|]. split; [vm_compute; reflexivity|].
  destruct (registerKeys_spec rendered_at_5000 (JStr "SN1") keys Hkeys)
    as (_ & _ & Hin & _ & Hl & _).
  fold st' in Hin, Hl. split.
  - destruct (Hin (JObj [("uid", JNum 7); ("cid", JStr "com.lol.summoner")]))
      as (key' & _ & _ & Hlook); [by left|].
    change (KeyId.encode _ _) with "SN1-7" in Hlook.
    change (activeKeys st' !! "SN1-7" = Some
              {| serialNumber := "SN1"; keyUid := "7"; config := JObj (own_fields key');
                 state := inactive; lastUpdate := None; retryCount := 0 |}) in Hlook.
    by rewrite Hlook.
  - rewrite Hl. vm_compute. reflexivity.
Defined.

Lemma assoc_remove_eq k fs : assoc k (assoc_remove k fs) = None.
Proof.
  induction fs as [|[k' v] fs IH]; [done|]. cbn [assoc_remove].
  destruct (String.eqb_spec k k') as [->|Hne]; [exact IH|].
  cbn [assoc]. by destruct (String.eqb_spec k k').
Qed.

Lemma getConnectionStateRenderOptions_shape connectionState :
  exists title color,
    getConnectionStateRenderOptions connectionState =
      [("title", JStr title); ("backgroundColor", JStr color);
       ("showImage", JBool false); ("showTitle", JBool true)].
Proof.
  unfold getConnectionStateRenderOptions.
  destruct connectionState as [| |b|z|s|items|fields]; try by eexists _, _.
  destruct (String.eqb s "disconnected"); [by eexists _, _|].
  destruct (String.eqb s "reconnecting"); [by eexists _, _|].
  destruct (String.eqb s "connected"); by eexists _, _.
Qed.

(** X22: what [prepareRenderData] hands to the render.  The uid and the
    width are those of the widget's configuration (72 when it gives no
    width).  The title is the one of the render options when they give one;
    else, when the data carry a connection state, the title of that state;
    else the configured title, or ['League of Legends'].  The image is the
    [imageData] of the data, when they carry one.  Data whose [imageData] is a
    PNG data URL are therefore drawn in the four-argument form, the URL passed
    on its own and taken out of the render data. *)
Theorem prepareRenderData_precedence st kd fields data renderOptions serial now :
  config kd = JObj fields -> renderOptions <> JNull ->
  let rd := prepareRenderData kd data renderOptions in
  get rd "uid" = get (config kd) "uid" /\
  get rd "width" = js_or (get (config kd) "width") (JNum 72) /\
  get rd "title" =
    (if defined (get renderOptions "title") then get renderOptions "title"
     else if truthy data && truthy (get data "connectionState")
          then get (JObj (getConnectionStateRenderOptions (get data "connectionState")))
                   "title"
          else js_or (get (config kd) "title") (JStr "League of Legends")) /\
  get rd "image" =
    (if truthy data && truthy (get data "imageData") then get data "imageData"
     else JUndefined) /\
  (forall draw url,
     plugin st = Some draw ->
     get data "imageData" = JStr url ->
     startsWith "data:image/png;base64," url = true ->
     (draw_attempt st serial rd now).1 =
       Some {| draw_serialNumber := serial; draw_renderData := del rd "image";
               base64 := Some url |} /\
     get (del rd "image") "image" = JUndefined).
Proof.
  intros Hcfg Hro rd.
  assert (Hro' : forall k, get (param_default (JObj []) renderOptions) k = get renderOptions k)
    by (intros k; by destruct renderOptions).
  assert (Hfields :
    get rd "uid" = get (config kd) "uid" /\
    get rd "width" = js_or (get (config kd) "width") (JNum 72) /\
    get rd "title" =
      (if defined (get renderOptions "title") then get renderOptions "title"
       else if truthy data && truthy (get data "connectionState")
            then get (JObj (getConnectionStateRenderOptions (get data "connectionState")))
                     "title"
            else js_or (get (config kd) "title") (JStr "League of Legends")) /\
    get rd "image" =
      (if truthy data && truthy (get data "imageData") then get data "imageData"
       else JUndefined) /\
    exists fs, rd = JObj fs).
  { subst rd. unfold prepareRenderData, applyDataToRenderData, set_style. rewrite !Hro'.
    destruct (getConnectionStateRenderOptions_shape (get data "connectionState"))
      as (title & color & ->).
    destruct (truthy data); cbn [andb];
      [destruct (truthy (get data "imageData")),
                (truthy (get data "connectionState"))|];
      destruct (defined (get renderOptions "title")),
               (defined (get renderOptions "backgroundColor")),
               (defined (get renderOptions "showImage")),
               (defined (get renderOptions "showTitle"));
      cbn; split_and!; try done; by eexists. }
  destruct Hfields as (Huid & Hwidth & Htitle & Himage & fs & Hrd).
  split_and!; try done.
  intros draw url Hp Hurl Hstarts.
  assert (Hnonempty : truthy (JStr url) = true) by by destruct url.
  assert (Hdata : truthy data = true) by (destruct data; try done; by destruct z).
  rewrite Hdata, Hurl, Hnonempty in Himage. cbn [andb] in Himage.
  unfold draw_attempt. rewrite Hp, Himage, Hnonempty, Hstarts. split; [done|].
  rewrite Hrd. cbn [del get]. by rewrite assoc_remove_eq.
Qed.

Lemma prepareRenderData_precedence_witness :
  let kd := {| serialNumber := "SN1"; keyUid := "7";
               config := JObj [("uid", JNum 7); ("title", JStr "Summoner")];
               state := inactive; lastUpdate := None; retryCount := 0 |} in
  let data := JObj [("imageData", JStr "data:image/png;base64,AAAA");
                    ("connectionState", JStr "reconnecting")] in
  config kd = JObj [("uid", JNum 7); ("title", JStr "Summoner")] /\
  JUndefined <> JNull /\
  get (prepareRenderData kd data JUndefined) "uid" = JNum 7 /\
  get (prepareRenderData kd data JUndefined) "title" = JStr "Reconnecting..." /\
  get (prepareRenderData kd JNull JUndefined) "title" = JStr "Summoner" /\
  get (prepareRenderData kd data (JObj [("title", JStr "")])) "title" = JStr "".
Proof.
  intros kd data.
  split; [reflexivity|]. split; [discriminate|].
  destruct (prepareRenderData_precedence two_devices kd
              [("uid", JNum 7); ("title", JStr "Summoner")] data JUndefined None 0
              eq_refl ltac:(discriminate)) as (H1 & _ & H3 & _).
  destruct (prepareRenderData_precedence two_devices kd
              [("uid", JNum 7); ("title", JStr "Summoner")] JNull JUndefined None 0
              eq_refl ltac:(discriminate)) as (_ & _ & H3' & _).
  destruct (prepareRenderData_precedence two_devices kd
              [("uid", JNum 7); ("title", JStr "Summoner")] data
              (JObj [("title", JStr "")]) None 0
              eq_refl ltac:(discriminate)) as (_ & _ & H3'' & _).
  split; [exact H1|]. split; [exact H3|]. split; [exact H3'|exact H3''].
Defined.

(** X23: a retry that outlives its widget is harmless.  When the timer of a
    retry fires after the widget was removed or its device left, the timer is
    consumed and nothing else changes: nothing is drawn, emitted, counted or
    scheduled. *)
Theorem stale_retry_changes_nothing st id now tm widget serial uid :
  List.find (fun t => Nat.eqb (handle t) id) (timers st) = Some tm ->
  run tm = RetryCallback widget serial uid ->
  due tm <= now ->
  activeKeys st !! KeyId.encode serial uid = None \/ isDeviceConnected st serial = false ->
  fire st id now = clearTimeout (Some id) st.
Proof.
  intros Hfind Hrun Hdue Hstale. unfold fire. rewrite Hfind, Hrun.
  destruct (Z.ltb_spec now (due tm)); [lia|].
  destruct (truthy _); [|done].
  set (st1 := clearTimeout (Some id) st).
  assert (H1 : activeKeys st1 = activeKeys st /\ connectedDevices st1 = connectedDevices st)
    by done.
  destruct H1 as [Ha Hc]. unfold updateKey, isDeviceConnected in *. rewrite Ha, Hc.
  destruct Hstale as [Hnone|Hgone].
  - rewrite Hnone. by destruct (negb _).
  - by rewrite Hgone.
Qed.

Lemma stale_retry_changes_nothing_witness :
  let st := handleDeviceStatus
              (updateKey two_devices_failing "SN1" "7" image_A JUndefined 5000).1
              (DeviceArray []) in
  let tm := {| handle := 0; due := 6000; run := RetryCallback "SN1-7" "SN1" "7" |} in
  timers st = [tm] /\
  activeKeys st !! KeyId.encode "SN1" "7" = None /\
  fire st 0 6000 = with_timers [] st.
Proof.
  intros st tm.
  assert (Ht : timers st = [tm]) by (vm_compute; reflexivity).
  assert (Hnone : activeKeys st !! KeyId.encode "SN1" "7" = None)
    by (vm_compute; reflexivity).
  split; [exact Ht|]. split; [exact Hnone|].
  rewrite (stale_retry_changes_nothing st 0 6000 tm "SN1-7" "SN1" "7"
             ltac:(by rewrite Ht) eq_refl ltac:(done) (or_introl Hnone)).
  unfold clearTimeout. by rewrite Ht.
Defined.

Lemma shutdown_cancels st :
  let st1 :=
    map_fold (fun (_ : string) (renderTask : render_task) st =>
                clearTimeout (timeout renderTask) st)
             st (renderQueue st) in
  (forall t, t ∈ timers st1 <->
     t ∈ timers st /\
     forall k task, renderQueue st !! k = Some task -> timeout task <> Some (handle t)) /\
  stateManager st1 = stateManager st /\ emitted st1 = emitted st /\ drawn st1 = drawn st /\
  plugin st1 = plugin st /\ opts st1 = opts st /\ nextTimer st1 = nextTimer st.
Proof.
  cbn zeta.
  apply (map_fold_weak_ind
    (fun (r : service) (m : gmap string render_task) =>
       (forall t, t ∈ timers r <->
          t ∈ timers st /\
          forall k task, m !! k = Some task -> timeout task <> Some (handle t)) /\
       stateManager r = stateManager st /\ emitted r = emitted st /\ drawn r = drawn st /\
       plugin r = plugin st /\ opts r = opts st /\ nextTimer r = nextTimer st)).
  - split_and!; try done. intros t. split; [|tauto]. intros Ht. split; [done|].
    intros k task. by rewrite lookup_empty.
  - intros k task m r Hfresh (Ht & Hrest).
    assert (Hsame : stateManager (clearTimeout (timeout task) r) = stateManager r /\
                    emitted (clearTimeout (timeout task) r) = emitted r /\
                    drawn (clearTimeout (timeout task) r) = drawn r /\
                    plugin (clearTimeout (timeout task) r) = plugin r /\
                    opts (clearTimeout (timeout task) r) = opts r /\
                    nextTimer (clearTimeout (timeout task) r) = nextTimer r)
      by (by destruct (timeout task)).
    destruct Hsame as (-> & -> & -> & -> & -> & ->). split; [|exact Hrest].
    intros t. unfold clearTimeout. destruct (timeout task) as [id|] eqn:Hto.
    + cbn [timers with_timers]. rewrite list_elem_of_In, filter_In, <- list_elem_of_In, Ht.
      rewrite negb_true_iff, Nat.eqb_neq. split.
      * intros [[Hin Hm] Hne]. split; [done|].
        intros k' task' [[<- <-]|[_ Hk']]%lookup_insert_Some; [|by eapply Hm].
        rewrite Hto. congruence.
      * intros [Hin Hm]. split; [split; [done|]|].
        -- intros k' task' Hk'. apply (Hm k'). rewrite lookup_insert_ne; [done|].
           intros <-. congruence.
        -- intros Heq. apply (Hm k task); [apply lookup_insert_eq|]. congruence.
    + rewrite Ht. split.
      * intros [Hin Hm]. split; [done|].
        intros k' task' [[<- <-]|[_ Hk']]%lookup_insert_Some; [|by eapply Hm].
        by rewrite Hto.
      * intros [Hin Hm]. split; [done|].
        intros k' task' Hk'. apply (Hm k'). rewrite lookup_insert_ne; [done|].
        intros <-. congruence.
Qed.

(** X24: [shutdown] silences the service.  It empties the widget registry,
    the render queue, the last-render times, the error counts and the set of
    devices, cancels the timer of every queued render and no other timer, and
    draws and emits nothing.  Afterwards every [updateKey] is refused, and a
    retry timer that was left pending is consumed without effect when it
    fires. *)
Theorem shutdown_silences st f now io_ok :
  let st' := (shutdown st f now io_ok).1 in
  (activeKeys st' = ∅ /\ renderQueue st' = ∅ /\ lastRenderTime st' = ∅ /\
   errorCounts st' = ∅ /\ connectedDevices st' = []) /\
  (forall t, t ∈ timers st' <->
     t ∈ timers st /\
     forall k task, renderQueue st !! k = Some task -> timeout task <> Some (handle t)) /\
  drawn st' = drawn st /\ emitted st' = emitted st /\
  (forall serial uid data renderOptions t,
     updateKey st' serial uid data renderOptions t = (st', false)) /\
  (forall id t tm widget serial uid,
     List.find (fun t => Nat.eqb (handle t) id) (timers st') = Some tm ->
     run tm = RetryCallback widget serial uid ->
     fire st' id t = if t <? due tm then st' else clearTimeout (Some id) st').
Proof.
  intros st'. subst st'. unfold shutdown.
  destruct (shutdown_cancels st) as (Ht & Hsm & He & Hd & _).
  set (st1 := map_fold _ st (renderQueue st)) in *.
  set (st2 := with_connectedDevices [] _).
  destruct (StateManager.shutdown (stateManager st2) f now io_ok) as [sm f'].
  cbn [fst].
  split; [done|]. split; [exact Ht|]. split; [exact Hd|]. split; [exact He|]. split.
  - intros serial uid data renderOptions t. by apply updateKey_unregistered.
  - intros id t tm widget serial uid Hfind Hrun. unfold fire. rewrite Hfind, Hrun.
    destruct (t <? due tm); [done|].
    destruct (truthy _); [|done]. by rewrite updateKey_unregistered.
Qed.

End KeyServiceMore.
